(** * github_pipe: the GitHub agent pipe, in Rocq

    A shallow embedding of [src/github_pipe.py] (class [Pipe]): format
    detection, the query extractor, the numeric and text formatters, the
    table and chart renderers, the direct search orchestrator, the
    tool-proxy wrapper and the response cleaner, then the tool list, the
    chat call and the main loop ([_fetch_tools], [_call_ollama], [pipe]),
    followed by the properties the specification states about them and
    by further properties of the code.

    Conventions of the embedding.
    - A Python [str] is a [string]; each [ascii] stands for one code point
      below 128, and the character classes ([\w], [str.isspace],
      [str.lower]) are the ASCII ones.
    - A Python [int] is a [Z].  A Python [float] (binary64) is the pair
      [(m, e)] that stands for [m * 2^e]; rounding to nearest, ties to
      even, is written out over [Z].
    - A JSON object that the code reads as a record ([r.get("key")]) is a
      record whose fields are [field]s: the key can be missing, [null] or
      hold a value of the type the GitHub API documents for it.
    - A call that can raise returns a [result]; the network is an
      explicit outcome handed to the function that performs the call.
    - A JSON document of which nothing is known (the OpenAPI document,
      the messages and the responses of the model) is a [json] value,
      on which the operations of a [dict] raise as Python's do.
    - [pipe] is a computation that appends to a log of actions: the
      status events, the calls of the chat endpoint and the tool calls,
      in the order in which they happen. *)

From Stdlib Require Import String Ascii List ZArith Lia Bool Arith DecimalString.
From Stdlib Require Import Sorting.Sorted Sorting.Permutation.
Import ListNotations.
Set Warnings "-abstract-large-number,-register-all".
Open Scope string_scope.

(* ================================================================== *)
(** * Part I.  Definitions *)
(* ================================================================== *)

(** ** The Python runtime the script relies on *)

Module Py.

(** *** Characters *)

Definition code (c : ascii) : nat := nat_of_ascii c.

Definition in_range (lo hi : nat) (c : ascii) : bool :=
  (lo <=? code c)%nat && (code c <=? hi)%nat.

Definition is_upper (c : ascii) : bool := in_range 65 90 c.
Definition is_lower (c : ascii) : bool := in_range 97 122 c.
Definition is_digit (c : ascii) : bool := in_range 48 57 c.

(** [\w] of [re] on ASCII text: letters, digits and the underscore. *)
Definition is_word (c : ascii) : bool :=
  is_upper c || is_lower c || is_digit c || (code c =? 95)%nat.

(** [str.isspace] on ASCII text: TAB, LF, VT, FF, CR, the four
    separators 28 to 31, and the space. *)
Definition is_space (c : ascii) : bool :=
  in_range 9 13 c || in_range 28 31 c || (code c =? 32)%nat.

Definition lower_char (c : ascii) : ascii :=
  if is_upper c then ascii_of_nat (code c + 32) else c.

(** The characters that need a code: line feed and the double quote. *)
Definition LF : ascii := ascii_of_nat 10.
Definition DQ : ascii := ascii_of_nat 34.
Definition nl : string := String LF "".
Definition dq : string := String DQ "".

(** *** Strings *)

(** [s.lower()] *)
Fixpoint lower (s : string) : string :=
  match s with
  | "" => ""
  | String c r => String (lower_char c) (lower r)
  end.

(** [s.startswith(p)] *)
Definition startswith (s p : string) : bool := prefix p s.

(** [w in s] for strings: [w] occurs in [s] as a contiguous run. *)
Fixpoint py_in (w s : string) : bool :=
  if prefix w s then true
  else match s with
       | "" => false
       | String _ r => py_in w r
       end.

(** [any(w in s for w in ws)] *)
Definition any_in (ws : list string) (s : string) : bool :=
  existsb (fun w => py_in w s) ws.

(** [w in (a, b, ...)] and [w in {a, b, ...}] for strings. *)
Definition mem (w : string) (ws : list string) : bool :=
  existsb (String.eqb w) ws.

(** [s[:n]] for [n >= 0]. *)
Fixpoint take (n : nat) (s : string) : string :=
  match n, s with
  | S k, String c r => String c (take k r)
  | _, _ => ""
  end.

(** [s.lstrip()], [s.rstrip()], [s.strip()] *)
Fixpoint lstrip (s : string) : string :=
  match s with
  | "" => ""
  | String c r => if is_space c then lstrip r else s
  end.

Fixpoint rstrip (s : string) : string :=
  match s with
  | "" => ""
  | String c r =>
      match rstrip r with
      | "" => if is_space c then "" else String c ""
      | r' => String c r'
      end
  end.

Definition strip (s : string) : string := rstrip (lstrip s).

(** [s.strip(c)] for a one-character argument. *)
Fixpoint lstrip_char (c : ascii) (s : string) : string :=
  match s with
  | "" => ""
  | String a r => if Ascii.eqb a c then lstrip_char c r else s
  end.

Fixpoint rstrip_char (c : ascii) (s : string) : string :=
  match s with
  | "" => ""
  | String a r =>
      match rstrip_char c r with
      | "" => if Ascii.eqb a c then "" else String a ""
      | r' => String a r'
      end
  end.

Definition strip_char (c : ascii) (s : string) : string :=
  rstrip_char c (lstrip_char c s).

(** [s.split(sep)] for a one-character separator: never the empty list. *)
Fixpoint split_char (sep : ascii) (s : string) : list string :=
  match s with
  | "" => [""]
  | String c r =>
      if Ascii.eqb c sep then "" :: split_char sep r
      else match split_char sep r with
           | h :: t => String c h :: t
           | [] => [String c ""]
           end
  end.

(** [s.split()]: the maximal runs of non-space characters.  The helper
    returns the run that starts at the head of [s] (empty when [s] starts
    with a space) and the runs after it. *)
Definition push_run (t : string) (ts : list string) : list string :=
  match t with
  | "" => ts
  | _ => t :: ts
  end.

Fixpoint runs (s : string) : string * list string :=
  match s with
  | "" => ("", [])
  | String c r =>
      let (t, ts) := runs r in
      if is_space c then ("", push_run t ts) else (String c t, ts)
  end.

Definition split (s : string) : list string :=
  let (t, ts) := runs s in push_run t ts.

(** [sep.join(l)] *)
Definition join (sep : string) (l : list string) : string :=
  String.concat sep l.

(** [str(n)] for an [int]. *)
Definition str_of_Z (n : Z) : string := NilZero.string_of_int (Z.to_int n).

(** [len(s)] *)
Definition len (s : string) : nat := String.length s.

(** *** Dynamic values and exceptions *)

(** The values a JSON scalar decodes to. *)
Inductive pyv : Type :=
| PNone
| PInt (z : Z)
| PStr (s : string).

Inductive exn : Type :=
| AttributeError
| TypeError
| ValueError
| OverflowError.

Inductive result (A : Type) : Type :=
| Ok (a : A)
| Raise (e : exn).
Arguments Ok {A} a.
Arguments Raise {A} e.

Definition bind {A B : Type} (r : result A) (k : A -> result B) : result B :=
  match r with
  | Ok a => k a
  | Raise e => Raise e
  end.

Notation "x <- r ;; k" := (bind r (fun x => k))
  (at level 61, r at next level, right associativity).

(** [bool(v)] *)
Definition truthy (v : pyv) : bool :=
  match v with
  | PNone => false
  | PInt z => negb (z =? 0)%Z
  | PStr s => negb (s =? "")
  end.

(** [a or b] *)
Definition py_or (a b : pyv) : pyv := if truthy a then a else b.

(** [str(v)], which is also what an f-string field [{v}] prints. *)
Definition py_str (v : pyv) : string :=
  match v with
  | PNone => "None"
  | PInt z => str_of_Z z
  | PStr s => s
  end.

(** [v == "text"] *)
Definition eq_str (v : pyv) (t : string) : bool :=
  match v with
  | PStr s => s =? t
  | _ => false
  end.

(** [int(s)] for a string: blanks stripped, an optional sign, then decimal
    digits in which single underscores may separate digits. *)
Definition digit_val (c : ascii) : Z := Z.of_nat (code c - 48).

Fixpoint int_digits (acc : Z) (after_digit : bool) (s : string) : option Z :=
  match s with
  | "" => if after_digit then Some acc else None
  | String c r =>
      if is_digit c then int_digits (10 * acc + digit_val c)%Z true r
      else if (code c =? 95)%nat && after_digit then int_digits acc false r
      else None
  end.

Definition int_of_str (s : string) : result Z :=
  let body :=
    match strip s with
    | String c r =>
        if (code c =? 45)%nat then option_map Z.opp (int_digits 0 false r)
        else if (code c =? 43)%nat then int_digits 0 false r
        else int_digits 0 false (String c r)
    | "" => None
    end in
  match body with
  | Some z => Ok z
  | None => Raise ValueError
  end.

(** [int(v)] *)
Definition py_int (v : pyv) : result Z :=
  match v with
  | PInt z => Ok z
  | PStr s => int_of_str s
  | PNone => Raise TypeError
  end.

(** *** Floats (binary64) *)

(** [p / q] rounded to the nearest integer, ties to the even one
    ([0 < q]). *)
Definition round_half_even (p q : Z) : Z :=
  let f := (p / q)%Z in
  let r := (p mod q)%Z in
  if (2 * r <? q)%Z then f
  else if (q <? 2 * r)%Z then (f + 1)%Z
  else if Z.even f then f else (f + 1)%Z.

(** A float is finite, [m * 2^e] with [|m| <= 2^53], or an infinity. *)
Inductive float : Type :=
| Finite (m e : Z)
| Inf (negative : bool).

(** The exponent of the unit in the last place for [p / q], [0 < p],
    [0 < q]: with [2^e0 <= p/q < 2^(e0+1)] it is [e0 - 52], and never
    below the subnormal exponent. *)
Definition ulp_exp (p q : Z) : Z :=
  let k := (Z.log2 p - Z.log2 q)%Z in
  let ge := if (0 <=? k)%Z then (q * 2 ^ k <=? p)%Z else (q <=? p * 2 ^ (- k))%Z in
  let e0 := if ge then k else (k - 1)%Z in
  Z.max (e0 - 52) (-1074).

(** [p / q] rounded to binary64, for [0 < p] and [0 < q]. *)
Definition round_pos (p q : Z) : float :=
  let e := ulp_exp p q in
  let m := if (0 <=? e)%Z then round_half_even p (q * 2 ^ e)
           else round_half_even (p * 2 ^ (- e)) q in
  if (971 <? e)%Z || ((e =? 971)%Z && (2 ^ 53 <=? m)%Z) then Inf false
  else Finite m e.

Definition fneg (x : float) : float :=
  match x with
  | Finite m e => Finite (- m) e
  | Inf s => Inf (negb s)
  end.

(** [p / q] rounded to binary64, for [0 < q]. *)
Definition round_q (p q : Z) : float :=
  if (p =? 0)%Z then Finite 0 0
  else if (p <? 0)%Z then fneg (round_pos (- p) q)
  else round_pos p q.

(** [a / b] on [int]s, [0 < b]: the quotient correctly rounded;
    [OverflowError] when it does not fit a float. *)
Definition true_div (a b : Z) : result float :=
  match round_q a b with
  | Inf _ => Raise OverflowError
  | x => Ok x
  end.

(** [float(n)] as the arithmetic operators convert an [int] operand. *)
Definition float_of_int (n : Z) : result float := true_div n 1.

(** [x * y] on floats: overflow gives an infinity, no exception. *)
Definition fmul (x y : float) : float :=
  match x, y with
  | Finite m1 e1, Finite m2 e2 =>
      let e := (e1 + e2)%Z in
      if (0 <=? e)%Z then round_q (m1 * m2 * 2 ^ e) 1
      else round_q (m1 * m2) (2 ^ (- e))
  | Inf s, Finite m _ | Finite m _, Inf s => Inf (xorb s (m <? 0)%Z)
  | Inf s1, Inf s2 => Inf (xorb s1 s2)
  end.

(** [int(x)]: truncation toward zero. *)
Definition int_of_float (x : float) : result Z :=
  match x with
  | Finite m e =>
      Ok (if (0 <=? e)%Z then m * 2 ^ e else Z.quot m (2 ^ (- e)))%Z
  | Inf _ => Raise OverflowError
  end.

(** The literal [1.2]. *)
Definition float_1_2 : float := round_q 12 10.

(** [f"{x:.1f}"]: the exact value of [x], rounded to one decimal, ties to
    even, printed with all its integer digits. *)
Definition tenths (m e : Z) : Z :=
  if (0 <=? e)%Z then (m * 10 * 2 ^ e)%Z
  else round_half_even (m * 10) (2 ^ (- e)).

Definition fmt_abs_1f (m e : Z) : string :=
  let t := tenths m e in
  str_of_Z (t / 10) ++ "." ++ str_of_Z (t mod 10).

Definition fmt_1f (x : float) : string :=
  match x with
  | Finite m e => if (m <? 0)%Z then "-" ++ fmt_abs_1f (- m) e else fmt_abs_1f m e
  | Inf s => if s then "-inf" else "inf"
  end.

(** *** Lists *)

(** [enumerate(l, i)] *)
Fixpoint enumerate {A : Type} (i : nat) (l : list A) : list (nat * A) :=
  match l with
  | [] => []
  | x :: t => (i, x) :: enumerate (S i) t
  end.

(** A loop body that may raise, run over a list from left to right. *)
Fixpoint for_each {A B : Type} (f : A -> result B) (l : list A) : result (list B) :=
  match l with
  | [] => Ok []
  | x :: t => y <- f x ;; ys <- for_each f t ;; Ok (y :: ys)
  end.

(** [sorted(l, key=key)]: stable, ascending in the key. *)
Fixpoint insert_by {A : Type} (key : A -> Z) (x : A) (l : list A) : list A :=
  match l with
  | [] => [x]
  | y :: t => if (key x <=? key y)%Z then x :: y :: t else y :: insert_by key x t
  end.

Fixpoint sorted_by {A : Type} (key : A -> Z) (l : list A) : list A :=
  match l with
  | [] => []
  | x :: t => insert_by key x (sorted_by key t)
  end.

(** *** Regular-expression primitives *)

(** The longest prefix of [s] whose characters satisfy [p], and the rest:
    what a greedy [[class]*] consumes. *)
Fixpoint span (p : ascii -> bool) (s : string) : string * string :=
  match s with
  | "" => ("", "")
  | String c r =>
      if p c then let (a, b) := span p r in (String c a, b) else ("", s)
  end.

(** [s[n:]] *)
Fixpoint drop (n : nat) (s : string) : string :=
  match n, s with
  | S k, String _ r => drop k r
  | _, _ => s
  end.

(** [\b] between a character that is a word character or not ([before],
    [false] at the start of the text) and the text [s] that follows. *)
Definition word_boundary (before : bool) (s : string) : bool :=
  xorb before (match s with String c _ => is_word c | "" => false end).

Fixpoint last_is_word (w : string) : bool :=
  match w with
  | "" => false
  | String c "" => is_word c
  | String _ r => last_is_word r
  end.

(** [(w1|w2|...)\b] tried at the start of [s]: the alternatives in their
    order, the first one that matches and ends at a word boundary wins;
    the result is the length of the match. *)
Fixpoint alt_then_boundary (alts : list string) (s : string) : option nat :=
  match alts with
  | [] => None
  | w :: rest =>
      if prefix w s && word_boundary (last_is_word w) (drop (len w) s)
      then Some (len w)
      else alt_then_boundary rest s
  end.

(** [re.sub(r'\b(w1|w2|...)\b', '', s)]: one pass from the left; [before]
    tells whether the previous character of the text is a word character
    and [skip] counts the characters of the current match still to drop. *)
Fixpoint sub_words (alts : list string) (before : bool) (skip : nat) (s : string) : string :=
  match s with
  | "" => ""
  | String c r =>
      match skip with
      | S k => sub_words alts (is_word c) k r
      | O =>
          match (if word_boundary before s then alt_then_boundary alts s else None) with
          | Some (S k) => sub_words alts (is_word c) k r
          | _ => String c (sub_words alts (is_word c) 0 r)
          end
      end
  end.

(** [re.sub(w + '.*', '', s, flags=re.DOTALL)] for a literal [w]: the text
    before the first occurrence of [w]. *)
Fixpoint cut_at (w s : string) : string :=
  if prefix w s then ""
  else match s with
       | "" => ""
       | String c r => String c (cut_at w r)
       end.

(** [re.sub(w, '', s)] for a literal, non-empty [w]: one pass from the
    left, occurrences do not overlap. *)
Fixpoint remove_all (w : string) (skip : nat) (s : string) : string :=
  match s with
  | "" => ""
  | String c r =>
      match skip with
      | S k => remove_all w k r
      | O =>
          if prefix w s then remove_all w (len w - 1) r
          else String c (remove_all w 0 r)
      end
  end.

(** *** JSON text *)

Definition hex_digit (n : nat) : ascii :=
  ascii_of_nat (if (n <? 10)%nat then 48 + n else 87 + n).

(** The escape [json.dumps] writes for one character of a string: the
    characters from the space to the tilde stand for themselves, but for
    the quote and the backslash. *)
Definition json_escape_char (c : ascii) : string :=
  let n := code c in
  if (n =? 34)%nat then "\" ++ dq
  else if (n =? 92)%nat then "\\"
  else if (n =? 10)%nat then "\n"
  else if (n =? 13)%nat then "\r"
  else if (n =? 9)%nat then "\t"
  else if (n =? 8)%nat then "\b"
  else if (n =? 12)%nat then "\f"
  else if (n <? 32)%nat || (126 <? n)%nat then
    "\u00" ++ String (hex_digit (n / 16)) (String (hex_digit (n mod 16)) "")
  else String c "".

Fixpoint json_escape (s : string) : string :=
  match s with
  | "" => ""
  | String c r => json_escape_char c ++ json_escape r
  end.

(** [json.dumps(s)] for a string. *)
Definition json_string (s : string) : string := dq ++ json_escape s ++ dq.

End Py.
Import Py.

(** ** The data the script handles *)

(** A key of a JSON object read as a record. *)
Inductive field (A : Type) : Type :=
| Missing
| Null
| Val (a : A).
Arguments Missing {A}.
Arguments Null {A}.
Arguments Val {A} a.

Class Dyn (A : Type) : Type := dyn : A -> pyv.
#[export] Instance dyn_Z : Dyn Z := PInt.
#[export] Instance dyn_string : Dyn string := PStr.

(** [d.get(key, default)] and [d.get(key)] on a key that holds a scalar. *)
Definition get {A : Type} `{Dyn A} (f : field A) (default : pyv) : pyv :=
  match f with
  | Missing => default
  | Null => PNone
  | Val a => dyn a
  end.

(** [d.get(key, default)] on a key that holds an object or a list; the
    result [None] is Python's [None]. *)
Definition get_obj {A : Type} (f : field A) (default : A) : option A :=
  match f with
  | Missing => Some default
  | Null => None
  | Val a => Some a
  end.

Module User.
Record t : Type := { login : field string }.
(** [{}] *)
Definition empty : t := {| login := Missing |}.
End User.

Module PullRequest.
Record t : Type := { merged_at : field string }.
Definition empty : t := {| merged_at := Missing |}.
End PullRequest.

(** One search result: a repository, an issue or a pull request. *)
Record item : Type := {
  full_name : field string;
  name : field string;
  html_url : field string;
  stargazers_count : field Z;
  language : field string;
  description : field string;
  state : field string;
  title : field string;
  number : field Z;
  user : field User.t;
  created_at : field string;
  pull_request : field PullRequest.t;
  merged_at : field string
}.

(** The body of a search response, or the error payload. *)
Record body : Type := {
  items : field (list item);
  total_count : field Z;
  error : field string
}.

(** A Python dict of scalars, in insertion order. *)
Definition dict : Type := list (string * pyv).

Record request : Type := {
  req_url : string;
  req_headers : list (string * string);
  req_params : dict;
  req_json : dict;
  req_timeout : Z
}.

(** What [requests.get] followed by [resp.json()] can do: raise in the
    call, raise in the decoding, or decode the body, to a JSON object or
    to a JSON value of another kind (a list, a string, a number, [null]). *)
Inductive get_outcome : Type :=
| GetRaises (e : string)
| JsonRaises (e : string)
| JsonBody (b : body)
| JsonNotObject.

(** What [requests.post] followed by [resp.text] can do. *)
Inductive post_outcome : Type :=
| PostRaises (e : string)
| PostText (text : string).

Record Valves : Type := {
  MCPO_BASE_URL : string;
  GITHUB_TOKEN : string
}.

Definition default_valves : Valves :=
  {| MCPO_BASE_URL := "http://localhost:8300/github"; GITHUB_TOKEN := "" |}.

(** *** JSON values of any shape *)

(** What [resp.json()] decodes to when nothing is known of the document:
    the OpenAPI document of the proxy.  An object keeps its members in
    the order of the text. *)
Inductive json : Type :=
| JNull
| JBool (b : bool)
| JInt (z : Z)
| JFloat (x : float)
| JStr (s : string)
| JList (l : list json)
| JDict (d : list (string * json)).

Definition jdict : Type := list (string * json).

Fixpoint lookup (key : string) (d : jdict) : option json :=
  match d with
  | [] => None
  | (k, v) :: t => if key =? k then Some v else lookup key t
  end.

(** [d[key] = v] *)
Fixpoint dict_set (key : string) (v : json) (d : jdict) : jdict :=
  match d with
  | [] => [(key, v)]
  | (k, x) :: t => if key =? k then (k, v) :: t else (k, x) :: dict_set key v t
  end.

(** [bool(v)] *)
Definition jtruthy (v : json) : bool :=
  match v with
  | JNull => false
  | JBool b => b
  | JInt z => negb (z =? 0)%Z
  | JFloat (Finite m _) => negb (m =? 0)%Z
  | JFloat (Inf _) => true
  | JStr s => negb (s =? "")
  | JList [] => false
  | JList (_ :: _) => true
  | JDict [] => false
  | JDict (_ :: _) => true
  end.

(** [v.get(key, default)]: only a [dict] has the method. *)
Definition jget (v : json) (key : string) (default : json) : result json :=
  match v with
  | JDict d => Ok match lookup key d with Some x => x | None => default end
  | _ => Raise AttributeError
  end.

(** [v.items()] *)
Definition jitems (v : json) : result jdict :=
  match v with
  | JDict d => Ok d
  | _ => Raise AttributeError
  end.

(** [v == "text"] *)
Definition json_eq_str (v : json) (t : string) : bool :=
  match v with
  | JStr s => s =? t
  | _ => false
  end.

(** [s.split("/")[-1]] *)
Definition last_segment (s : string) : string :=
  List.last (split_char "/"%char s) "".

(** What [requests.get] followed by [resp.json()] can do for the
    OpenAPI document: raise, or decode a JSON value. *)
Inductive fetch_outcome : Type :=
| FetchRaises (e : string)
| FetchJson (spec : json).

(** *** The effects of the model path *)

Record chat_request : Type := {
  chat_url : string;
  chat_json : json;
  chat_timeout : Z
}.

(** What [_call_ollama] can do: raise an exception whose [str] is [e],
    or return the decoded response. *)
Inductive chat_outcome : Type :=
| ChatRaises (e : string)
| ChatJson (response : json).

(** What [pipe] does that can be seen from outside, in order: the
    status events it sends to the emitter, its calls of the chat
    endpoint and its calls of [_execute_tool]. *)
Inductive action : Type :=
| Status (description : string) (done : bool)
| Chat (r : chat_request)
| Tool (tool_name : string) (arguments : json).

(** A computation that appends to the log of actions and may raise. *)
Definition run (A : Type) : Type := list action -> result A * list action.

Definition ret {A : Type} (a : A) : run A := fun log => (Ok a, log).

Definition lift {A : Type} (r : result A) : run A := fun log => (r, log).

Definition bind_run {A B : Type} (m : run A) (k : A -> run B) : run B :=
  fun log =>
    match m log with
    | (Ok a, log') => k a log'
    | (Raise e, log') => (Raise e, log')
    end.

Notation "x <~ m ;; k" := (bind_run m (fun x => k))
  (at level 61, m at next level, right associativity).

Definition act (a : action) : run unit := fun log => (Ok tt, app log [a]).

Definition history : run (list action) := fun log => (Ok log, log).

(** [if __event_emitter__: await __event_emitter__({"type": "status", ...})] *)
Definition emit (emitter : bool) (description : string) (done : bool) : run unit :=
  if emitter then act (Status description done) else ret tt.

(** How a [return] inside the loop over the rounds leaves it. *)
Inductive flow : Type :=
| Return (text : string)
| Continue (messages : list jdict).

(** The valves the model path reads. *)
Record AgentValves : Type := {
  OLLAMA_BASE_URL : string;
  MODEL_ID : string;
  NUM_CTX : Z;
  MAX_TOOL_ROUNDS : Z;
  USE_ALL_TOOLS : bool;
  SYSTEM_PROMPT : string
}.

Definition default_agent_valves : AgentValves :=
  {| OLLAMA_BASE_URL := "http://localhost:11434";
     MODEL_ID := "qwen2.5:7b";
     NUM_CTX := 16384;
     MAX_TOOL_ROUNDS := 5;
     USE_ALL_TOOLS := false;
     SYSTEM_PROMPT :=
       "You are a GitHub assistant. ALWAYS use the available tools to fetch real data. "
       ++ "Never guess or make up information. Present results clearly." |}.

Definition PRIORITY_TOOLS : list string :=
  ["search_repositories"; "search_code"; "search_issues"; "search_users";
   "list_issues"; "list_pull_requests"; "list_commits";
   "get_issue"; "get_pull_request"; "get_file_contents";
   "create_issue"; "add_issue_comment"].

(** ** Class [Pipe] *)

Module Pipe.

Section Methods.

(** [self.valves] and the network the two HTTP calls reach. *)
Variable valves : Valves.
Variable http_get : request -> get_outcome.
Variable http_post : request -> post_outcome.

(** *** Format detection *)

Definition _detect_format (user_msg : string) : string :=
  let msg := lower user_msg in
  if any_in ["pie chart"; "bar chart"; "chart"; "line chart"; "graph"] msg then "chart"
  else if any_in ["table"; "tabular"] msg then "table"
  else "default".

Definition _detect_chart_type (user_msg : string) : string :=
  let msg := lower user_msg in
  if py_in "bar" msg then "bar"
  else if py_in "line" msg then "line"
  else "pie".

(** *** GitHub direct API *)

(** The request [_github_api] sends. *)
Definition api_request (endpoint : string) (params : option dict) : request :=
  let headers := [("Accept", "application/vnd.github.v3+json")] in
  let headers :=
    if negb (GITHUB_TOKEN valves =? "")
    then app headers [("Authorization", "Bearer " ++ GITHUB_TOKEN valves)]
    else headers in
  {| req_url := "https://api.github.com" ++ endpoint;
     req_headers := headers;
     req_params := match params with Some d => d | None => [] end;
     req_json := [];
     req_timeout := 15 |}.

(** [{"error": str(e)}] *)
Definition error_payload (e : string) : body :=
  {| items := Missing; total_count := Missing; error := Val e |}.

(** The result [None] stands for a decoded value that is no [dict]. *)
Definition _github_api (endpoint : string) (params : option dict) : option body :=
  match http_get (api_request endpoint params) with
  | JsonBody b => Some b
  | JsonNotObject => None
  | GetRaises e | JsonRaises e => Some (error_payload e)
  end.

(** [data.get]: only a [dict] has the method. *)
Definition as_dict (data : option body) : result body :=
  match data with
  | Some b => Ok b
  | None => Raise AttributeError
  end.

(** The class [[\w.-]]. *)
Definition repo_char (c : ascii) : bool :=
  is_word c || (code c =? 46)%nat || (code c =? 45)%nat.

(** [([\w.-]+/[\w.-]+)] matched at the start of [s]: the first run is
    greedy and [/] is not in the class, so the run must be followed by
    [/]; the second run is greedy too. *)
Definition repo_match_here (s : string) : option string :=
  let (owner, r1) := span repo_char s in
  match owner, r1 with
  | String _ _, String c r2 =>
      if (code c =? 47)%nat then
        match span repo_char r2 with
        | (String a b, _) => Some (owner ++ "/" ++ String a b)
        | _ => None
        end
      else None
  | _, _ => None
  end.

(** [re.search(r'([\w.-]+/[\w.-]+)', s)]: group 1 of the leftmost match. *)
Fixpoint repo_search (s : string) : option string :=
  match repo_match_here s with
  | Some t => Some t
  | None =>
      match s with
      | "" => None
      | String _ r => repo_search r
      end
  end.

(** The alternatives of the noise-word pattern, in their order. *)
Definition noise_words : list string :=
  ["show"; "display"; "list"; "get"; "find"; "search"; "give"; "me"; "the";
   "a"; "an"; "in"; "as"; "for"; "of";
   "with"; "top"; "most"; "popular"; "trending"; "recent"; "latest"; "new";
   "all"; "some";
   "table"; "chart"; "pie"; "bar"; "line"; "tabular"; "format"; "graph";
   "repositories"; "repository"; "repos"; "repo"; "projects"; "issues";
   "pull requests"; "prs"; "bugs";
   "by"; "language"; "stars"; "sorted"; "sort"; "order"].

Definition languages : list string :=
  ["python"; "javascript"; "typescript"; "java"; "go"; "rust";
   "c++"; "ruby"; "swift"; "kotlin"; "dart"; "php"; "scala"; "c"; "shell"].

(** The search type, from the lowercased message. *)
Definition search_type_of (msg : string) : string :=
  if any_in ["issue"; "bug"; "issues"] msg then "issues"
  else if any_in ["pull request"; "pr "; "prs"; "pull requests"] msg then "prs"
  else "repos".

(** The keywords: what is left of the lowercased message once the noise
    words are removed, split at blanks, longer than two characters. *)
Definition keywords_of (msg : string) : list string :=
  let clean := sub_words noise_words false 0 msg in
  map strip (filter (fun w => (2 <? len (strip w))%nat) (split clean)).

(** The query built from a non-empty list of keywords. *)
Definition keyword_query (msg : string) (keywords : list string) : string :=
  let lang_parts :=
    map (fun k => "language:" ++ k) (filter (fun k => mem k languages) keywords) in
  let topic_parts := filter (fun k => negb (mem k languages)) keywords in
  let parts := app topic_parts lang_parts in
  let parts :=
    if py_in "popular" msg || py_in "top" msg || py_in "trending" msg
    then app parts ["stars:>100"]
    else parts in
  match parts with
  | [] => "stars:>1000"
  | _ => join " " parts
  end.

(** Extract [(search_type, query, sort)] from the user message. *)
Definition _extract_search_params (user_msg : string) : string * string * string :=
  let msg := lower user_msg in
  let search_type := search_type_of msg in
  let repo_match := repo_search user_msg in
  let keywords := keywords_of msg in
  match repo_match, mem search_type ["issues"; "prs"], keywords with
  | Some group1, true, _ => (search_type, "repo:" ++ group1, "created")
  | _, _, _ :: _ => (search_type, keyword_query msg keywords, "stars")
  | _, _, [] => (search_type, "stars:>1000", "stars")
  end.

(** *** Simple formatters *)

Definition _fmt_number (n : pyv) : result string :=
  match n with
  | PNone => Ok "0"
  | _ =>
      n <- py_int n ;;
      if (1000000 <=? n)%Z then
        x <- true_div n 1000000 ;; Ok (fmt_1f x ++ "M")
      else if (1000 <=? n)%Z then
        x <- true_div n 1000 ;; Ok (fmt_1f x ++ "k")
      else Ok (str_of_Z n)
  end.

Definition _trunc (s : pyv) (length : nat) : string :=
  if negb (truthy s) then "-"
  else
    let s := py_str s in
    if (length <? len s)%nat then take length s ++ "..." else s.

(** [f"{i}"] for a loop index. *)
Definition str_of_nat (i : nat) : string := str_of_Z (Z.of_nat i).

Definition repos_row (ir : nat * item) : result string :=
  let (i, r) := ir in
  let name := get (full_name r) (get (name r) (PStr "?")) in
  let url := get (html_url r) (PStr "#") in
  stars <- _fmt_number (get (stargazers_count r) (PInt 0)) ;;
  let lang := py_or (get (language r) PNone) (PStr "-") in
  let desc := _trunc (get (description r) (PStr "-")) 60 in
  Ok ("| " ++ str_of_nat i ++ " | [" ++ py_str name ++ "](" ++ py_str url ++ ") | "
      ++ stars ++ " | " ++ py_str lang ++ " | " ++ desc ++ " |").

Definition repos_header : list string :=
  ["| # | Repository | Stars | Language | Description |";
   "|---|-----------|-------|----------|-------------|"].

Definition _repos_table (items : list item) : result string :=
  rows <- for_each repos_row (enumerate 1 (firstn 15 items)) ;;
  Ok (join nl (app repos_header rows)).

(** [lang_counts[lang] = lang_counts.get(lang, 0) + 1] on a dict kept in
    insertion order. *)
Fixpoint bump (lang : string) (lang_counts : list (string * Z)) : list (string * Z) :=
  match lang_counts with
  | [] => [(lang, 1%Z)]
  | (k, c) :: t =>
      if lang =? k then (k, (c + 1)%Z) :: t else (k, c) :: bump lang t
  end.

Definition stars_of (r : item) : pyv := get (stargazers_count r) (PInt 0).

Definition is_int (v : pyv) : bool :=
  match v with PInt _ => true | _ => false end.

Definition int_or_0 (v : pyv) : Z :=
  match v with PInt z => z | _ => 0%Z end.

(** [sorted(items, key=stars, reverse=True)]: stable; a key that is
    [None] cannot be compared, and two items or more are compared (so
    with two values or more the maximum below is one of [int]s). *)
Definition sorted_by_stars (items : list item) : result (list item) :=
  match items with
  | [] | [_] => Ok items
  | _ =>
      if forallb (fun r => is_int (stars_of r)) items
      then Ok (sorted_by (fun r => (- int_or_0 (stars_of r))%Z) items)
      else Raise TypeError
  end.

(** [int(max_val * 1.2)] *)
Definition y_axis_top (max_val : pyv) : result Z :=
  match max_val with
  | PInt z => x <- float_of_int z ;; int_of_float (fmul x float_1_2)
  | _ => Raise TypeError
  end.

Definition _repos_chart (items : list item) (chart_type : string) : result string :=
  if chart_type =? "pie" then
    let lang_counts :=
      fold_left
        (fun d r => bump (py_str (py_or (get (language r) PNone) (PStr "Other"))) d)
        items [] in
    let pie := ["```mermaid"; "pie showData";
                "    title " ++ dq ++ "Repositories by Language" ++ dq] in
    let rows :=
      map (fun lc => "    " ++ dq ++ fst lc ++ dq ++ " : " ++ str_of_Z (snd lc))
          (firstn 10 (sorted_by (fun lc => (- snd lc)%Z) lang_counts)) in
    Ok (join nl (app pie (app rows ["```"])))
  else
    sorted <- sorted_by_stars items ;;
    let bar_items := firstn 10 sorted in
    let names := map (fun r => _trunc (get (name r) (PStr "?")) 15) bar_items in
    let values := map stars_of bar_items in
    let max_val :=
      match values with
      | [] => PInt 100
      | [v] => v
      | v :: vs => PInt (fold_left Z.max (map int_or_0 vs) (int_or_0 v))
      end in
    let labels := join ", " (map (fun n => dq ++ n ++ dq) names) in
    let vals := join ", " (map py_str values) in
    top <- y_axis_top max_val ;;
    Ok ("```mermaid" ++ nl ++ "xychart-beta" ++ nl
        ++ "    title " ++ dq ++ "Top Repositories by Stars" ++ dq ++ nl
        ++ "    x-axis [" ++ labels ++ "]" ++ nl
        ++ "    y-axis " ++ dq ++ "Stars" ++ dq ++ " 0 --> " ++ str_of_Z top ++ nl
        ++ "    bar [" ++ vals ++ "]" ++ nl ++ "```").

(** [iss.get("user", {}).get("login", "?")] *)
Definition author_of (iss : item) : result pyv :=
  match get_obj (user iss) User.empty with
  | Some u => Ok (get (User.login u) (PStr "?"))
  | None => Raise AttributeError
  end.

Definition issues_row (ir : nat * item) : result string :=
  let (i, iss) := ir in
  let state := if eq_str (get (state iss) PNone) "open" then "Open" else "Closed" in
  let title := _trunc (get (title iss) (PStr "?")) 60 in
  let url := get (html_url iss) (PStr "#") in
  let num := get (number iss) (PStr "") in
  author <- author_of iss ;;
  let created := take 10 (py_str (get (created_at iss) (PStr ""))) in
  Ok ("| " ++ str_of_nat i ++ " | " ++ state ++ " | [#" ++ py_str num ++ " " ++ title
      ++ "](" ++ py_str url ++ ") | @" ++ py_str author ++ " | " ++ created ++ " |").

Definition issues_header : list string :=
  ["| # | State | Issue | Author | Created |";
   "|---|-------|-------|--------|---------|"].

Definition _issues_table (items : list item) : result string :=
  rows <- for_each issues_row (enumerate 1 (firstn 15 items)) ;;
  Ok (join nl (app issues_header rows)).

(** [pr.get("pull_request", {}).get("merged_at") or pr.get("merged_at")] *)
Definition merged_of (pr : item) : result pyv :=
  match get_obj (pull_request pr) PullRequest.empty with
  | Some p => Ok (py_or (get (PullRequest.merged_at p) PNone) (get (merged_at pr) PNone))
  | None => Raise AttributeError
  end.

Definition prs_row (ir : nat * item) : result string :=
  let (i, pr) := ir in
  merged <- merged_of pr ;;
  let state :=
    if truthy merged then "Merged"
    else if eq_str (get (state pr) PNone) "open" then "Open"
    else "Closed" in
  let title := _trunc (get (title pr) (PStr "?")) 60 in
  let url := get (html_url pr) (PStr "#") in
  let num := get (number pr) (PStr "") in
  author <- author_of pr ;;
  let created := take 10 (py_str (get (created_at pr) (PStr ""))) in
  Ok ("| " ++ str_of_nat i ++ " | " ++ state ++ " | [#" ++ py_str num ++ " " ++ title
      ++ "](" ++ py_str url ++ ") | @" ++ py_str author ++ " | " ++ created ++ " |").

Definition prs_header : list string :=
  ["| # | State | Pull Request | Author | Created |";
   "|---|-------|-------------|--------|---------|"].

Definition _prs_table (items : list item) : result string :=
  rows <- for_each prs_row (enumerate 1 (firstn 15 items)) ;;
  Ok (join nl (app prs_header rows)).

(** *** Direct search and format *)

(** [sum(1 for i in items if cond(i))] *)
Definition count_if (cond : item -> bool) (items : list item) : Z :=
  Z.of_nat (List.length (filter cond items)).

Definition is_open (i : item) : bool := eq_str (get (state i) PNone) "open".

Definition search_params (q sort : string) : option dict :=
  Some [("q", PStr q); ("sort", PStr sort); ("per_page", PInt 15)].

(** Bypass the model: search the GitHub API directly and return the
    formatted table or chart; [None] hands the message to the model. *)
Definition _direct_format (user_msg : string) : result (option string) :=
  let fmt := _detect_format user_msg in
  let chart_type := _detect_chart_type user_msg in
  let '(search_type, query, sort) := _extract_search_params user_msg in
  if search_type =? "repos" then
    data <- as_dict (_github_api "/search/repositories" (search_params query sort)) ;;
    match get_obj (items data) [] with
    | None | Some [] => Ok None
    | Some items =>
        let total := get (total_count data) (PInt (Z.of_nat (List.length items))) in
        n <- _fmt_number total ;;
        let header := "Found **" ++ n ++ "** repositories for `" ++ query ++ "`" ++ nl ++ nl in
        if fmt =? "table" then
          t <- _repos_table items ;; Ok (Some (header ++ t))
        else
          c <- _repos_chart items chart_type ;; Ok (Some (header ++ c))
    end
  else if search_type =? "issues" then
    data <- as_dict (_github_api "/search/issues"
                                 (search_params (query ++ " is:issue") sort)) ;;
    match get_obj (items data) [] with
    | None | Some [] => Ok None
    | Some items =>
        let total := get (total_count data) (PInt (Z.of_nat (List.length items))) in
        n <- _fmt_number total ;;
        let header := "Found **" ++ n ++ "** issues for `" ++ query ++ "`" ++ nl ++ nl in
        if fmt =? "table" then
          t <- _issues_table items ;; Ok (Some (header ++ t))
        else
          let open_count := count_if is_open items in
          let closed_count := (Z.of_nat (List.length items) - open_count)%Z in
          Ok (Some (header ++ "```mermaid" ++ nl ++ "pie showData" ++ nl
                    ++ "    title " ++ dq ++ "Issues by State" ++ dq ++ nl
                    ++ "    " ++ dq ++ "Open" ++ dq ++ " : " ++ str_of_Z open_count ++ nl
                    ++ "    " ++ dq ++ "Closed" ++ dq ++ " : " ++ str_of_Z closed_count ++ nl
                    ++ "```"))
    end
  else if search_type =? "prs" then
    data <- as_dict (_github_api "/search/issues"
                                 (search_params (query ++ " is:pr") sort)) ;;
    match get_obj (items data) [] with
    | None | Some [] => Ok None
    | Some items =>
        let total := get (total_count data) (PInt (Z.of_nat (List.length items))) in
        n <- _fmt_number total ;;
        let header := "Found **" ++ n ++ "** pull requests for `" ++ query ++ "`" ++ nl ++ nl in
        if fmt =? "table" then
          t <- _prs_table items ;; Ok (Some (header ++ t))
        else
          let open_c := count_if is_open items in
          merged <- for_each merged_of items ;;
          let merged_c := Z.of_nat (List.length (filter truthy merged)) in
          let closed_c := (Z.of_nat (List.length items) - open_c - merged_c)%Z in
          Ok (Some (header ++ "```mermaid" ++ nl ++ "pie showData" ++ nl
                    ++ "    title " ++ dq ++ "Pull Requests by State" ++ dq ++ nl
                    ++ "    " ++ dq ++ "Open" ++ dq ++ " : " ++ str_of_Z open_c ++ nl
                    ++ "    " ++ dq ++ "Merged" ++ dq ++ " : " ++ str_of_Z merged_c ++ nl
                    ++ "    " ++ dq ++ "Closed" ++ dq ++ " : " ++ str_of_Z closed_c ++ nl
                    ++ "```"))
    end
  else Ok None.

(** *** MCP tool helpers *)

(** The request [_execute_tool] sends. *)
Definition tool_request (tool_name : string) (arguments : dict) : request :=
  let url := MCPO_BASE_URL valves ++ "/" ++ tool_name in
  {| req_url := url;
     req_headers := [("Content-Type", "application/json")];
     req_params := [];
     req_json := arguments;
     req_timeout := 30 |}.

Definition _execute_tool (tool_name : string) (arguments : dict) : string :=
  match http_post (tool_request tool_name arguments) with
  | PostText text =>
      let result := text in
      if (6000 <? len result)%nat
      then take 6000 result ++ nl ++ "... (truncated)"
      else result
  | PostRaises e => "{" ++ json_string "error" ++ ": " ++ json_string e ++ "}"
  end.

(** *** Response cleaning *)

Definition chart_starters : list string :=
  ["pie"; "pie showData"; "xychart-beta"; "graph"; "flowchart"; "gantt"].

(** One turn of the loop over the lines: [line] is [lines[i]] and [rest]
    the lines after it; the result is what the turn appends to [result]
    and the two flags after it. *)
Definition fence_step (in_mermaid in_code : bool) (line : string) (rest : list string)
  : list string * (bool * bool) :=
  let stripped := strip line in
  let in_code := if startswith stripped "```" then negb in_code else in_code in
  let opens := negb in_code && negb in_mermaid && mem stripped chart_starters in
  let in_mermaid := if opens then true else in_mermaid in
  let in_code := if opens then true else in_code in
  let closes :=
    in_mermaid &&
    match rest with
    | next :: after =>
        (strip next =? "") &&
        match after with
        | [] => true
        | after1 :: _ => negb (startswith after1 "    ")
        end
    | [] => false
    end in
  (app (if opens then ["```mermaid"] else []) (line :: (if closes then ["```"] else [])),
   (if closes then false else in_mermaid, if closes then false else in_code)).

(** The loop, and the closing fence a block still open at the end gets. *)
Fixpoint fence_loop (in_mermaid in_code : bool) (lines : list string) : list string :=
  match lines with
  | [] => if in_mermaid then ["```"] else []
  | line :: rest =>
      let '(out, (in_mermaid, in_code)) := fence_step in_mermaid in_code line rest in
      app out (fence_loop in_mermaid in_code rest)
  end.

(** The leaked special tokens are stripped first. *)
Definition strip_tokens (content : string) : string :=
  let content := cut_at "<|im_start|>" content in
  let content := remove_all "<|im_end|>" 0 content in
  remove_all "<|endoftext|>" 0 content.

Definition _clean_response (content : string) : string :=
  let content := strip_tokens content in
  let lines := split_char LF content in
  let result := fence_loop false false lines in
  strip (join nl result).

(** *** MCP tool helpers: the tools of the proxy *)

(** The other valves, and the network [_fetch_tools] reaches. *)
Variable agent_valves : AgentValves.
Variable http_get_json : request -> fetch_outcome.

Definition openapi_request : request :=
  {| req_url := MCPO_BASE_URL valves ++ "/openapi.json";
     req_headers := [];
     req_params := [];
     req_json := [];
     req_timeout := 10 |}.

(** One turn of the loop over the properties of a schema: the entry
    [cp] of the property [pn]. *)
Definition clean_prop (pn : string) (pd : json) : result jdict :=
  ty <- jget pd "type" (JStr "string") ;;
  desc <- jget pd "description" (JStr pn) ;;
  let cp := [("type", ty); ("description", desc)] in
  Ok match pd with
     | JDict d =>
         match lookup "items" d with
         | Some it => app cp [("items", it)]
         | None => cp
         end
     | _ => cp
     end.

Fixpoint clean_loop (props : jdict) (clean_props : jdict) : result jdict :=
  match props with
  | [] => Ok clean_props
  | (pn, pd) :: rest =>
      cp <- clean_prop pn pd ;;
      clean_loop rest (dict_set pn (JDict cp) clean_props)
  end.

(** [schemas.get(schema_ref["$ref"].split("/")[-1], {}) if "$ref" in
    schema_ref else schema_ref]: the test comes first, and [in] looks for
    a key in a [dict], for a substring in a [str], for an element in a
    [list]; then the method [schemas.get] is looked up, then
    [schema_ref] is indexed. *)
Definition resolve (schemas schema_ref : json) : result json :=
  match schema_ref with
  | JDict d =>
      match lookup "$ref" d with
      | Some ref =>
          match schemas, ref with
          | JDict s, JStr r =>
              Ok match lookup (last_segment r) s with
                 | Some x => x
                 | None => JDict []
                 end
          | _, _ => Raise AttributeError
          end
      | None => Ok schema_ref
      end
  | JStr s =>
      if py_in "$ref" s
      then match schemas with JDict _ => Raise TypeError | _ => Raise AttributeError end
      else Ok schema_ref
  | JList l =>
      if existsb (fun x => json_eq_str x "$ref") l
      then match schemas with JDict _ => Raise TypeError | _ => Raise AttributeError end
      else Ok schema_ref
  | _ => Raise TypeError
  end.

Definition parameters_of (resolved : json) : result jdict :=
  if jtruthy resolved then
    properties <- jget resolved "properties" (JDict []) ;;
    props <- jitems properties ;;
    clean_props <- clean_loop props [] ;;
    required <- jget resolved "required" (JList []) ;;
    Ok [("type", JStr "object"); ("properties", JDict clean_props);
        ("required", required)]
  else
    Ok [("type", JStr "object"); ("properties", JDict []); ("required", JList [])].

(** One turn of the inner loop: the tool of an operation, or [None] when
    the turn ends in [continue]. *)
Definition tool_of (schemas : json) (path method : string) (details : json)
  : result (option jdict) :=
  if negb (lower method =? "post") then Ok None
  else
    let tool_name := strip_char "/"%char path in
    if negb (USE_ALL_TOOLS agent_valves) && negb (mem tool_name PRIORITY_TOOLS)
    then Ok None
    else
      summary <- jget details "summary" (JStr tool_name) ;;
      description <- jget details "description" summary ;;
      request_body <- jget details "requestBody" (JDict []) ;;
      content <- jget request_body "content" (JDict []) ;;
      media <- jget content "application/json" (JDict []) ;;
      schema_ref <- jget media "schema" (JDict []) ;;
      resolved <- resolve schemas schema_ref ;;
      parameters <- parameters_of resolved ;;
      Ok (Some [("type", JStr "function");
                ("function",
                 JDict [("name", JStr tool_name); ("description", description);
                        ("parameters", JDict parameters)])]).

Definition somes {A : Type} (l : list (option A)) : list A :=
  flat_map (fun o => match o with Some a => [a] | None => [] end) l.

(** One turn of the outer loop: the tools of a path. *)
Definition tools_of_path (schemas : json) (pm : string * json) : result (list jdict) :=
  let (path, methods) := pm in
  operations <- jitems methods ;;
  found <- for_each (fun md => tool_of schemas path (fst md) (snd md)) operations ;;
  Ok (somes found).

Definition build_tools (spec : json) : result (list jdict) :=
  components <- jget spec "components" (JDict []) ;;
  schemas <- jget components "schemas" (JDict []) ;;
  paths <- jget spec "paths" (JDict []) ;;
  entries <- jitems paths ;;
  found <- for_each (tools_of_path schemas) entries ;;
  Ok (concat found).

(** The method reads and writes [self._tools_cache]: it takes the cache
    and returns, with its result, the cache it leaves.  The two [print]
    calls are left out. *)
Definition _fetch_tools (_tools_cache : option (list jdict))
  : result (list jdict) * option (list jdict) :=
  match _tools_cache with
  | Some tools => (Ok tools, _tools_cache)
  | None =>
      match http_get_json openapi_request with
      | FetchRaises _ => (Ok [], None)
      | FetchJson spec =>
          match build_tools spec with
          | Ok tools => (Ok tools, Some tools)
          | Raise e => (Raise e, None)
          end
      end
  end.

(** *** The chat endpoint *)

(** The chat endpoint and the tool proxy as [pipe] reaches them: their
    answers may depend on all that happened before.  [execute_tool]
    stands for [self._execute_tool], which never raises, on arguments of
    any JSON shape.  [json_loads] is [json.loads] ([None] for a
    [JSONDecodeError]), [str_of_json] is [str] on a value that is no
    [str], and [error_text] is the [str] of the exception a value
    raises. *)
Variable chat_post : list action -> chat_request -> chat_outcome.
Variable execute_tool : list action -> string -> json -> string.
Variable json_loads : string -> option json.
Variable str_of_json : json -> string.
Variable error_text : exn -> json -> string.

(** [str(v)], and what an f-string field [{v}] prints. *)
Definition jstr (v : json) : string :=
  match v with
  | JStr s => s
  | _ => str_of_json v
  end.

(** A comprehension or loop whose body may raise a [KeyError]. *)
Fixpoint all_some {A B : Type} (f : A -> option B) (l : list A) : option (list B) :=
  match l with
  | [] => Some []
  | x :: t =>
      match f x with
      | None => None
      | Some y =>
          match all_some f t with
          | None => None
          | Some ys => Some (y :: ys)
          end
      end
  end.

(** One turn of the loop over the messages; [None] when [msg["role"]]
    raises a [KeyError]. *)
Definition ollama_message (msg : jdict) : option jdict :=
  match lookup "role" msg with
  | None => None
  | Some role =>
      let m := [("role", role);
                ("content", match lookup "content" msg with
                            | Some c => c
                            | None => JStr ""
                            end)] in
      let m := match lookup "tool_calls" msg with
               | Some tool_calls => dict_set "tool_calls" tool_calls m
               | None => m
               end in
      let m := match lookup "tool_call_id" msg with
               | Some id => dict_set "tool_call_id" id m
               | None => m
               end in
      Some m
  end.

Definition ollama_tool (t : jdict) : option jdict :=
  match lookup "function" t with
  | None => None
  | Some f => Some [("type", JStr "function"); ("function", f)]
  end.

Definition chat_payload (ollama_messages ollama_tools : list jdict) : json :=
  let payload :=
    [("model", JStr (MODEL_ID agent_valves));
     ("messages", JList (map JDict ollama_messages));
     ("stream", JBool false);
     ("options", JDict [("num_ctx", JInt (NUM_CTX agent_valves))])] in
  JDict match ollama_tools with
        | [] => payload
        | _ :: _ => dict_set "tools" (JList (map JDict ollama_tools)) payload
        end.

(** The messages and the tools are lists of [dict]s, as [pipe] passes
    them; the [str] of a [KeyError] is its key in quotes. *)
Definition _call_ollama (messages tools : list jdict) : run chat_outcome :=
  match all_some ollama_message messages with
  | None => ret (ChatRaises "'role'")
  | Some ollama_messages =>
      match all_some ollama_tool tools with
      | None => ret (ChatRaises "'function'")
      | Some ollama_tools =>
          let r := {| chat_url := OLLAMA_BASE_URL agent_valves ++ "/api/chat";
                      chat_json := chat_payload ollama_messages ollama_tools;
                      chat_timeout := 300 |} in
          log <~ history ;;
          _ <~ act (Chat r) ;;
          ret (chat_post log r)
      end
  end.

(** *** Main pipe *)

(** The latest user message: the loop over [reversed(messages)]. *)
Fixpoint latest_user (reversed : list json) : result string :=
  match reversed with
  | [] => Ok ""
  | msg :: rest =>
      role <- jget msg "role" JNull ;;
      if json_eq_str role "user" then
        c <- jget msg "content" (JStr "") ;;
        Ok (jstr c)
      else latest_user rest
  end.

(** [p.get("text", "") if isinstance(p, dict) else str(p)] *)
Definition part_text (p : json) : json :=
  match p with
  | JDict d => match lookup "text" d with Some t => t | None => JStr "" end
  | _ => JStr (jstr p)
  end.

(** ["\n".join(parts)]: every part has to be a [str]. *)
Fixpoint join_parts (parts : list json) : result (list string) :=
  match parts with
  | [] => Ok []
  | JStr s :: rest => ss <- join_parts rest ;; Ok (s :: ss)
  | _ :: _ => Raise TypeError
  end.

(** One turn of the loop that builds the transcript. *)
Definition transcript_message (msg : json) : result jdict :=
  role <- jget msg "role" (JStr "user") ;;
  content <- jget msg "content" (JStr "") ;;
  content <- match content with
             | JList parts =>
                 ss <- join_parts (map part_text parts) ;; Ok (JStr (join nl ss))
             | _ => Ok content
             end ;;
  Ok [("role", role); ("content", content)].

(** [for tc in tool_calls], for a value that is truthy: a [dict] yields
    its keys and a [str] its characters. *)
Definition iterate (v : json) : result (list json) :=
  match v with
  | JList l => Ok l
  | JDict d => Ok (map (fun kv => JStr (fst kv)) d)
  | JStr s => Ok (map (fun c => JStr (String c "")) (list_ascii_of_string s))
  | _ => Raise TypeError
  end.

(** One turn of the loop over the tool calls. *)
Definition call_tool (emitter : bool) (messages : list jdict) (tc : json)
  : run (list jdict) :=
  func <~ lift (jget tc "function" (JDict [])) ;;
  tool_name <~ lift (jget func "name" (JStr "")) ;;
  arguments <~ lift (jget func "arguments" (JDict [])) ;;
  let arguments :=
    match arguments with
    | JStr s => match json_loads s with Some v => v | None => JDict [] end
    | _ => arguments
    end in
  _ <~ emit emitter ("Calling " ++ jstr tool_name ++ "...") false ;;
  log <~ history ;;
  _ <~ act (Tool (jstr tool_name) arguments) ;;
  let result := execute_tool log (jstr tool_name) arguments in
  ret (app messages [[("role", JStr "tool"); ("content", JStr result)]]).

Fixpoint call_tools (emitter : bool) (messages : list jdict) (calls : list json)
  : run (list jdict) :=
  match calls with
  | [] => ret messages
  | tc :: rest =>
      messages <~ call_tool emitter messages tc ;;
      call_tools emitter messages rest
  end.

(** [self._clean_response(content)]: [re.sub] takes a [str] only. *)
Definition clean (content : json) : result string :=
  match content with
  | JStr s => Ok (_clean_response s)
  | _ => Raise TypeError
  end.

(** What a round does with the response of the model: it returns the
    answer, or runs the tool calls and goes on with the transcript. *)
Definition respond (emitter : bool) (messages : list jdict) (response : json)
  : run flow :=
  message <~ lift (jget response "message" (JDict [])) ;;
  tool_calls <~ lift (jget message "tool_calls" JNull) ;;
  if negb (jtruthy tool_calls) then
    _ <~ emit emitter "" true ;;
    content <~ lift (jget message "content" (JStr "")) ;;
    model_text <~ lift (clean content) ;;
    ret (Return (if model_text =? "" then "No response generated." else model_text))
  else
    entries <~ lift (jitems message) ;;
    let messages := app messages [entries] in
    calls <~ lift (iterate tool_calls) ;;
    messages <~ call_tools emitter messages calls ;;
    ret (Continue messages).

(** One turn of the loop over the rounds. *)
Definition one_round (emitter : bool) (tools : list jdict) (round_num : nat)
    (messages : list jdict) : run flow :=
  _ <~ emit emitter ("Thinking... (round " ++ str_of_nat (round_num + 1) ++ ")") false ;;
  called <~ _call_ollama messages tools ;;
  match called with
  | ChatRaises e => ret (Return ("Error calling Ollama: " ++ e))
  | ChatJson response => respond emitter messages response
  end.

(** The loop over the rounds, [rounds] of them left, from [round_num]. *)
Fixpoint tool_rounds (emitter : bool) (tools : list jdict) (rounds round_num : nat)
    (messages : list jdict) : run flow :=
  match rounds with
  | O => ret (Continue messages)
  | S rounds =>
      turn <~ one_round emitter tools round_num messages ;;
      match turn with
      | Return text => ret (Return text)
      | Continue messages => tool_rounds emitter tools rounds (S round_num) messages
      end
  end.

(** The final answer without tools, once the rounds are used up. *)
Definition final_answer (emitter : bool) (messages : list jdict) : run string :=
  _ <~ emit emitter "Generating response..." false ;;
  called <~ _call_ollama messages [] ;;
  match called with
  | ChatRaises e => ret ("Error: " ++ e)
  | ChatJson response =>
      _ <~ emit emitter "" true ;;
      ret match (message <- jget response "message" (JDict []) ;;
                 content <- jget message "content" (JStr "") ;;
                 clean content) with
          | Ok text => text
          | Raise e => "Error: " ++ error_text e response
          end
  end.

(** The model path: the tool-calling loop. *)
Definition model_path (emitter : bool) (tools : list jdict) (body_messages : list json)
  : run string :=
  converted <~ lift (for_each transcript_message body_messages) ;;
  let messages :=
    [("role", JStr "system"); ("content", JStr (SYSTEM_PROMPT agent_valves))]
    :: converted in
  looped <~ tool_rounds emitter tools (Z.to_nat (MAX_TOOL_ROUNDS agent_valves)) 0 messages ;;
  match looped with
  | Return text => ret text
  | Continue messages => final_answer emitter messages
  end.

(** The fast path; [None] falls through to the model path. *)
Definition fast_path (emitter : bool) (user_msg : string) : run (option string) :=
  if mem (_detect_format user_msg) ["table"; "chart"] then
    _ <~ emit emitter "Searching GitHub..." false ;;
    result <~ lift (_direct_format user_msg) ;;
    _ <~ emit emitter "" true ;;
    ret match result with
        | Some text => if text =? "" then None else Some text
        | None => None
        end
  else ret None.

(** [pipe(body, __event_emitter__)], for a body whose [messages] are a
    list: the result, the log of what was done, and the cache of the
    tools it leaves. *)
Definition pipe (body_messages : list json) (emitter : bool)
    (_tools_cache : option (list jdict))
  : result string * list action * option (list jdict) :=
  match latest_user (rev body_messages) with
  | Raise e => (Raise e, [], _tools_cache)
  | Ok user_msg =>
      match fast_path emitter user_msg [] with
      | (Raise e, log) => (Raise e, log, _tools_cache)
      | (Ok (Some text), log) => (Ok text, log, _tools_cache)
      | (Ok None, log) =>
          match _fetch_tools _tools_cache with
          | (Raise e, cache) => (Raise e, log, cache)
          | (Ok tools, cache) =>
              (model_path emitter tools body_messages log, cache)
          end
      end
  end.

End Methods.

End Pipe.

(* ================================================================== *)
(** * Part II.  The vocabulary of the properties *)
(* ================================================================== *)

(** [w] occurs in [s]: some text, [w], some text. *)
Definition occurs (w s : string) : Prop := exists a b, s = a ++ w ++ b.

(** Every character of [s] satisfies [p]. *)
Fixpoint str_forall (p : ascii -> bool) (s : string) : bool :=
  match s with
  | "" => true
  | String c r => p c && str_forall p r
  end.

(** What the pattern [[\w.-]+/[\w.-]+] describes: an owner and a name,
    both non-empty runs of the class, with a slash between them. *)
Definition repo_token (t : string) : Prop :=
  exists owner name,
    t = owner ++ "/" ++ name /\ owner <> "" /\ name <> ""
    /\ str_forall Pipe.repo_char owner = true
    /\ str_forall Pipe.repo_char name = true.

(** The three components of what [_extract_search_params] returns. *)
Definition search_type_part (r : string * string * string) : string := fst (fst r).
Definition query_part (r : string * string * string) : string := snd (fst r).
Definition sort_part (r : string * string * string) : string := snd r.

(** The message holds an owner/name token. *)
Definition has_repo_token (s : string) : Prop :=
  exists t, repo_token t /\ occurs t s.

(** The lowercased message holds popularity language. *)
Definition has_popularity (msg : string) : Prop :=
  occurs "popular" msg \/ occurs "top" msg \/ occurs "trending" msg.

(** The lowercased message holds a keyword of the issues domain. *)
Definition has_issue_keyword (msg : string) : Prop :=
  occurs "issue" msg \/ occurs "bug" msg \/ occurs "issues" msg.

(** A non-empty run of decimal digits. *)
Definition all_digits (s : string) : Prop :=
  s <> "" /\ str_forall is_digit s = true.

(** A markdown table: the two header lines, then the data rows. *)
Definition table (header rows : list string) : string :=
  join nl (app header rows).

(** The data rows of a table: row [k] is the rendering, under the rank
    [k], of the [k]-th of the first 15 records. *)
Definition rendered (row : nat * item -> result string) (items : list item)
    (rows : list string) : Prop :=
  Forall2 (fun ir y => row ir = Ok y) (enumerate 1 (firstn 15 items)) rows.

(** What a record needs for its row to be rendered: a star count within
    the range of a float, and objects, not [null], under the keys [user]
    and [pull_request]. *)
Definition stars_in_range (r : item) : Prop :=
  match stargazers_count r with
  | Val z => (z < 2 ^ 1023)%Z
  | _ => True
  end.

Definition user_not_null (r : item) : Prop := user r <> Null.

Definition pull_request_not_null (r : item) : Prop := pull_request r <> Null.

(** The search call did not deliver items: it raised, or the body is an
    object that has no [items] key, or whose key holds [null] or the
    empty list. *)
Definition no_items (o : get_outcome) : Prop :=
  match o with
  | GetRaises _ | JsonRaises _ => True
  | JsonBody b => items b = Missing \/ items b = Null \/ items b = Val []
  | JsonNotObject => False
  end.

(** The endpoint and the parameters of the search call for a message. *)
Definition search_call (user_msg : string) : string * option dict :=
  let '(search_type, query, sort) := Pipe._extract_search_params user_msg in
  if search_type =? "repos" then
    ("/search/repositories", Pipe.search_params query sort)
  else if search_type =? "issues" then
    ("/search/issues", Pipe.search_params (query ++ " is:issue") sort)
  else
    ("/search/issues", Pipe.search_params (query ++ " is:pr") sort).

(** Sample records, as the search endpoints deliver them. *)
Definition sample_repo : item :=
  {| full_name := Val "rust-lang/rust"; name := Val "rust";
     html_url := Val "https://github.com/rust-lang/rust";
     stargazers_count := Val 98765%Z; language := Val "Rust";
     description := Val "Empowering everyone to build reliable and efficient software.";
     state := Missing; title := Missing; number := Missing; user := Missing;
     created_at := Missing; pull_request := Missing; merged_at := Missing |}.

Definition sample_issue : item :=
  {| full_name := Missing; name := Missing;
     html_url := Val "https://github.com/facebook/react/issues/7";
     stargazers_count := Missing; language := Missing; description := Missing;
     state := Val "open"; title := Val "Hooks run twice"; number := Val 7%Z;
     user := Val {| User.login := Val "gaearon" |};
     created_at := Val "2024-05-01T10:00:00Z";
     pull_request := Missing; merged_at := Missing |}.

Definition sample_pr : item :=
  {| full_name := Missing; name := Missing;
     html_url := Val "https://github.com/facebook/react/pull/8";
     stargazers_count := Missing; language := Missing; description := Null;
     state := Val "closed"; title := Val "Fix hooks"; number := Val 8%Z;
     user := Val {| User.login := Val "gaearon" |};
     created_at := Val "2024-05-02T10:00:00Z";
     pull_request := Val {| PullRequest.merged_at := Val "2024-05-03T09:00:00Z" |};
     merged_at := Missing |}.

(** A line of a chart block: indented by four spaces, and not blank. *)
Definition indented_line (l : string) : Prop :=
  startswith l "    " = true /\ strip l <> "".

(** The text ends after the blank line, or goes on with a line that is not
    indented by four spaces. *)
Definition next_not_indented (after : list string) : bool :=
  match after with
  | [] => true
  | after1 :: _ => negb (startswith after1 "    ")
  end.

(** Lines of a text, each followed, or each preceded, by a line feed. *)
Fixpoint lines_before (l : list string) : string :=
  match l with
  | [] => ""
  | x :: t => x ++ nl ++ lines_before t
  end.

Fixpoint lines_after (l : list string) : string :=
  match l with
  | [] => ""
  | x :: t => nl ++ x ++ lines_after t
  end.

(** The last character of [s] is a line feed. *)
Fixpoint ends_with_nl (s : string) : bool :=
  match s with
  | "" => false
  | String c "" => Ascii.eqb c LF
  | String _ r => ends_with_nl r
  end.

(** The last character of [s] is not a blank. *)
Fixpoint ends_nonspace (s : string) : bool :=
  match s with
  | "" => false
  | String c "" => negb (is_space c)
  | String _ r => ends_nonspace r
  end.

(** A model answer with an unfenced chart. *)
Definition sample_answer : string :=
  "Here is the chart:" ++ nl ++ "pie showData" ++ nl ++ "    title Languages" ++ nl
  ++ "    " ++ dq ++ "Rust" ++ dq ++ " : 3" ++ nl ++ nl ++ "Done.<|im_end|>".

(** A network whose search endpoints answer two issues, one open. *)
Definition two_issues (_ : request) : get_outcome :=
  JsonBody {| items := Val [sample_issue; sample_pr]; total_count := Val 1234%Z;
              error := Missing |}.

(** [t] tenths stand for [n / q] to one decimal: they are off by at most
    half a tenth, plus the rounding error of the float quotient (one
    part in [2^53]). *)
Definition near_tenths (n q t : Z) : Prop :=
  (2 ^ 53 * Z.abs (q * t - 10 * n) <= 2 ^ 52 * q + 10 * n)%Z.

(** [out] prints [t] tenths with one decimal and a suffix: digits, a
    point, one digit, the suffix. *)
Definition one_decimal (t : Z) (suffix out : string) : Prop :=
  (0 <= t)%Z
  /\ out = str_of_Z (t / 10) ++ "." ++ str_of_Z (t mod 10) ++ suffix
  /\ exists ds d, out = ds ++ "." ++ String d suffix
                  /\ all_digits ds /\ is_digit d = true.

(** The topic terms followed by the language qualifiers. *)
Definition keyword_parts (keywords : list string) : list string :=
  app (filter (fun k => negb (mem k Pipe.languages)) keywords)
      (map (fun k => "language:" ++ k) (filter (fun k => mem k Pipe.languages) keywords)).

(** Whether a turn closes an open block: the next line is blank and the
    text ends after it or goes on with a line that is not indented. *)
Definition closes_before (rest : list string) : bool :=
  match rest with
  | next :: after => (strip next =? "") && next_not_indented after
  | [] => false
  end.

(** The flags when the loop reaches [lines[n]]. *)
Fixpoint flags_at (in_mermaid in_code : bool) (lines : list string) (n : nat) {struct n}
  : bool * bool :=
  match n, lines with
  | S k, line :: rest =>
      let '(_, (in_mermaid, in_code)) := Pipe.fence_step in_mermaid in_code line rest in
      flags_at in_mermaid in_code rest k
  | _, _ => (in_mermaid, in_code)
  end.

(** How the scan of the cleaner turns lines into lines: every line is
    copied, in order; an opening fence is put right before a line whose
    stripped content is a chart starter, outside a block only; a closing
    fence is put after a line of an open block that a blank line follows,
    or at the end of the text when the block is still open. *)
Inductive fenced : bool -> list string -> list string -> Prop :=
| fenced_end : fenced false [] []
| fenced_end_open : fenced true [] ["```"]
| fenced_copy (inside : bool) (line : string) (rest out : list string) :
    fenced inside rest out -> fenced inside (line :: rest) (line :: out)
| fenced_open (line : string) (rest out : list string) :
    mem (strip line) Pipe.chart_starters = true ->
    fenced true (line :: rest) out ->
    fenced false (line :: rest) ("```mermaid" :: out)
| fenced_close (line next : string) (rest out : list string) :
    strip next = "" ->
    fenced false (next :: rest) out ->
    fenced true (line :: next :: rest) (line :: "```" :: out).

(** No line is a chart starter. *)
Definition no_starter (lines : list string) : Prop :=
  Forall (fun l => mem (strip l) Pipe.chart_starters = false) lines.

(** The label of a repository in the pie chart, the labels counted in the
    order they are first met, and the rows the chart shows. *)
Definition lang_of (r : item) : string :=
  py_str (py_or (get (language r) PNone) (PStr "Other")).

Definition lang_counts (items : list item) : list (string * Z) :=
  fold_left (fun d r => Pipe.bump (lang_of r) d) items [].

Definition pie_rows (items : list item) : list (string * Z) :=
  firstn 10 (sorted_by (fun lc => (- snd lc)%Z) (lang_counts items)).

Definition pie_row (lc : string * Z) : string :=
  "    " ++ dq ++ fst lc ++ dq ++ " : " ++ str_of_Z (snd lc).

(** The number of items with a label. *)
Definition count_lang (lang : string) (items : list item) : Z :=
  Z.of_nat (List.length (filter (fun r => lang_of r =? lang) items)).

(** [d.get(k, 0)] on a dict of counts. *)
Fixpoint count_at (k : string) (d : list (string * Z)) : Z :=
  match d with
  | [] => 0%Z
  | (k', c) :: t => if k =? k' then c else count_at k t
  end.

Definition total (d : list (string * Z)) : Z :=
  fold_right Z.add 0%Z (map snd d).

(** The star count of a repository, and what the bar chart needs of a
    record: a count that is not [null], not negative, and exact as a
    float. *)
Definition star_count (r : item) : Z := Pipe.int_or_0 (Pipe.stars_of r).

Definition stars_counted (r : item) : Prop :=
  stargazers_count r <> Null /\ (0 <= star_count r < 2 ^ 53)%Z.

(** The bars of the chart, and its text for given bars and axis top. *)
Definition bar_items (items : list item) : list item :=
  firstn 10 (sorted_by (fun r => (- star_count r)%Z) items).

Definition bar_chart (bars : list item) (top : Z) : string :=
  "```mermaid" ++ nl ++ "xychart-beta" ++ nl
  ++ "    title " ++ dq ++ "Top Repositories by Stars" ++ dq ++ nl
  ++ "    x-axis ["
  ++ join ", " (map (fun r => dq ++ Pipe._trunc (get (name r) (PStr "?")) 15 ++ dq) bars)
  ++ "]" ++ nl
  ++ "    y-axis " ++ dq ++ "Stars" ++ dq ++ " 0 --> " ++ str_of_Z top ++ nl
  ++ "    bar [" ++ join ", " (map (fun r => str_of_Z (star_count r)) bars) ++ "]"
  ++ nl ++ "```".

(** A repository whose star count is [null]. *)
Definition sample_unstarred : item :=
  {| full_name := Val "octocat/hello"; name := Val "hello";
     html_url := Val "https://github.com/octocat/hello";
     stargazers_count := Null; language := Null; description := Null;
     state := Missing; title := Missing; number := Missing; user := Missing;
     created_at := Missing; pull_request := Missing; merged_at := Missing |}.

(** The characters from the space to the tilde. *)
Definition printable_char (c : ascii) : bool := in_range 32 126 c.

(** Reading a JSON string back: the inverse of the escapes, as a JSON
    parser undoes them; [None] on a text that is no string body. *)
Definition hex_val (c : ascii) : option nat :=
  if is_digit c then Some (code c - 48)
  else if in_range 97 102 c then Some (code c - 87)
  else None.

Definition unescape_letter (c : ascii) : option ascii :=
  let n := code c in
  if (n =? 34)%nat then Some c
  else if (n =? 92)%nat then Some c
  else if (n =? 47)%nat then Some c
  else if (n =? 110)%nat then Some (ascii_of_nat 10)
  else if (n =? 114)%nat then Some (ascii_of_nat 13)
  else if (n =? 116)%nat then Some (ascii_of_nat 9)
  else if (n =? 98)%nat then Some (ascii_of_nat 8)
  else if (n =? 102)%nat then Some (ascii_of_nat 12)
  else None.

Fixpoint json_unescape (s : string) : option string :=
  match s with
  | "" => Some ""
  | String c r =>
      if (code c =? 92)%nat then
        match r with
        | "" => None
        | String e r1 =>
            if (code e =? 117)%nat then
              match r1 with
              | String a (String b (String h (String l r2))) =>
                  match hex_val a, hex_val b, hex_val h, hex_val l, json_unescape r2 with
                  | Some 0%nat, Some 0%nat, Some x, Some y, Some t =>
                      Some (String (ascii_of_nat (16 * x + y)) t)
                  | _, _, _, _, _ => None
                  end
              | _ => None
              end
            else
              match unescape_letter e, json_unescape r1 with
              | Some d, Some t => Some (String d t)
              | _, _ => None
              end
        end
      else if (code c =? 34)%nat || (code c <? 32)%nat then None
      else match json_unescape r with
           | Some t => Some (String c t)
           | None => None
           end
  end.

(** The operations of an OpenAPI document that are offered as tools:
    path by path in the order of the document, one for each method key
    that reads [post] in lower case, under the name of the path without
    its slashes, if the name is on the list or all tools are used. *)
Definition allowed (use_all : bool) (name : string) : bool :=
  use_all || mem name PRIORITY_TOOLS.

Definition post_methods (methods : json) : jdict :=
  match methods with
  | JDict operations => filter (fun md => lower (fst md) =? "post") operations
  | _ => []
  end.

Definition offered_at (use_all : bool) (pm : string * json) : list string :=
  let name := strip_char "/"%char (fst pm) in
  if allowed use_all name then map (fun _ => name) (post_methods (snd pm)) else [].

Definition offered (use_all : bool) (paths : jdict) : list string :=
  flat_map (offered_at use_all) paths.

(** The descriptor of a tool: the entry of a property holds its type, its
    description and, for an array, its items. *)
Definition property_entry (e : string * json) : Prop :=
  exists ty desc,
    snd e = JDict [("type", ty); ("description", desc)]
    \/ exists it, snd e = JDict [("type", ty); ("description", desc); ("items", it)].

Definition tool_shape (name : string) (t : jdict) : Prop :=
  exists description props required,
    t = [("type", JStr "function");
         ("function",
          JDict [("name", JStr name); ("description", description);
                 ("parameters",
                  JDict [("type", JStr "object"); ("properties", JDict props);
                         ("required", required)])])]
    /\ Forall property_entry props.

(** A document shaped as OpenAPI prescribes, as far as the script reads
    it: the document, its components and their schemas, its paths and
    their operations are objects; so are the request body of an
    operation, its content, the media type and its schema; the
    reference of a schema is a string; and in a schema that is used the
    properties are an object of objects. *)
Definition not_object (v : json) : Prop :=
  match v with JDict _ => False | _ => True end.

Definition schema_ok (v : json) : Prop :=
  match v with
  | JDict d =>
      match lookup "properties" d with
      | None => True
      | Some (JDict props) => Forall (fun e => exists pd, snd e = JDict pd) props
      | Some _ => False
      end
  | _ => False
  end.

Definition reference_ok (schemas schema_ref : jdict) : Prop :=
  match lookup "$ref" schema_ref with
  | Some (JStr r) =>
      match lookup (last_segment r) schemas with
      | Some v => schema_ok v
      | None => True
      end
  | Some _ => False
  | None => schema_ok (JDict schema_ref)
  end.

Definition operation_ok (schemas : jdict) (details : json) : Prop :=
  match details with
  | JDict d =>
      match lookup "requestBody" d with
      | None => True
      | Some (JDict request_body) =>
          match lookup "content" request_body with
          | None => True
          | Some (JDict content) =>
              match lookup "application/json" content with
              | None => True
              | Some (JDict media) =>
                  match lookup "schema" media with
                  | None => True
                  | Some (JDict schema_ref) => reference_ok schemas schema_ref
                  | Some _ => False
                  end
              | Some _ => False
              end
          | Some _ => False
          end
      | Some _ => False
      end
  | _ => False
  end.

Definition schemas_of (d : jdict) : option jdict :=
  match lookup "components" d with
  | None => Some []
  | Some (JDict components) =>
      match lookup "schemas" components with
      | None => Some []
      | Some (JDict schemas) => Some schemas
      | Some _ => None
      end
  | Some _ => None
  end.

Definition paths_of (d : jdict) : option jdict :=
  match lookup "paths" d with
  | None => Some []
  | Some (JDict paths) => Some paths
  | Some _ => None
  end.

Definition document_ok (spec : json) : Prop :=
  exists d schemas paths,
    spec = JDict d
    /\ schemas_of d = Some schemas
    /\ paths_of d = Some paths
    /\ Forall (fun pm => exists operations,
                  snd pm = JDict operations
                  /\ Forall (fun md => operation_ok schemas (snd md)) operations)
              paths.

(** An OpenAPI document with two operations on the list, one that is
    not, and a [get]. *)
Definition sample_openapi : json :=
  JDict
    [("openapi", JStr "3.1.0");
     ("paths",
      JDict
        [("/search_repositories",
          JDict [("post",
                  JDict [("summary", JStr "Search Repositories");
                         ("requestBody",
                          JDict [("content",
                                  JDict [("application/json",
                                          JDict [("schema",
                                                  JDict [("$ref",
                                                          JStr "#/components/schemas/search_form")])])])])])]);
         ("/fork_repository", JDict [("post", JDict [("summary", JStr "Fork")])]);
         ("/get_issue/",
          JDict [("get", JDict []);
                 ("POST", JDict [("description", JStr "Get an issue")])])]);
     ("components",
      JDict
        [("schemas",
          JDict
            [("search_form",
              JDict [("properties",
                      JDict [("query", JDict [("type", JStr "string");
                                              ("title", JStr "Query")]);
                             ("topics", JDict [("type", JStr "array");
                                               ("items", JDict [("type", JStr "string")])])]);
                     ("required", JList [JStr "query"])])])])].

(** The calls of the chat endpoint in a log, and the calls of the tool
    proxy, in order. *)
Fixpoint chats (log : list action) : list chat_request :=
  match log with
  | [] => []
  | Chat r :: rest => r :: chats rest
  | _ :: rest => chats rest
  end.

Fixpoint tools_run (log : list action) : list (string * json) :=
  match log with
  | [] => []
  | Tool name arguments :: rest => (name, arguments) :: tools_run rest
  | _ :: rest => tools_run rest
  end.

(** The request offers tools to the model. *)
Definition offers_tools (r : chat_request) : bool :=
  match chat_json r with
  | JDict payload =>
      match lookup "tools" payload with Some _ => true | None => false end
  | _ => false
  end.

(** A computation adds at most [n] calls of the chat endpoint to the
    log, which it only extends. *)
Definition chat_bounded {A : Type} (n : nat) (m : run A) : Prop :=
  forall log, exists added,
    snd (m log) = app log added /\ List.length (chats added) <= n.

(** What an emitter, when there is one, adds to the log for an event. *)
Definition status_log (emitter : bool) (a : action) : list action :=
  if emitter then [a] else [].

(** The two status events of the fast path. *)
Definition search_events (emitter : bool) : list action :=
  if emitter then [Status "Searching GitHub..." false; Status "" true] else [].

(** A tool call the loop can read: an object whose [function], when
    present, is an object.  Its name and its arguments, decoded when
    they come as a text. *)
Definition call_ok (tc : json) : Prop :=
  match tc with
  | JDict d =>
      match lookup "function" d with
      | None | Some (JDict _) => True
      | Some _ => False
      end
  | _ => False
  end.

Definition call_function (tc : json) : jdict :=
  match tc with
  | JDict d => match lookup "function" d with Some (JDict f) => f | _ => [] end
  | _ => []
  end.

Definition call_name (tc : json) : json :=
  match lookup "name" (call_function tc) with Some n => n | None => JStr "" end.

Definition call_arguments (json_loads : string -> option json) (tc : json) : json :=
  match lookup "arguments" (call_function tc) with
  | Some (JStr s) => match json_loads s with Some v => v | None => JDict [] end
  | Some a => a
  | None => JDict []
  end.

(** What a tool call adds to the log, and the message its result adds
    to the transcript. *)
Definition call_events (json_loads : string -> option json) (str_of_json : json -> string)
    (emitter : bool) (tc : json) : list action :=
  let name := Pipe.jstr str_of_json (call_name tc) in
  app (if emitter then [Status ("Calling " ++ name ++ "...") false] else [])
      [Tool name (call_arguments json_loads tc)].

Definition tool_message (result : string) : jdict :=
  [("role", JStr "tool"); ("content", JStr result)].

(** The status event that opens round [n]. *)
Definition thinking (n : nat) : action :=
  Status ("Thinking... (round " ++ Pipe.str_of_nat n ++ ")") false.

(** What [_call_ollama] needs of its arguments. *)
Definition has_role (msg : jdict) : Prop := lookup "role" msg <> None.

Definition has_function (t : jdict) : Prop := lookup "function" t <> None.

(** A body with one user message, and a chat endpoint that is down. *)
Definition hello_body : list json :=
  [JDict [("role", JStr "user"); ("content", JStr "Which repos does torvalds own?")]].

Definition chat_down (_ : list action) (_ : chat_request) : chat_outcome :=
  ChatRaises "Connection refused".

Definition no_openapi (_ : request) : fetch_outcome := FetchRaises "Connection refused".

Definition no_search (_ : request) : get_outcome := GetRaises "Connection refused".

Definition echo_tool (_ : list action) (name : string) (_ : json) : string :=
  "ran " ++ name.

Definition no_json (_ : string) : option json := None.

Definition some_str (_ : json) : string := "?".

Definition some_text (_ : exn) (_ : json) : string := "?".

(** A model that answers, and one that asks for a tool in every
    response, with or without a role in its message. *)
Definition sample_call : json :=
  JDict [("function",
          JDict [("name", JStr "search_repositories");
                 ("arguments", JDict [("query", JStr "user:torvalds")])])].

Definition sample_tool : jdict :=
  [("type", JStr "function");
   ("function", JDict [("name", JStr "search_repositories")])].

Definition answering : json :=
  JDict [("message",
          JDict [("role", JStr "assistant");
                 ("content", JStr "He owns linux.<|im_end|>")])].

Definition asking_message (with_role : bool) : jdict :=
  app (if with_role then [("role", JStr "assistant")] else [])
      [("content", JStr ""); ("tool_calls", JList [sample_call])].

Definition asking (with_role : bool) : json :=
  JDict [("message", JDict (asking_message with_role))].

Definition table_body : list json :=
  [JDict [("role", JStr "user");
          ("content", JStr "show me a table of popular python repos")]].

Definition one_repo (_ : request) : get_outcome :=
  JsonBody {| items := Val [sample_repo]; total_count := Val 2500000%Z;
              error := Missing |}.

(** The events of the fast path before the model path starts: those of
    the search, when the message asks for a table or a chart. *)
Definition fast_log (emitter : bool) (user_msg : string) : list action :=
  if mem (Pipe._detect_format user_msg) ["table"; "chart"]
  then search_events emitter
  else [].

(** A response that asks for tools: its message has a role and a list,
    not empty, of tool calls the loop can read. *)
Definition asks_for_tools (response : json) : Prop :=
  exists m calls,
    jget response "message" (JDict []) = Ok (JDict m)
    /\ has_role m
    /\ lookup "tool_calls" m = Some (JList calls)
    /\ calls <> []
    /\ Forall call_ok calls.

(** The text [pipe] returns for the response to its final call: the
    cleaned content, nothing when there is no content, and the text of
    the exception when the response cannot be read. *)
Definition final_text (error_text : exn -> json -> string) (response : json) : string :=
  match jget response "message" (JDict []) with
  | Ok (JDict m) =>
      match lookup "content" m with
      | Some (JStr s) => Pipe._clean_response s
      | None => ""
      | Some _ => "Error: " ++ error_text TypeError response
      end
  | _ => "Error: " ++ error_text AttributeError response
  end.

(** The language names long enough to be keywords. *)
Definition qualifier_languages : list string :=
  ["python"; "javascript"; "typescript"; "java"; "rust";
   "c++"; "ruby"; "swift"; "kotlin"; "dart"; "php"; "scala"; "shell"].

(* ================================================================== *)
(** * Part III.  Properties *)
(* ================================================================== *)

(** ** Strings *)

Section StringFacts.

Lemma append_nil_r (s : string) : s ++ "" = s.
Proof. induction s as [|c s IH]; simpl; [reflexivity | now rewrite IH]. Qed.

Lemma append_assoc (a b c : string) : (a ++ b) ++ c = a ++ (b ++ c).
Proof. induction a as [|x a IH]; simpl; [reflexivity | now rewrite IH]. Qed.

Lemma length_append (a b : string) : len (a ++ b) = len a + len b.
Proof. induction a as [|x a IH]; simpl; [reflexivity | unfold len in *; simpl; now rewrite IH]. Qed.

Lemma prefix_iff (w s : string) : prefix w s = true <-> exists b, s = w ++ b.
Proof.
  revert s; induction w as [|c w IH]; intros s.
  - split; [intros _; now exists s | intros _; now destruct s].
  - destruct s as [|d s]; simpl.
    + split; [discriminate | intros [b Hb]; discriminate].
    + destruct (ascii_dec c d) as [->|Hne].
      * rewrite IH. split; intros [b Hb]; exists b; [now rewrite Hb | now injection Hb].
      * split; [discriminate | intros [b Hb]; injection Hb as Hd _; congruence].
Qed.

Lemma py_in_unfold (w s : string) :
  py_in w s =
  if prefix w s then true
  else match s with "" => false | String _ r => py_in w r end.
Proof. destruct s; reflexivity. Qed.

Lemma py_in_iff (w s : string) : py_in w s = true <-> occurs w s.
Proof.
  induction s as [|c s IH]; rewrite py_in_unfold;
    destruct (prefix w _) eqn:Hp.
  - split; [intros _ | reflexivity].
    apply prefix_iff in Hp as [b Hb]. now exists "", b.
  - split; [discriminate | intros [a [b Hab]]].
    destruct a as [|x a]; [|discriminate].
    assert (prefix w "" = true) by (apply prefix_iff; now exists b).
    congruence.
  - split; [intros _ | reflexivity].
    apply prefix_iff in Hp as [b Hb]. now exists "", b.
  - rewrite IH. split.
    + intros [a [b Hab]]. exists (String c a), b. simpl. now rewrite Hab.
    + intros [a [b Hab]]. destruct a as [|x a].
      * assert (prefix w (String c s) = true) by (apply prefix_iff; now exists b).
        congruence.
      * injection Hab as _ Hs. now exists a, b.
Qed.

Lemma py_in_false_iff (w s : string) : py_in w s = false <-> ~ occurs w s.
Proof.
  rewrite <- py_in_iff. destruct (py_in w s); split; congruence.
Qed.

Lemma take_length (n : nat) (s : string) : n <= len s -> len (take n s) = n.
Proof.
  revert s; induction n as [|n IH]; intros [|c s] H; simpl in *; try reflexivity.
  - inversion H.
  - unfold len in *; simpl in *. rewrite IH; [reflexivity | lia].
Qed.

Lemma take_drop (n : nat) (s : string) : take n s ++ drop n s = s.
Proof.
  revert s; induction n as [|n IH]; intros [|c s]; simpl; try reflexivity.
  now rewrite IH.
Qed.

End StringFacts.

Example split_words : split "  show  me python	repos " = ["show"; "me"; "python"; "repos"].
Proof. reflexivity. Qed.

Example split_lines : split_char LF ("a" ++ nl ++ nl ++ "b") = ["a"; ""; "b"].
Proof. reflexivity. Qed.

Example strip_both : strip ("  a b " ++ nl) = "a b".
Proof. reflexivity. Qed.

Example fmt_1f_examples :
  option_map fmt_1f (match true_div 1150 1000 with Ok x => Some x | _ => None end) = Some "1.1"
  /\ option_map fmt_1f (match true_div 1250 1000 with Ok x => Some x | _ => None end) = Some "1.2"
  /\ option_map fmt_1f (match true_div 1350 1000 with Ok x => Some x | _ => None end) = Some "1.4"
  /\ option_map fmt_1f (match true_div 999999 1000 with Ok x => Some x | _ => None end) = Some "1000.0"
  /\ float_1_2 = Finite 5404319552844595 (-52)
  /\ true_div (10 ^ 315) 1000000 = Raise OverflowError
  /\ (x <- float_of_int 100 ;; int_of_float (fmul x float_1_2)) = Ok 120%Z
  /\ (x <- float_of_int 7 ;; int_of_float (fmul x float_1_2)) = Ok 8%Z
  /\ int_of_str " -1_000 " = Ok (-1000)%Z.
Proof. vm_compute. repeat split. Qed.

Example extract_popular_python :
  Pipe._extract_search_params "show me a table of popular python repos"
  = ("repos", "language:python stars:>100", "stars")
  /\ Pipe._detect_format "show me a table of popular python repos" = "table".
Proof. vm_compute. split; reflexivity. Qed.

Example extract_pie_issues :
  Pipe._extract_search_params "pie chart of issues in facebook/react"
  = ("issues", "repo:facebook/react", "created")
  /\ Pipe._detect_chart_type "pie chart of issues in facebook/react" = "pie".
Proof. vm_compute. split; reflexivity. Qed.

(** ** Format detection *)

Section Detection.

Lemma any_in_iff (ws : list string) (s : string) :
  any_in ws s = true <-> exists w, In w ws /\ occurs w s.
Proof.
  unfold any_in. rewrite existsb_exists.
  split; intros [w [Hin Hw]]; exists w; split; trivial; now apply py_in_iff.
Qed.

(** C10.  The chart kind is [bar] exactly when the lowercased message
    contains the letters b-a-r anywhere, [line] exactly when it contains
    l-i-n-e and not b-a-r, and [pie] in every other case; whether the
    message says "pie" plays no part. *)
Theorem detect_chart_type_spec (user_msg : string) :
  let msg := lower user_msg in
  (Pipe._detect_chart_type user_msg = "bar" <-> occurs "bar" msg)
  /\ (Pipe._detect_chart_type user_msg = "line"
      <-> occurs "line" msg /\ ~ occurs "bar" msg)
  /\ (Pipe._detect_chart_type user_msg = "pie"
      <-> ~ occurs "bar" msg /\ ~ occurs "line" msg).
Proof.
  intros msg. unfold Pipe._detect_chart_type. fold msg.
  destruct (py_in "bar" msg) eqn:Hbar; [|destruct (py_in "line" msg) eqn:Hline].
  - apply py_in_iff in Hbar.
    repeat split; try discriminate; tauto.
  - apply py_in_false_iff in Hbar. apply py_in_iff in Hline.
    repeat split; try discriminate; tauto.
  - apply py_in_false_iff in Hbar. apply py_in_false_iff in Hline.
    repeat split; try discriminate; tauto.
Qed.

Example pie_chart_of_a_barcode_scanner :
  Pipe._detect_chart_type "Pie chart of barcode scanners" = "bar"
  /\ Pipe._detect_chart_type "pie chart of command-line tools" = "line"
  /\ Pipe._detect_chart_type "pie chart of rust repos" = "pie".
Proof. repeat split. Qed.

End Detection.

(** ** The query extractor *)

Section Extractor.

Lemma span_spec (p : ascii -> bool) (s : string) :
  forall a b, span p s = (a, b) ->
  s = a ++ b /\ str_forall p a = true
  /\ match b with "" => True | String c _ => p c = false end.
Proof.
  induction s as [|c s IH]; simpl; intros a b H.
  - injection H as <- <-. repeat split.
  - destruct (p c) eqn:Hc.
    + destruct (span p s) as [a' b'] eqn:Hs. injection H as <- <-.
      destruct (IH a' b' eq_refl) as (-> & Ha & Hb).
      simpl. rewrite Hc. repeat split; trivial.
    + injection H as <- <-. simpl. rewrite Hc. repeat split.
Qed.

Lemma span_app (p : ascii -> bool) (a b : string) :
  str_forall p a = true ->
  span p (a ++ b) = (a ++ fst (span p b), snd (span p b)).
Proof.
  induction a as [|c a IH]; simpl; intros H.
  - now destruct (span p b).
  - apply andb_true_iff in H as [Hc Ha]. rewrite Hc, (IH Ha). reflexivity.
Qed.

Lemma repo_match_here_sound (s t : string) :
  Pipe.repo_match_here s = Some t ->
  repo_token t /\ exists b, s = t ++ b.
Proof.
  unfold Pipe.repo_match_here.
  destruct (span Pipe.repo_char s) as [o r1] eqn:Ho.
  destruct (span_spec _ _ _ _ Ho) as (-> & Hoc & _).
  destruct o as [|o1 o']; [discriminate|].
  destruct r1 as [|c r2]; [discriminate|].
  destruct (code c =? 47)%nat eqn:Hc; [|discriminate].
  apply Nat.eqb_eq in Hc.
  assert (c = "/"%char) as ->.
  { unfold code in Hc. rewrite <- (ascii_nat_embedding c), Hc. reflexivity. }
  destruct (span Pipe.repo_char r2) as [n r3] eqn:Hn.
  destruct (span_spec _ _ _ _ Hn) as (-> & Hnc & _).
  destruct n as [|n1 n']; [discriminate|].
  intros H; injection H as <-. split.
  - exists (String o1 o'), (String n1 n'). repeat split; trivial; discriminate.
  - exists r3. simpl. f_equal. now rewrite append_assoc.
Qed.

Lemma repo_match_here_complete (o n b : string) :
  o <> "" -> n <> "" ->
  str_forall Pipe.repo_char o = true -> str_forall Pipe.repo_char n = true ->
  exists t, Pipe.repo_match_here (o ++ "/" ++ n ++ b) = Some t.
Proof.
  intros Ho Hn Hoc Hnc. unfold Pipe.repo_match_here.
  rewrite (span_app _ _ _ Hoc). simpl.
  rewrite append_nil_r.
  destruct o as [|o1 o']; [congruence|]. simpl.
  rewrite (span_app _ _ _ Hnc).
  destruct n as [|n1 n']; [congruence|]. simpl. eauto.
Qed.

Lemma repo_search_unfold (s : string) :
  Pipe.repo_search s =
  match Pipe.repo_match_here s with
  | Some t => Some t
  | None => match s with "" => None | String _ r => Pipe.repo_search r end
  end.
Proof. destruct s; reflexivity. Qed.

Lemma repo_search_sound (s t : string) :
  Pipe.repo_search s = Some t -> repo_token t /\ occurs t s.
Proof.
  induction s as [|c s IH]; rewrite repo_search_unfold;
    destruct (Pipe.repo_match_here _) eqn:H; try discriminate.
  - intros E; injection E as <-.
    destruct (repo_match_here_sound _ _ H) as [Ht [b Hb]].
    split; trivial. now exists "", b.
  - intros E. destruct (IH E) as [Ht [a [b Hab]]]. split; trivial.
    exists (String c a), b. simpl. now rewrite Hab.
Qed.

Lemma repo_search_complete (s : string) :
  (exists t, repo_token t /\ occurs t s) -> exists t, Pipe.repo_search s = Some t.
Proof.
  intros (t & (o & n & -> & Ho & Hn & Hoc & Hnc) & a & b & ->).
  induction a as [|c a IH]; rewrite repo_search_unfold.
  - change ("" ++ (o ++ "/" ++ n) ++ b) with ((o ++ "/" ++ n) ++ b).
    rewrite !append_assoc. change (("/" ++ n) ++ b) with ("/" ++ n ++ b).
    destruct (repo_match_here_complete o n b Ho Hn Hoc Hnc) as [t Ht].
    rewrite Ht. eauto.
  - destruct (Pipe.repo_match_here _); eauto.
Qed.

Lemma repo_search_none (s : string) :
  Pipe.repo_search s = None <-> ~ has_repo_token s.
Proof.
  split.
  - intros H Htok. apply repo_search_complete in Htok as [t Ht]. congruence.
  - intros H. destruct (Pipe.repo_search s) as [t|] eqn:E; trivial.
    exfalso. apply H. exists t. now apply repo_search_sound.
Qed.

Lemma search_type_cases (msg : string) :
  (has_issue_keyword msg /\ Pipe.search_type_of msg = "issues")
  \/ (~ has_issue_keyword msg /\ Pipe.search_type_of msg = "prs")
  \/ (~ has_issue_keyword msg /\ Pipe.search_type_of msg = "repos").
Proof.
  unfold Pipe.search_type_of.
  destruct (any_in ["issue"; "bug"; "issues"] msg) eqn:H.
  - left. split; trivial.
    apply any_in_iff in H as [w [Hin Hw]]. unfold has_issue_keyword.
    simpl in Hin. intuition (subst; tauto).
  - assert (~ has_issue_keyword msg) as Hno.
    { intros Hk. assert (any_in ["issue"; "bug"; "issues"] msg = true); [|congruence].
      apply any_in_iff. unfold has_issue_keyword in Hk. simpl.
      destruct Hk as [Hk|[Hk|Hk]]; eauto 6. }
    destruct (any_in ["pull request"; "pr "; "prs"; "pull requests"] msg);
      [right; left | right; right]; now split.
Qed.

Lemma extract_search_type (user_msg : string) :
  search_type_part (Pipe._extract_search_params user_msg)
  = Pipe.search_type_of (lower user_msg).
Proof.
  unfold Pipe._extract_search_params.
  destruct (Pipe.repo_search user_msg);
    destruct (mem (Pipe.search_type_of (lower user_msg)) ["issues"; "prs"]);
    destruct (Pipe.keywords_of (lower user_msg)); reflexivity.
Qed.

(** The three branches of the query builder. *)
Lemma extract_repo_branch (user_msg tok : string) :
  Pipe.repo_search user_msg = Some tok ->
  mem (Pipe.search_type_of (lower user_msg)) ["issues"; "prs"] = true ->
  Pipe._extract_search_params user_msg
  = (Pipe.search_type_of (lower user_msg), "repo:" ++ tok, "created").
Proof.
  intros Hs Hm. unfold Pipe._extract_search_params. now rewrite Hs, Hm.
Qed.

Lemma extract_keyword_branches (user_msg : string) :
  Pipe.repo_search user_msg = None
  \/ mem (Pipe.search_type_of (lower user_msg)) ["issues"; "prs"] = false ->
  Pipe._extract_search_params user_msg
  = (Pipe.search_type_of (lower user_msg),
     match Pipe.keywords_of (lower user_msg) with
     | [] => "stars:>1000"
     | ks => Pipe.keyword_query (lower user_msg) ks
     end,
     "stars").
Proof.
  intros H. unfold Pipe._extract_search_params.
  destruct (Pipe.repo_search user_msg) as [t|];
    destruct (mem (Pipe.search_type_of (lower user_msg)) ["issues"; "prs"]) eqn:Hm;
    destruct (Pipe.keywords_of (lower user_msg));
    try reflexivity; destruct H; congruence.
Qed.

Lemma mem_issues_prs (st : string) :
  mem st ["issues"; "prs"] = true <-> st = "issues" \/ st = "prs".
Proof.
  unfold mem. simpl. rewrite !orb_true_iff, !String.eqb_eq.
  intuition discriminate.
Qed.

(** C3.  A message whose lowercased text contains a keyword of the issues
    domain ("issue", "bug", "issues") is classified as [issues], and so
    neither as [repos] nor as [prs], whatever else it contains. *)
Theorem issue_keyword_gives_issues (user_msg : string) :
  has_issue_keyword (lower user_msg) ->
  search_type_part (Pipe._extract_search_params user_msg) = "issues"
  /\ search_type_part (Pipe._extract_search_params user_msg) <> "repos"
  /\ search_type_part (Pipe._extract_search_params user_msg) <> "prs".
Proof.
  intros H. rewrite extract_search_type.
  destruct (search_type_cases (lower user_msg)) as [[_ ->]|[[Hno _]|[Hno _]]];
    [|contradiction..].
  repeat split; discriminate.
Qed.

Lemma issue_keyword_gives_issues_witness :
  let r := Pipe._extract_search_params "Open issues and pull requests of rust-lang/rust" in
  search_type_part r = "issues"
  /\ search_type_part r <> "repos" /\ search_type_part r <> "prs".
Proof.
  apply (issue_keyword_gives_issues "Open issues and pull requests of rust-lang/rust").
  left. exists "open ", "s and pull requests of rust-lang/rust". reflexivity.
Defined.

(** C2.  When the message holds an owner/name token and the domain is
    issues or pull requests, the query is [repo:] followed by the token
    the pattern matched, nothing else, and the sort key is [created]. *)
Theorem repo_token_query (user_msg : string) :
  has_repo_token user_msg ->
  search_type_part (Pipe._extract_search_params user_msg) = "issues"
  \/ search_type_part (Pipe._extract_search_params user_msg) = "prs" ->
  exists tok,
    Pipe.repo_search user_msg = Some tok
    /\ repo_token tok /\ occurs tok user_msg
    /\ query_part (Pipe._extract_search_params user_msg) = "repo:" ++ tok
    /\ sort_part (Pipe._extract_search_params user_msg) = "created".
Proof.
  intros Htok Hst. rewrite extract_search_type in Hst.
  apply repo_search_complete in Htok as [tok Hs].
  exists tok. destruct (repo_search_sound _ _ Hs) as [Ht Ho].
  rewrite (extract_repo_branch _ _ Hs (proj2 (mem_issues_prs _) Hst)).
  repeat split; trivial.
Qed.

Lemma repo_token_query_witness :
  exists tok,
    Pipe.repo_search "list PRs for torvalds/linux please" = Some tok
    /\ repo_token tok /\ occurs tok "list PRs for torvalds/linux please"
    /\ query_part (Pipe._extract_search_params "list PRs for torvalds/linux please")
       = "repo:" ++ tok
    /\ sort_part (Pipe._extract_search_params "list PRs for torvalds/linux please")
       = "created".
Proof.
  apply (repo_token_query "list PRs for torvalds/linux please").
  - exists "torvalds/linux". split.
    + exists "torvalds", "linux". repeat split; discriminate.
    + exists "list PRs for ", " please". reflexivity.
  - right. reflexivity.
Defined.

(** *** Keywords and the parts of the query *)

Lemma keywords_long (msg k : string) :
  In k (Pipe.keywords_of msg) -> 2 < len k.
Proof.
  unfold Pipe.keywords_of. intros H.
  apply in_map_iff in H as (w & <- & Hw).
  apply filter_In in Hw as [_ Hw]. now apply Nat.ltb_lt in Hw.
Qed.

Lemma join_cons_nonempty (sep x : string) (t : list string) :
  x <> "" -> join sep (x :: t) <> "".
Proof.
  intros Hx. unfold join. simpl.
  destruct x as [|c x]; [congruence|]. destruct t; discriminate.
Qed.

Lemma join_snoc (sep x : string) (l : list string) :
  l <> [] -> join sep (app l [x]) = join sep l ++ sep ++ x.
Proof.
  unfold join. induction l as [|a l IH]; [congruence|]. intros _.
  destruct l as [|b l].
  - reflexivity.
  - change (String.concat sep (app (a :: b :: l) [x]))
      with (a ++ sep ++ String.concat sep (app (b :: l) [x])).
    rewrite IH by discriminate.
    change (String.concat sep (a :: b :: l)) with (a ++ sep ++ String.concat sep (b :: l)).
    now rewrite !append_assoc.
Qed.

Lemma keyword_parts_nonempty (keywords : list string) :
  keywords <> [] -> (forall k, In k keywords -> 2 < len k) ->
  exists p ps, keyword_parts keywords = p :: ps /\ p <> "".
Proof.
  intros Hne Hlen. unfold keyword_parts.
  destruct (filter (fun k => negb (mem k Pipe.languages)) keywords) as [|p ps] eqn:Ht.
  - destruct keywords as [|k ks]; [congruence|]. cbn [filter] in *.
    destruct (mem k Pipe.languages); cbn [negb map app] in *; [|discriminate].
    eexists _, _. split; [reflexivity | discriminate].
  - exists p. eexists. split; [reflexivity|].
    assert (In p keywords) as Hin.
    { eapply (proj1 (filter_In _ p keywords)). rewrite Ht. now left. }
    apply Hlen in Hin. intros ->. now inversion Hin.
Qed.

Lemma keyword_query_plain (msg : string) (keywords : list string) :
  py_in "popular" msg || py_in "top" msg || py_in "trending" msg = false ->
  Pipe.keyword_query msg keywords
  = match keyword_parts keywords with
    | [] => "stars:>1000"
    | ps => join " " ps
    end.
Proof.
  intros H. unfold Pipe.keyword_query. rewrite H. fold (keyword_parts keywords).
  destruct (keyword_parts keywords); reflexivity.
Qed.

Lemma keyword_query_popular (msg : string) (keywords : list string) :
  py_in "popular" msg || py_in "top" msg || py_in "trending" msg = true ->
  Pipe.keyword_query msg keywords
  = join " " (app (keyword_parts keywords) ["stars:>100"]).
Proof.
  intros H. unfold Pipe.keyword_query. rewrite H. fold (keyword_parts keywords).
  destruct (keyword_parts keywords); reflexivity.
Qed.

Lemma popularity_iff (msg : string) :
  py_in "popular" msg || py_in "top" msg || py_in "trending" msg = true
  <-> has_popularity msg.
Proof.
  unfold has_popularity. rewrite !orb_true_iff, !py_in_iff. tauto.
Qed.

(** C9.  The query is never the empty string: it is a [repo:] qualifier,
    or the parts built from at least one keyword joined by spaces, or the
    fallback [stars:>1000]. *)
Theorem query_never_empty (user_msg : string) :
  query_part (Pipe._extract_search_params user_msg) <> ""
  /\ ((exists tok, query_part (Pipe._extract_search_params user_msg) = "repo:" ++ tok)
      \/ (exists p ps, p <> ""
            /\ query_part (Pipe._extract_search_params user_msg) = join " " (p :: ps))
      \/ query_part (Pipe._extract_search_params user_msg) = "stars:>1000").
Proof.
  destruct (Pipe.repo_search user_msg) as [tok|] eqn:Hs;
    [destruct (mem (Pipe.search_type_of (lower user_msg)) ["issues"; "prs"]) eqn:Hm|].
  1: { rewrite (extract_repo_branch _ _ Hs Hm). unfold query_part; simpl.
       split; [discriminate | left; now exists tok]. }
  all: rewrite extract_keyword_branches by auto; unfold query_part; simpl.
  all: destruct (Pipe.keywords_of (lower user_msg)) as [|k ks] eqn:Hk;
    [split; [discriminate | auto]|].
  all: destruct (keyword_parts_nonempty (k :: ks)) as (p & ps & Hp & Hne);
    [discriminate | intros k' Hin; apply (keywords_long (lower user_msg)); now rewrite Hk|].
  all: destruct (py_in "popular" (lower user_msg) || py_in "top" (lower user_msg)
                 || py_in "trending" (lower user_msg)) eqn:Hpop;
    [rewrite (keyword_query_popular _ _ Hpop) | rewrite (keyword_query_plain _ _ Hpop)];
    rewrite Hp.
  all: split; [now apply join_cons_nonempty | right; left].
  all: try (exists p, (app ps ["stars:>100"]); now split).
  all: exists p, ps; now split.
Qed.

Example queries_without_keywords :
  Pipe._extract_search_params "" = ("repos", "stars:>1000", "stars")
  /\ Pipe._extract_search_params "show me the top repos" = ("repos", "stars:>1000", "stars")
  /\ Pipe._extract_search_params "list all prs" = ("prs", "stars:>1000", "stars")
  /\ Pipe._extract_search_params "list a bug in an IDE" = ("issues", "bug ide", "stars")
  /\ Pipe._extract_search_params "c++ game engines"
     = ("repos", "game engines language:c++", "stars").
Proof. repeat split. Qed.

(** With popularity language and a domain of issues or pull requests,
    an owner/name token takes the query over: the stars qualifier is
    not in it. *)
Lemma popular_issues_of_a_repo_have_no_stars_qualifier :
  py_in "top" (lower "top issues in facebook/react") = true
  /\ Pipe._extract_search_params "top issues in facebook/react"
     = ("issues", "repo:facebook/react", "created")
  /\ py_in "stars:>100" "repo:facebook/react" = false.
Proof. repeat split. Qed.

(** C1, amended.  When the lowercased message holds popularity language
    and the repo branch is not taken (the message holds no owner/name
    token, or its domain is repositories), the query contains
    [stars:>100]: as its last part when at least one keyword is left,
    and inside the fallback [stars:>1000] when none is. *)
Theorem popularity_adds_min_stars (user_msg : string) :
  has_popularity (lower user_msg) ->
  ~ has_repo_token user_msg
  \/ search_type_part (Pipe._extract_search_params user_msg) = "repos" ->
  occurs "stars:>100" (query_part (Pipe._extract_search_params user_msg))
  /\ sort_part (Pipe._extract_search_params user_msg) = "stars"
  /\ (Pipe.keywords_of (lower user_msg) <> [] ->
      exists p ps,
        query_part (Pipe._extract_search_params user_msg)
        = join " " (p :: ps) ++ " stars:>100")
  /\ (Pipe.keywords_of (lower user_msg) = [] ->
      query_part (Pipe._extract_search_params user_msg) = "stars:>1000").
Proof.
  intros Hpop Hbranch. apply popularity_iff in Hpop.
  rewrite extract_search_type in Hbranch.
  rewrite extract_keyword_branches.
  2: { destruct Hbranch as [H|H]; [left; now apply repo_search_none | right; now rewrite H]. }
  unfold query_part, sort_part; simpl.
  destruct (Pipe.keywords_of (lower user_msg)) as [|k ks] eqn:Hk.
  - repeat split; try congruence. now exists "", "0".
  - destruct (keyword_parts_nonempty (k :: ks)) as (p & ps & Hp & Hne);
      [discriminate | intros k' Hin; apply (keywords_long (lower user_msg)); now rewrite Hk|].
    rewrite (keyword_query_popular _ _ Hpop), Hp, join_snoc by discriminate.
    repeat split; try discriminate.
    + exists (join " " (p :: ps) ++ " "), "". now rewrite append_nil_r, append_assoc.
    + intros _. now exists p, ps.
Qed.

Lemma popularity_adds_min_stars_witness :
  let r := Pipe._extract_search_params "Trending machine learning projects in Python" in
  occurs "stars:>100" (query_part r)
  /\ sort_part r = "stars"
  /\ (Pipe.keywords_of (lower "Trending machine learning projects in Python") <> [] ->
      exists p ps, query_part r = join " " (p :: ps) ++ " stars:>100")
  /\ (Pipe.keywords_of (lower "Trending machine learning projects in Python") = [] ->
      query_part r = "stars:>1000").
Proof.
  apply (popularity_adds_min_stars "Trending machine learning projects in Python").
  - right; right. exists "", " machine learning projects in python". reflexivity.
  - right. reflexivity.
Defined.

Example noise_words_removed :
  sub_words Pipe.noise_words false 0 "a an barn pull requests top-rated"
  = "  barn  -rated"
  /\ sub_words Pipe.noise_words false 0 "repositories repository repos repo reposit"
     = "    reposit"
  /\ Pipe.keywords_of "find me the most starred go and rust web_frameworks"
     = ["starred"; "and"; "rust"; "web_frameworks"].
Proof. repeat split. Qed.

Example first_token_is_the_repo :
  Pipe._extract_search_params "compare issues of facebook/react and vuejs/core"
  = ("issues", "repo:facebook/react", "created")
  /\ Pipe._extract_search_params "bugs at https://github.com/Facebook/React/issues"
     = ("issues", "repo:github.com/Facebook", "created")
  /\ Pipe._extract_search_params "table of facebook/react forks"
     = ("repos", "facebook/react forks", "stars").
Proof. repeat split. Qed.

Example popular_queries :
  query_part (Pipe._extract_search_params "Trending machine learning projects in Python")
  = "machine learning language:python stars:>100"
  /\ query_part (Pipe._extract_search_params "top repos") = "stars:>1000"
  /\ query_part (Pipe._extract_search_params "a laptop stand") = "laptop stand stars:>100".
Proof. repeat split. Qed.

End Extractor.

(** ** The tool proxy *)

Section ToolProxy.

Variable valves : Valves.
Variable http_post : request -> post_outcome.

(** C8.  The text the proxy answers is returned unchanged when it has at
    most 6000 characters; a longer one is cut to its first 6000
    characters, followed by the marker. *)
Theorem execute_tool_truncates (tool_name : string) (arguments : dict) (text : string) :
  http_post (Pipe.tool_request valves tool_name arguments) = PostText text ->
  (len text <= 6000 ->
   Pipe._execute_tool valves http_post tool_name arguments = text)
  /\ (6000 < len text ->
      Pipe._execute_tool valves http_post tool_name arguments
      = take 6000 text ++ nl ++ "... (truncated)"
      /\ len (take 6000 text) = 6000
      /\ exists rest, text = take 6000 text ++ rest).
Proof.
  intros Hpost. unfold Pipe._execute_tool. rewrite Hpost. split; intros Hlen.
  - apply Nat.ltb_ge in Hlen. now rewrite Hlen.
  - pose proof Hlen as Hlt. apply Nat.ltb_lt in Hlt. rewrite Hlt.
    repeat split.
    + apply take_length. lia.
    + exists (drop 6000 text). symmetry. apply take_drop.
Qed.

End ToolProxy.

Lemma execute_tool_truncates_witness :
  let post := fun _ : request => PostText "[]" in
  (len "[]" <= 6000 ->
   Pipe._execute_tool default_valves post "search_repositories" [] = "[]")
  /\ (6000 < len "[]" ->
      Pipe._execute_tool default_valves post "search_repositories" []
      = take 6000 "[]" ++ nl ++ "... (truncated)"
      /\ len (take 6000 "[]") = 6000
      /\ exists rest, "[]" = take 6000 "[]" ++ rest).
Proof.
  apply (execute_tool_truncates default_valves (fun _ => PostText "[]")
           "search_repositories" [] "[]").
  reflexivity.
Defined.

(** A text of 6001 characters, and an exception of the call. *)
Example execute_tool_cuts_a_long_text :
  let text := string_of_list_ascii (repeat "x"%char 6001) in
  let out := Pipe._execute_tool default_valves (fun _ => PostText text)
               "search_code" [] in
  len out = 6016
  /\ take 6000 out = string_of_list_ascii (repeat "x"%char 6000)
  /\ drop 6000 out = nl ++ "... (truncated)"
  /\ Pipe._execute_tool default_valves (fun _ => PostRaises ("no route to " ++ dq ++ "host" ++ dq))
       "search_code" []
     = "{" ++ dq ++ "error" ++ dq ++ ": " ++ dq ++ "no route to \" ++ dq ++ "host\" ++ dq ++ dq ++ "}".
Proof. vm_compute. repeat split. Qed.

(** ** The numeric formatter *)

Section Numbers.

Open Scope Z_scope.

Lemma round_half_even_nonneg (p q : Z) :
  0 <= p -> 0 < q -> 0 <= round_half_even p q.
Proof.
  intros Hp Hq. unfold round_half_even.
  pose proof (Z.div_pos p q Hp Hq).
  destruct (2 * (p mod q) <? q); [lia|].
  destruct (q <? 2 * (p mod q)); [lia|].
  destruct (Z.even (p / q)); lia.
Qed.

Lemma ulp_exp_le (p q : Z) (b : Z) :
  0 < p -> 0 < q -> p < 2 ^ b -> 0 <= b -> ulp_exp p q <= Z.max (b - 53) (-1074).
Proof.
  intros Hp Hq Hb Hb0. unfold ulp_exp.
  assert (Z.log2 p < b) by (apply Z.log2_lt_pow2; lia).
  pose proof (Z.log2_nonneg q).
  destruct (0 <=? Z.log2 p - Z.log2 q);
    [destruct (q * 2 ^ (Z.log2 p - Z.log2 q) <=? p)
    |destruct (q <=? p * 2 ^ (- (Z.log2 p - Z.log2 q)))]; lia.
Qed.

Lemma round_pos_finite (p q : Z) :
  0 < p -> 0 < q -> p < 2 ^ 1023 ->
  exists m e, round_pos p q = Finite m e /\ 0 <= m.
Proof.
  intros Hp Hq Hb. unfold round_pos.
  pose proof (ulp_exp_le p q 1023 Hp Hq Hb ltac:(lia)) as He.
  set (e := ulp_exp p q) in *.
  assert ((971 <? e) = false) as -> by (apply Z.ltb_ge; lia).
  assert ((e =? 971) = false) as -> by (apply Z.eqb_neq; lia).
  simpl. eexists _, _. split; [reflexivity|].
  destruct (0 <=? e) eqn:H0.
  - apply round_half_even_nonneg; [lia|].
    apply Z.leb_le in H0. pose proof (Z.pow_pos_nonneg 2 e). nia.
  - apply Z.leb_gt in H0. pose proof (Z.pow_pos_nonneg 2 (- e)).
    apply round_half_even_nonneg; nia.
Qed.

Lemma true_div_finite (n q : Z) :
  0 < n -> 0 < q -> n < 2 ^ 1023 ->
  exists m e, true_div n q = Ok (Finite m e) /\ 0 <= m.
Proof.
  intros Hn Hq Hb. unfold true_div, round_q.
  assert ((n =? 0) = false) as -> by (apply Z.eqb_neq; lia).
  assert ((n <? 0) = false) as -> by (apply Z.ltb_ge; lia).
  destruct (round_pos_finite n q Hn Hq Hb) as (m & e & -> & Hm). eauto.
Qed.

Lemma tenths_nonneg (m e : Z) : 0 <= m -> 0 <= tenths m e.
Proof.
  intros Hm. unfold tenths. destruct (0 <=? e) eqn:He.
  - apply Z.leb_le in He. pose proof (Z.pow_pos_nonneg 2 e). nia.
  - apply Z.leb_gt in He. pose proof (Z.pow_pos_nonneg 2 (- e)).
    apply round_half_even_nonneg; lia.
Qed.

(** *** The error of the two roundings *)

Lemma round_half_even_error (p q : Z) :
  0 < q -> 2 * Z.abs (q * round_half_even p q - p) <= q.
Proof.
  intros Hq. unfold round_half_even.
  pose proof (Z.div_mod p q ltac:(lia)) as Hdm.
  pose proof (Z.mod_pos_bound p q Hq) as Hr.
  destruct (2 * (p mod q) <? q) eqn:H1; [apply Z.ltb_lt in H1; lia|].
  apply Z.ltb_ge in H1.
  destruct (q <? 2 * (p mod q)) eqn:H2; [apply Z.ltb_lt in H2; lia|].
  apply Z.ltb_ge in H2.
  destruct (Z.even (p / q)); lia.
Qed.

Lemma ulp_exp_quotient_ge_1 (p q : Z) :
  0 < q <= p -> -52 <= ulp_exp p q /\ q * 2 ^ (ulp_exp p q + 52) <= p.
Proof.
  intros Hpq. unfold ulp_exp.
  pose proof (Z.log2_le_mono q p ltac:(lia)) as Hk.
  pose proof (Z.log2_nonneg q) as Ha.
  set (a := Z.log2 q) in *. set (b := Z.log2 p) in *.
  assert ((0 <=? b - a) = true) as -> by (apply Z.leb_le; lia).
  destruct (q * 2 ^ (b - a) <=? p) eqn:Hge.
  - apply Z.leb_le in Hge.
    replace (Z.max (b - a - 52) (-1074)) with (b - a - 52) by lia.
    replace (b - a - 52 + 52) with (b - a) by lia. lia.
  - apply Z.leb_gt in Hge.
    assert (b - a <> 0) as Hk0.
    { intros E. rewrite E in Hge. simpl in Hge. lia. }
    replace (Z.max (b - a - 1 - 52) (-1074)) with (b - a - 1 - 52) by lia.
    replace (b - a - 1 - 52 + 52) with (b - a - 1) by lia.
    split; [lia|].
    destruct (Z.log2_spec p ltac:(lia)) as [Hp1 _]. fold b in Hp1.
    destruct (Z.log2_spec q ltac:(lia)) as [_ Hq2]. fold a in Hq2.
    assert (2 ^ b = 2 ^ Z.succ a * 2 ^ (b - a - 1)) as Hpow.
    { rewrite <- Z.pow_add_r by lia. f_equal. lia. }
    pose proof (Z.pow_pos_nonneg 2 (b - a - 1) ltac:(lia) ltac:(lia)).
    nia.
Qed.

Lemma round_pos_tenths (p q m e : Z) :
  0 < q <= p -> round_pos p q = Finite m e ->
  0 <= m /\ near_tenths p q (tenths m e).
Proof.
  intros Hpq. unfold round_pos.
  destruct (ulp_exp_quotient_ge_1 p q Hpq) as [He Hle].
  set (e0 := ulp_exp p q) in *.
  destruct ((971 <? e0) || (e0 =? 971) && (2 ^ 53 <=? _)); [discriminate|].
  intros H; injection H as <- <-.
  unfold near_tenths, tenths.
  destruct (0 <=? e0) eqn:H0.
  - apply Z.leb_le in H0.
    pose proof (Z.pow_pos_nonneg 2 e0 ltac:(lia) H0) as HP.
    rewrite Z.pow_add_r in Hle by lia.
    set (P := 2 ^ e0) in *.
    pose proof (round_half_even_error p (q * P) ltac:(nia)) as Herr.
    pose proof (round_half_even_nonneg p (q * P) ltac:(lia) ltac:(nia)) as Hm.
    set (m := round_half_even p (q * P)) in *.
    split; [exact Hm|].
    replace (q * (m * 10 * P) - 10 * p) with (10 * (q * P * m - p)) by ring.
    rewrite Z.abs_mul. change (Z.abs 10) with 10.
    change (2 ^ 52) with 4503599627370496 in *.
    change (2 ^ 53) with 9007199254740992. nia.
  - apply Z.leb_gt in H0.
    pose proof (Z.pow_pos_nonneg 2 (- e0) ltac:(lia) ltac:(lia)) as HE.
    assert (2 ^ (e0 + 52) * 2 ^ (- e0) = 2 ^ 52) as Hpow.
    { rewrite <- Z.pow_add_r by lia. f_equal. lia. }
    pose proof (Z.pow_pos_nonneg 2 (e0 + 52) ltac:(lia) ltac:(lia)) as HF.
    set (E := 2 ^ (- e0)) in *. set (F := 2 ^ (e0 + 52)) in *.
    pose proof (round_half_even_error (p * E) q ltac:(lia)) as Herr1.
    pose proof (round_half_even_nonneg (p * E) q ltac:(nia) ltac:(lia)) as Hm.
    set (m := round_half_even (p * E) q) in *.
    pose proof (round_half_even_error (m * 10) E HE) as Herr2.
    set (t := round_half_even (m * 10) E) in *.
    split; [exact Hm|].
    change (2 ^ 52) with 4503599627370496 in *.
    change (2 ^ 53) with 9007199254740992.
    assert (q * 4503599627370496 <= p * E) as Hn by nia.
    assert (2 * (Z.abs (q * t - 10 * p) * E) <= q * E + 10 * q) as Hx.
    { replace (Z.abs (q * t - 10 * p) * E) with (Z.abs ((q * t - 10 * p) * E))
        by (rewrite Z.abs_mul, (Z.abs_eq E); lia).
      replace ((q * t - 10 * p) * E) with (q * (E * t - m * 10) + 10 * (q * m - p * E))
        by ring.
      pose proof (Z.abs_triangle (q * (E * t - m * 10)) (10 * (q * m - p * E))) as Htri.
      rewrite !Z.abs_mul in Htri. rewrite (Z.abs_eq q), (Z.abs_eq 10) in Htri by lia.
      nia. }
    apply Z.mul_le_mono_pos_r with (p := E); [exact HE|]. nia.
Qed.

Close Scope Z_scope.

(** Decimal digits. *)

Lemma string_of_uint_digits (d : Decimal.uint) :
  str_forall is_digit (NilEmpty.string_of_uint d) = true.
Proof. induction d; simpl; trivial. Qed.

Lemma str_of_Z_digits (z : Z) :
  (0 <= z)%Z -> all_digits (str_of_Z z).
Proof.
  intros Hz. unfold all_digits, str_of_Z.
  destruct z as [|p|p]; [split; [discriminate|reflexivity]| |lia].
  unfold Z.to_int, NilZero.string_of_int, NilZero.string_of_uint.
  destruct (Pos.to_uint p) eqn:E; simpl;
    try (split; [discriminate | rewrite ?string_of_uint_digits; reflexivity]).
Qed.

Lemma str_of_Z_one_digit (z : Z) :
  (0 <= z < 10)%Z -> exists d, str_of_Z z = String d "" /\ is_digit d = true.
Proof.
  intros Hz.
  assert (z = 0 \/ z = 1 \/ z = 2 \/ z = 3 \/ z = 4 \/ z = 5 \/ z = 6 \/ z = 7
          \/ z = 8 \/ z = 9)%Z as H by lia.
  repeat (destruct H as [->|H]); try subst z; eexists; split; reflexivity.
Qed.

Lemma fmt_1f_shape (m e : Z) :
  (0 <= m)%Z ->
  exists ds d, fmt_1f (Finite m e) = ds ++ "." ++ String d ""
               /\ all_digits ds /\ is_digit d = true.
Proof.
  intros Hm. unfold fmt_1f.
  assert ((m <? 0)%Z = false) as -> by (apply Z.ltb_ge; lia).
  unfold fmt_abs_1f. pose proof (tenths_nonneg m e Hm) as Ht.
  destruct (str_of_Z_one_digit (tenths m e mod 10)) as (d & -> & Hd).
  { apply Z.mod_pos_bound. lia. }
  exists (str_of_Z (tenths m e / 10)), d. repeat split; trivial;
    apply str_of_Z_digits, Z.div_pos; lia.
Qed.

End Numbers.

Section FmtNumber.

Open Scope Z_scope.

Lemma fmt_number_int (n : Z) :
  Pipe._fmt_number (PInt n)
  = if 1000000 <=? n then x <- true_div n 1000000 ;; Ok (fmt_1f x ++ "M")
    else if 1000 <=? n then x <- true_div n 1000 ;; Ok (fmt_1f x ++ "k")
    else Ok (str_of_Z n).
Proof. reflexivity. Qed.

Lemma one_decimal_tenths (m e : Z) (suffix : string) :
  0 <= m -> one_decimal (tenths m e) suffix (fmt_1f (Finite m e) ++ suffix).
Proof.
  intros Hm. pose proof (tenths_nonneg m e Hm) as Ht.
  destruct (fmt_1f_shape m e Hm) as (ds & d & Hfmt & Hds & Hd).
  split; [exact Ht | split].
  - unfold fmt_1f. assert ((m <? 0) = false) as -> by (apply Z.ltb_ge; lia).
    unfold fmt_abs_1f. now rewrite !append_assoc.
  - exists ds, d. rewrite Hfmt, !append_assoc.
    split; [reflexivity | split; assumption].
Qed.

(** What is printed when the quotient is returned. *)
Lemma fmt_quotient (n q : Z) (suffix out : string) :
  0 < q <= n ->
  (x <- true_div n q ;; Ok (fmt_1f x ++ suffix)) = Ok out ->
  exists t, one_decimal t suffix out /\ near_tenths n q t.
Proof.
  intros Hqn. unfold true_div, round_q.
  assert ((n =? 0) = false) as -> by (apply Z.eqb_neq; lia).
  assert ((n <? 0) = false) as -> by (apply Z.ltb_ge; lia).
  destruct (round_pos n q) as [m e|] eqn:Hr; [|discriminate].
  destruct (round_pos_tenths n q m e Hqn Hr) as [Hm Hnear].
  cbn [bind]. intros H; injection H as <-.
  exists (tenths m e). split; [now apply one_decimal_tenths | exact Hnear].
Qed.

(** The quotient is returned when [n] is within the range of a float. *)
Lemma fmt_quotient_returns (n q : Z) (suffix : string) :
  0 < q <= n -> n < 2 ^ 1023 ->
  exists out, (x <- true_div n q ;; Ok (fmt_1f x ++ suffix)) = Ok out.
Proof.
  intros Hqn Hb.
  destruct (true_div_finite n q) as (m & e & -> & _); try lia. cbn [bind]. eauto.
Qed.

(** C6.  999 prints as [999], 1500 as [1.5k], 2500000 as [2.5M].  A value
    of at least 1e6 prints as its millions to one decimal (digits, a
    point, one digit) and [M]; a value of at least 1e3 and below 1e6 as
    its thousands to one decimal, a nearest tenth, and [k]; a smaller
    value as the plain integer.  The quotient is a float: a value below
    [2^1023] is within its range, and whenever the formatter returns for
    a value of at least 1e6 the result has the [M] form. *)
Theorem fmt_number_spec :
  Pipe._fmt_number (PInt 999) = Ok "999"
  /\ Pipe._fmt_number (PInt 1500) = Ok "1.5k"
  /\ Pipe._fmt_number (PInt 2500000) = Ok "2.5M"
  /\ (forall n, 1000000 <= n < 2 ^ 1023 ->
      exists t out, Pipe._fmt_number (PInt n) = Ok out
                    /\ one_decimal t "M" out /\ near_tenths n 1000000 t)
  /\ (forall n out, 1000000 <= n -> Pipe._fmt_number (PInt n) = Ok out ->
      exists t, one_decimal t "M" out /\ near_tenths n 1000000 t)
  /\ (forall n, 1000 <= n < 1000000 ->
      exists t out, Pipe._fmt_number (PInt n) = Ok out
                    /\ one_decimal t "k" out /\ Z.abs (100 * t - n) <= 50)
  /\ (forall n, n < 1000 -> Pipe._fmt_number (PInt n) = Ok (str_of_Z n)).
Proof.
  split; [reflexivity|]. split; [reflexivity|]. split; [reflexivity|].
  split; [|split; [|split]].
  - intros n Hn. rewrite fmt_number_int.
    assert ((1000000 <=? n) = true) as -> by (apply Z.leb_le; lia).
    destruct (fmt_quotient_returns n 1000000 "M") as [out Hout]; try lia.
    destruct (fmt_quotient n 1000000 "M" out ltac:(lia) Hout) as (t & Ht & Hnear).
    exists t, out. auto.
  - intros n out Hn. rewrite fmt_number_int.
    assert ((1000000 <=? n) = true) as -> by (apply Z.leb_le; lia).
    apply fmt_quotient. lia.
  - intros n Hn. rewrite fmt_number_int.
    assert ((1000000 <=? n) = false) as -> by (apply Z.leb_gt; lia).
    assert ((1000 <=? n) = true) as -> by (apply Z.leb_le; lia).
    destruct (fmt_quotient_returns n 1000 "k") as [out Hout]; try lia.
    destruct (fmt_quotient n 1000 "k" out ltac:(lia) Hout) as (t & Ht & Hnear).
    exists t, out. split; [exact Hout | split; [exact Ht|]].
    unfold near_tenths in Hnear.
    change (2 ^ 52) with 4503599627370496 in Hnear.
    change (2 ^ 53) with 9007199254740992 in Hnear. lia.
  - intros n Hn. rewrite fmt_number_int.
    assert ((1000000 <=? n) = false) as -> by (apply Z.leb_gt; lia).
    assert ((1000 <=? n) = false) as -> by (apply Z.leb_gt; lia).
    reflexivity.
Qed.

Lemma fmt_number_spec_witness :
  (exists t out, Pipe._fmt_number (PInt 123456789) = Ok out
                 /\ one_decimal t "M" out /\ near_tenths 123456789 1000000 t)
  /\ (exists t out, Pipe._fmt_number (PInt 12345) = Ok out
                    /\ one_decimal t "k" out /\ Z.abs (100 * t - 12345) <= 50)
  /\ Pipe._fmt_number (PInt 42) = Ok (str_of_Z 42).
Proof.
  destruct fmt_number_spec as (_ & _ & _ & HM & _ & Hk & Hs).
  split; [apply HM; lia | split; [apply Hk; lia | apply Hs; lia]].
Defined.

Example fmt_number_beyond_floats :
  Pipe._fmt_number (PInt (10 ^ 315)) = Raise OverflowError
  /\ Pipe._fmt_number PNone = Ok "0"
  /\ Pipe._fmt_number (PInt (-5)) = Ok "-5"
  /\ Pipe._fmt_number (PInt 999999) = Ok "1000.0k"
  /\ Pipe._fmt_number (PInt 1150) = Ok "1.1k".
Proof. vm_compute. repeat split. Qed.

End FmtNumber.

(** ** The table renderers *)

Section Tables.

Lemma enumerate_length {A : Type} (l : list A) (i : nat) :
  List.length (enumerate i l) = List.length l.
Proof. revert i; induction l as [|x l IH]; intros i; simpl; [reflexivity | now rewrite IH]. Qed.

Lemma for_each_length {A B : Type} (f : A -> result B) (l : list A) (ys : list B) :
  for_each f l = Ok ys -> List.length ys = List.length l.
Proof.
  revert ys; induction l as [|x l IH]; intros ys; simpl.
  - intros H; injection H as <-. reflexivity.
  - destruct (f x) as [y|]; [|discriminate]. simpl.
    destruct (for_each f l) as [ys'|]; [|discriminate]. simpl.
    intros H; injection H as <-. simpl. now rewrite (IH ys').
Qed.

Lemma for_each_rows {A : Type} (P : A -> Prop) (f : nat * A -> result string) :
  (forall i x, P x -> exists y, f (i, x) = Ok y) ->
  forall l i, Forall P l -> exists ys, for_each f (enumerate i l) = Ok ys.
Proof.
  intros Hf l; induction l as [|x l IH]; intros i HP; simpl.
  - now exists [].
  - inversion HP as [|? ? Hx Hl]; subst.
    destruct (Hf i x Hx) as [y ->]. destruct (IH (S i) Hl) as [ys ->].
    simpl. now exists (y :: ys).
Qed.

Lemma fmt_number_returns (v : pyv) :
  match v with PInt z => (z < 2 ^ 1023)%Z | PStr _ => False | PNone => True end ->
  exists s, Pipe._fmt_number v = Ok s.
Proof.
  destruct v as [|z|s]; [intros _; now exists "0" | | contradiction].
  intros Hz. rewrite fmt_number_int.
  destruct (1000000 <=? z)%Z eqn:H1; [|destruct (1000 <=? z)%Z eqn:H2].
  - apply Z.leb_le in H1.
    destruct (true_div_finite z 1000000) as (m & e & -> & _); try lia. simpl; eauto.
  - apply Z.leb_le in H2.
    destruct (true_div_finite z 1000) as (m & e & -> & _); try lia. simpl; eauto.
  - eauto.
Qed.

Lemma repos_row_returns (i : nat) (r : item) :
  stars_in_range r -> exists y, Pipe.repos_row (i, r) = Ok y.
Proof.
  intros Hr. unfold Pipe.repos_row.
  destruct (fmt_number_returns (get (stargazers_count r) (PInt 0))) as [s ->].
  - unfold stars_in_range in Hr. destruct (stargazers_count r); simpl; trivial. lia.
  - simpl. eauto.
Qed.

Lemma author_returns (r : item) :
  user_not_null r -> exists a, Pipe.author_of r = Ok a.
Proof.
  unfold user_not_null, Pipe.author_of. destruct (user r); simpl; eauto. congruence.
Qed.

Lemma issues_row_returns (i : nat) (r : item) :
  user_not_null r -> exists y, Pipe.issues_row (i, r) = Ok y.
Proof.
  intros Hr. unfold Pipe.issues_row.
  destruct (author_returns r Hr) as [a ->]. simpl. eauto.
Qed.

Lemma prs_row_returns (i : nat) (r : item) :
  user_not_null r /\ pull_request_not_null r -> exists y, Pipe.prs_row (i, r) = Ok y.
Proof.
  intros [Hu Hp]. unfold Pipe.prs_row.
  assert (exists m, Pipe.merged_of r = Ok m) as [m ->].
  { unfold pull_request_not_null in Hp. unfold Pipe.merged_of.
    destruct (pull_request r); simpl; eauto. congruence. }
  destruct (author_returns r Hu) as [a ->]. simpl. eauto.
Qed.

Lemma for_each_rendered {A B : Type} (f : A -> result B) (l : list A) (ys : list B) :
  for_each f l = Ok ys -> Forall2 (fun x y => f x = Ok y) l ys.
Proof.
  revert ys; induction l as [|x l IH]; intros ys; simpl.
  - intros H; injection H as <-. constructor.
  - destruct (f x) as [y|] eqn:Hy; [|discriminate]. simpl.
    destruct (for_each f l) as [ys'|]; [|discriminate]. simpl.
    intros H; injection H as <-. constructor; [exact Hy | now apply IH].
Qed.

(** One renderer: the rows of the first 15 records under the header. *)
Lemma table_rows (header : list string) (row : nat * item -> result string)
      (P : item -> Prop) (items : list item) :
  (forall i x, P x -> exists y, row (i, x) = Ok y) ->
  (Forall P (firstn 15 items) ->
   exists rows,
     (rows <- for_each row (enumerate 1 (firstn 15 items)) ;;
      Ok (join nl (app header rows))) = Ok (table header rows)
     /\ rendered row items rows
     /\ List.length rows = Nat.min 15 (List.length items))
  /\ (forall out,
      (rows <- for_each row (enumerate 1 (firstn 15 items)) ;;
       Ok (join nl (app header rows))) = Ok out ->
      exists rows, out = table header rows
                   /\ rendered row items rows
                   /\ List.length rows <= 15).
Proof.
  intros Hrow. split.
  - intros HP. destruct (for_each_rows P row Hrow _ 1 HP) as [rows Hrows].
    exists rows. rewrite Hrows. split; [reflexivity|].
    split; [now apply for_each_rendered|].
    apply for_each_length in Hrows.
    now rewrite Hrows, enumerate_length, length_firstn.
  - intros out. destruct (for_each row _) as [rows|] eqn:Hrows; [|discriminate].
    simpl. intros H; injection H as <-. exists rows. split; [reflexivity|].
    split; [now apply for_each_rendered|].
    apply for_each_length in Hrows.
    rewrite Hrows, enumerate_length, length_firstn. apply Nat.le_min_l.
Qed.

(** C7.  Each table renderer puts the two header lines and then one row
    for each of the first 15 records and for no other: row [k] is the
    rendering of the [k]-th record under the rank [k].  So there are 15
    rows for 30 records, and a table that is returned never has more
    than 15 data rows. *)
Theorem table_row_cap (items : list item) :
  (Forall stars_in_range (firstn 15 items) ->
   exists rows, Pipe._repos_table items = Ok (table Pipe.repos_header rows)
                /\ rendered Pipe.repos_row items rows
                /\ List.length rows = Nat.min 15 (List.length items))
  /\ (Forall user_not_null (firstn 15 items) ->
      exists rows, Pipe._issues_table items = Ok (table Pipe.issues_header rows)
                   /\ rendered Pipe.issues_row items rows
                   /\ List.length rows = Nat.min 15 (List.length items))
  /\ (Forall (fun r => user_not_null r /\ pull_request_not_null r) (firstn 15 items) ->
      exists rows, Pipe._prs_table items = Ok (table Pipe.prs_header rows)
                   /\ rendered Pipe.prs_row items rows
                   /\ List.length rows = Nat.min 15 (List.length items))
  /\ (forall out, Pipe._repos_table items = Ok out ->
      exists rows, out = table Pipe.repos_header rows
                   /\ rendered Pipe.repos_row items rows
                   /\ List.length rows <= 15)
  /\ (forall out, Pipe._issues_table items = Ok out ->
      exists rows, out = table Pipe.issues_header rows
                   /\ rendered Pipe.issues_row items rows
                   /\ List.length rows <= 15)
  /\ (forall out, Pipe._prs_table items = Ok out ->
      exists rows, out = table Pipe.prs_header rows
                   /\ rendered Pipe.prs_row items rows
                   /\ List.length rows <= 15).
Proof.
  pose proof (table_rows Pipe.repos_header Pipe.repos_row _ items repos_row_returns)
    as [R1 R2].
  pose proof (table_rows Pipe.issues_header Pipe.issues_row _ items issues_row_returns)
    as [I1 I2].
  pose proof (table_rows Pipe.prs_header Pipe.prs_row _ items prs_row_returns)
    as [P1 P2].
  repeat split; assumption.
Qed.

Lemma table_row_cap_witness :
  (exists rows,
     Pipe._repos_table (repeat sample_repo 30) = Ok (table Pipe.repos_header rows)
     /\ rendered Pipe.repos_row (repeat sample_repo 30) rows
     /\ List.length rows = 15)
  /\ (exists rows,
        Pipe._issues_table (repeat sample_issue 30) = Ok (table Pipe.issues_header rows)
        /\ rendered Pipe.issues_row (repeat sample_issue 30) rows
        /\ List.length rows = 15)
  /\ (exists rows,
        Pipe._prs_table (repeat sample_pr 30) = Ok (table Pipe.prs_header rows)
        /\ rendered Pipe.prs_row (repeat sample_pr 30) rows
        /\ List.length rows = 15).
Proof.
  split; [|split].
  - apply (proj1 (table_row_cap (repeat sample_repo 30))).
    repeat constructor.
  - apply (proj1 (proj2 (table_row_cap (repeat sample_issue 30)))).
    repeat constructor; discriminate.
  - apply (proj1 (proj2 (proj2 (table_row_cap (repeat sample_pr 30))))).
    repeat constructor; discriminate.
Defined.

Example tables_rendered :
  Pipe._repos_table [sample_repo]
  = Ok ("| # | Repository | Stars | Language | Description |" ++ nl
        ++ "|---|-----------|-------|----------|-------------|" ++ nl
        ++ "| 1 | [rust-lang/rust](https://github.com/rust-lang/rust) | 98.8k | Rust | "
        ++ "Empowering everyone to build reliable and efficient software... |")
  /\ Pipe._issues_table [sample_issue]
     = Ok ("| # | State | Issue | Author | Created |" ++ nl
           ++ "|---|-------|-------|--------|---------|" ++ nl
           ++ "| 1 | Open | [#7 Hooks run twice](https://github.com/facebook/react/issues/7)"
           ++ " | @gaearon | 2024-05-01 |")
  /\ Pipe._prs_table [sample_pr]
     = Ok ("| # | State | Pull Request | Author | Created |" ++ nl
           ++ "|---|-------|-------------|--------|---------|" ++ nl
           ++ "| 1 | Merged | [#8 Fix hooks](https://github.com/facebook/react/pull/8)"
           ++ " | @gaearon | 2024-05-02 |").
Proof. vm_compute. repeat split. Qed.

End Tables.

(** ** The direct search orchestrator *)

Section DirectFormat.

Variable valves : Valves.
Variable http_get : request -> get_outcome.

Lemma github_api_captures (endpoint : string) (params : option dict) (e : string) :
  http_get (Pipe.api_request valves endpoint params) = GetRaises e
  \/ http_get (Pipe.api_request valves endpoint params) = JsonRaises e ->
  Pipe._github_api valves http_get endpoint params = Some (Pipe.error_payload e).
Proof. unfold Pipe._github_api. intros [-> | ->]; reflexivity. Qed.

Lemma github_api_no_items (endpoint : string) (params : option dict) :
  no_items (http_get (Pipe.api_request valves endpoint params)) ->
  exists data,
    Pipe._github_api valves http_get endpoint params = Some data
    /\ (get_obj (items data) [] = None \/ get_obj (items data) [] = Some []).
Proof.
  unfold Pipe._github_api, no_items.
  destruct (http_get _) as [e|e|b|]; simpl; eauto; [|contradiction].
  intros [H | [H | H]]; exists b; rewrite H; simpl; auto.
Qed.

Lemma search_type_values (user_msg : string) :
  search_type_part (Pipe._extract_search_params user_msg) = "issues"
  \/ search_type_part (Pipe._extract_search_params user_msg) = "prs"
  \/ search_type_part (Pipe._extract_search_params user_msg) = "repos".
Proof.
  rewrite extract_search_type.
  destruct (search_type_cases (lower user_msg)) as [[_ ->]|[[_ ->]|[_ ->]]]; auto.
Qed.

(** C4.  When the search call raises (in [requests.get] or in the JSON
    decoding) [_github_api] returns the error payload instead of raising,
    and whenever the call brings no items, by an error or by a body
    without any, [_direct_format] returns [None] and raises nothing. *)
Theorem direct_format_falls_back (user_msg : string) :
  no_items (http_get (Pipe.api_request valves (fst (search_call user_msg))
                                       (snd (search_call user_msg)))) ->
  Pipe._direct_format valves http_get user_msg = Ok None
  /\ forall e,
       http_get (Pipe.api_request valves (fst (search_call user_msg))
                                  (snd (search_call user_msg))) = GetRaises e
       \/ http_get (Pipe.api_request valves (fst (search_call user_msg))
                                     (snd (search_call user_msg))) = JsonRaises e ->
       Pipe._github_api valves http_get (fst (search_call user_msg))
                        (snd (search_call user_msg))
       = Some (Pipe.error_payload e).
Proof.
  intros Hno. split; [|intros e; apply github_api_captures].
  revert Hno. unfold search_call, Pipe._direct_format.
  pose proof (search_type_values user_msg) as Hst.
  destruct (Pipe._extract_search_params user_msg) as [[st query] sort].
  unfold search_type_part in Hst; simpl in Hst.
  destruct Hst as [-> | [-> | ->]]; simpl; intros Hno;
    apply github_api_no_items in Hno; destruct Hno as (data & -> & [H | H]);
    simpl; rewrite H; reflexivity.
Qed.

End DirectFormat.

Example direct_format_on_other_bodies :
  Pipe._direct_format default_valves
    (fun _ => JsonBody {| items := Missing; total_count := Missing;
                          error := Missing |}) "table of rust repos" = Ok None
  /\ Pipe._direct_format default_valves (fun _ => JsonRaises "Expecting value")
       "chart of open prs" = Ok None
  /\ Pipe._direct_format default_valves (fun _ => JsonNotObject) "table of rust repos"
     = Raise AttributeError.
Proof. repeat split. Qed.

Lemma direct_format_falls_back_witness :
  let down := fun _ : request => GetRaises "Connection refused" in
  Pipe._direct_format default_valves down "table of rust repos" = Ok None
  /\ forall e,
       down (Pipe.api_request default_valves (fst (search_call "table of rust repos"))
                              (snd (search_call "table of rust repos"))) = GetRaises e
       \/ down (Pipe.api_request default_valves (fst (search_call "table of rust repos"))
                                 (snd (search_call "table of rust repos"))) = JsonRaises e ->
       Pipe._github_api default_valves down (fst (search_call "table of rust repos"))
                        (snd (search_call "table of rust repos"))
       = Some (Pipe.error_payload e).
Proof.
  apply (direct_format_falls_back default_valves
           (fun _ => GetRaises "Connection refused") "table of rust repos").
  exact I.
Defined.

(** ** The response cleaner *)

Section Cleaner.

(** *** Lines and joins *)

Lemma lines_before_app (a b : list string) :
  lines_before (app a b) = lines_before a ++ lines_before b.
Proof.
  induction a as [|x a IH]; simpl; [reflexivity|].
  now rewrite IH, !append_assoc.
Qed.

Lemma join_cons (x : string) (l : list string) :
  join nl (x :: l) = x ++ lines_after l.
Proof.
  revert x; induction l as [|y l IH]; intros x.
  - unfold join; simpl. now rewrite append_nil_r.
  - change (join nl (x :: y :: l)) with (x ++ nl ++ join nl (y :: l)).
    rewrite IH. reflexivity.
Qed.

Lemma join_app_cons (a : list string) (x : string) (l : list string) :
  join nl (app a (x :: l)) = lines_before a ++ x ++ lines_after l.
Proof.
  induction a as [|y a IH].
  - apply join_cons.
  - destruct a as [|z a].
    + change (join nl (app [y] (x :: l))) with (y ++ nl ++ join nl (x :: l)).
      rewrite join_cons. simpl. now rewrite !append_assoc.
    + change (join nl (app (y :: z :: a) (x :: l)))
        with (y ++ nl ++ join nl (app (z :: a) (x :: l))).
      rewrite IH. change (lines_before (y :: z :: a)) with (y ++ nl ++ lines_before (z :: a)).
      now rewrite !append_assoc.
Qed.

Lemma lines_after_app_cons (a : list string) (x : string) (l : list string) :
  lines_after (app a (x :: l)) = nl ++ lines_before a ++ x ++ lines_after l.
Proof.
  induction a as [|y a IH].
  - reflexivity.
  - change (lines_after (app (y :: a) (x :: l)))
      with (nl ++ y ++ lines_after (app a (x :: l))).
    rewrite IH. change (lines_before (y :: a)) with (y ++ nl ++ lines_before a).
    now rewrite !append_assoc.
Qed.

Lemma ends_with_nl_app (a b : string) :
  b <> "" -> ends_with_nl (a ++ b) = ends_with_nl b.
Proof.
  intros Hb. induction a as [|c a IH]; [reflexivity|].
  simpl. rewrite IH. destruct (a ++ b) eqn:E; [|reflexivity].
  destruct a; simpl in E; [congruence | discriminate].
Qed.

Lemma lines_before_ends (l : list string) :
  lines_before l = "" \/ ends_with_nl (lines_before l) = true.
Proof.
  induction l as [|x l IH]; [now left | right].
  simpl. rewrite ends_with_nl_app by (destruct (lines_before l); discriminate).
  destruct IH as [-> | IH]; [reflexivity|].
  change (nl ++ lines_before l) with (String LF (lines_before l)).
  simpl. destruct (lines_before l); [discriminate | assumption].
Qed.

Lemma ends_nonspace_app (a b : string) :
  b <> "" -> ends_nonspace (a ++ b) = ends_nonspace b.
Proof.
  intros Hb. induction a as [|c a IH]; [reflexivity|].
  simpl. rewrite IH. destruct (a ++ b) eqn:E; [|reflexivity].
  destruct a; simpl in E; [congruence | discriminate].
Qed.

(** *** Stripping around a text that starts and ends with a non-blank *)

Lemma lstrip_app (u : string) (c : ascii) (r : string) :
  is_space c = false ->
  exists u0 u', u = u0 ++ u' /\ lstrip (u ++ String c r) = u' ++ String c r.
Proof.
  intros Hc. induction u as [|d u IH].
  - exists "", "". simpl. now rewrite Hc.
  - simpl. destruct (is_space d) eqn:Hd.
    + destruct IH as (u0 & u' & -> & ->). exists (String d u0), u'. auto.
    + exists "", (String d u). auto.
Qed.

Lemma rstrip_cons (c : ascii) (r : string) :
  rstrip (String c r)
  = match rstrip r with
    | "" => if is_space c then "" else String c ""
    | r' => String c r'
    end.
Proof. reflexivity. Qed.

Lemma rstrip_app (y w : string) :
  ends_nonspace y = true -> rstrip (y ++ w) = y ++ rstrip w.
Proof.
  induction y as [|c y IH]; [discriminate|]. intros Hy.
  change (String c y ++ w) with (String c (y ++ w)). rewrite rstrip_cons.
  destruct y as [|d y].
  - simpl in *. destruct (rstrip w); [|reflexivity].
    apply negb_true_iff in Hy. now rewrite Hy.
  - rewrite IH by exact Hy. reflexivity.
Qed.

Lemma rstrip_prefix (w : string) :
  rstrip w = "" \/ exists c r r', rstrip w = String c r /\ w = String c r'.
Proof.
  destruct w as [|c w]; [now left|]. simpl.
  destruct (rstrip w); [destruct (is_space c); [now left|]|]; right; eauto.
Qed.

Lemma strip_around (u core w : string) (c : ascii) (r : string) :
  core = String c r -> is_space c = false -> ends_nonspace core = true ->
  exists u0 u', u = u0 ++ u' /\ strip (u ++ core ++ w) = u' ++ core ++ rstrip w.
Proof.
  intros -> Hc He.
  change (u ++ String c r ++ w) with (u ++ String c (r ++ w)).
  destruct (lstrip_app u c (r ++ w) Hc) as (u0 & u' & Hu & Hl).
  exists u0, u'. split; trivial. unfold strip. rewrite Hl.
  change (u' ++ String c (r ++ w)) with (u' ++ String c r ++ w).
  rewrite <- append_assoc, rstrip_app, append_assoc; [reflexivity|].
  now rewrite ends_nonspace_app.
Qed.

(** *** The leaked tokens *)

Lemma occurs_tail (w : string) (c : ascii) (s : string) :
  ~ occurs w (String c s) -> ~ occurs w s.
Proof.
  intros H [a [b Hab]]. apply H. exists (String c a), b. simpl. now rewrite Hab.
Qed.

Lemma not_occurs_prefix (w s : string) : ~ occurs w s -> prefix w s = false.
Proof.
  intros H. destruct (prefix w s) eqn:E; trivial.
  exfalso. apply H. apply prefix_iff in E as [b Hb]. now exists "", b.
Qed.

Lemma cut_at_absent (w s : string) : ~ occurs w s -> cut_at w s = s.
Proof.
  induction s as [|c s IH]; intros H.
  - change (cut_at w "") with (if prefix w "" then "" else "").
    now destruct (prefix w "").
  - change (cut_at w (String c s))
      with (if prefix w (String c s) then "" else String c (cut_at w s)).
    rewrite (not_occurs_prefix _ _ H), IH; [reflexivity | now apply occurs_tail in H].
Qed.

Lemma remove_all_absent (w s : string) : ~ occurs w s -> remove_all w 0 s = s.
Proof.
  induction s as [|c s IH]; intros H; [reflexivity|].
  change (remove_all w 0 (String c s))
    with (if prefix w (String c s) then remove_all w (len w - 1) s
          else String c (remove_all w 0 s)).
  rewrite (not_occurs_prefix _ _ H), IH; [reflexivity | now apply occurs_tail in H].
Qed.

Lemma occurs_longer (w r s : string) : occurs (w ++ r) s -> occurs w s.
Proof.
  intros [a [b ->]]. exists a, (r ++ b). now rewrite append_assoc.
Qed.

(** A text without the opening [<|] of a special token is scanned as it
    is. *)
Lemma strip_tokens_absent (content : string) :
  ~ occurs "<|" content -> Pipe.strip_tokens content = content.
Proof.
  intros H. unfold Pipe.strip_tokens.
  assert (~ occurs "<|im_start|>" content) as H1
    by (intros Ho; apply H; now apply (occurs_longer "<|" "im_start|>")).
  assert (~ occurs "<|im_end|>" content) as H2
    by (intros Ho; apply H; now apply (occurs_longer "<|" "im_end|>")).
  assert (~ occurs "<|endoftext|>" content) as H3
    by (intros Ho; apply H; now apply (occurs_longer "<|" "endoftext|>")).
  now rewrite (cut_at_absent _ _ H1), (remove_all_absent _ _ H2), (remove_all_absent _ _ H3).
Qed.

(** *** The loop *)

Lemma fence_loop_cons (m c : bool) (line : string) (rest : list string) :
  Pipe.fence_loop m c (line :: rest)
  = app (fst (Pipe.fence_step m c line rest))
        (Pipe.fence_loop (fst (snd (Pipe.fence_step m c line rest)))
                         (snd (snd (Pipe.fence_step m c line rest))) rest).
Proof.
  simpl. destruct (Pipe.fence_step m c line rest) as [out [m' c']]. reflexivity.
Qed.

Lemma flags_at_cons (m c : bool) (line : string) (rest : list string) (n : nat) :
  flags_at m c (line :: rest) (S n)
  = flags_at (fst (snd (Pipe.fence_step m c line rest)))
                  (snd (snd (Pipe.fence_step m c line rest))) rest n.
Proof.
  simpl. destruct (Pipe.fence_step m c line rest) as [out [m' c']]. reflexivity.
Qed.

(** The loop on the lines before a position, then from the flags there. *)
Lemma fence_loop_split (before rest : list string) (m c : bool) :
  exists out,
    Pipe.fence_loop m c (app before rest)
    = app out (Pipe.fence_loop
                 (fst (flags_at m c (app before rest) (List.length before)))
                 (snd (flags_at m c (app before rest) (List.length before)))
                 rest).
Proof.
  revert m c; induction before as [|l before IH]; intros m c.
  - now exists [].
  - change (app (l :: before) rest) with (l :: app before rest).
    rewrite fence_loop_cons. cbn [List.length]. rewrite flags_at_cons.
    destruct (IH (fst (snd (Pipe.fence_step m c l (app before rest))))
                 (snd (snd (Pipe.fence_step m c l (app before rest))))) as [out ->].
    exists (app (fst (Pipe.fence_step m c l (app before rest))) out).
    now rewrite app_assoc.
Qed.

(** The turn on a chart starter outside any fence opens a block. *)
Lemma step_opens (line : string) (rest : list string) :
  strip line = "pie showData" ->
  Pipe.fence_step false false line rest
  = ("```mermaid" :: line :: (if closes_before rest then ["```"] else []),
     (negb (closes_before rest), negb (closes_before rest))).
Proof.
  intros H. unfold Pipe.fence_step. rewrite H.
  change (startswith "pie showData" "```") with false.
  change (mem "pie showData" Pipe.chart_starters) with true.
  cbn [negb andb app]. fold (next_not_indented (tl rest)).
  unfold closes_before, next_not_indented.
  destruct rest as [|next after]; [reflexivity|].
  destruct (strip next =? ""); [destruct after as [|a1 after]|]; cbn [andb];
    try reflexivity.
Qed.

(** A turn inside an open block opens nothing. *)
Lemma step_in_block (c : bool) (line : string) (rest : list string) :
  exists c',
    Pipe.fence_step true c line rest
    = (line :: (if closes_before rest then ["```"] else []),
       (negb (closes_before rest), if closes_before rest then false else c')).
Proof.
  unfold Pipe.fence_step.
  exists (if startswith (strip line) "```" then negb c else c).
  set (c1 := if startswith (strip line) "```" then negb c else c).
  replace (negb c1 && negb true && mem (strip line) Pipe.chart_starters) with false
    by (cbn [negb]; now rewrite andb_false_r).
  cbn [app andb]. unfold closes_before, next_not_indented.
  destruct rest as [|next after]; [reflexivity|].
  destruct (strip next =? ""); [destruct after as [|a1 after]|]; cbn [andb negb];
    reflexivity.
Qed.

(** An open block gets its closing fence, at the latest at the end. *)
Lemma open_block_is_closed (lines : list string) (c : bool) :
  exists mid post, Pipe.fence_loop true c lines = app mid ("```" :: post).
Proof.
  revert c; induction lines as [|l lines IH]; intros c.
  - now exists [], [].
  - rewrite fence_loop_cons. destruct (step_in_block c l lines) as [c' ->].
    cbn [fst snd]. destruct (closes_before lines); cbn [negb].
    + exists [l]. eexists. reflexivity.
    + destruct (IH c') as (mid & post & ->).
      exists (l :: mid), post. reflexivity.
Qed.

Lemma closes_before_nonblank (b : string) (rest : list string) :
  strip b <> "" -> closes_before (b :: rest) = false.
Proof.
  intros H. unfold closes_before.
  destruct (strip b =? "") eqn:E; [apply String.eqb_eq in E; congruence | reflexivity].
Qed.

Lemma closes_before_blank (blank : string) (after : list string) :
  strip blank = "" -> closes_before (blank :: after) = next_not_indented after.
Proof. intros H. unfold closes_before. now rewrite H. Qed.

(** The lines of the block, inside the open block, up to the blank line:
    they are copied, and the fence is closed right after them when what
    follows the blank line is not indented. *)
Lemma block_lines (block : list string) (blank : string) (after : list string) :
  Forall indented_line block -> strip blank = "" ->
  forall c, block <> [] ->
  exists mid post,
    Pipe.fence_loop true c (app block (blank :: after))
    = app block (app mid ("```" :: post))
    /\ (next_not_indented after = true -> mid = []).
Proof.
  intros Hblock Hblank. induction Hblock as [|b block Hb Hblock IH]; intros c Hne.
  - congruence.
  - change (app (b :: block) (blank :: after)) with (b :: app block (blank :: after)).
    rewrite fence_loop_cons.
    destruct (step_in_block c b (app block (blank :: after))) as [c' ->].
    cbn [fst snd]. destruct block as [|b' block].
    + cbn [app]. rewrite (closes_before_blank _ _ Hblank).
      destruct (next_not_indented after); cbn [negb].
      * exists []. eexists. split; reflexivity.
      * destruct (open_block_is_closed (blank :: after) c') as (mid & post & ->).
        exists mid, post. split; [reflexivity | discriminate].
    + inversion Hblock as [|? ? [_ Hb'] _]; subst.
      change (app (b' :: block) (blank :: after))
        with (b' :: app block (blank :: after)) in *.
      rewrite (closes_before_nonblank _ _ Hb'). cbn [negb].
      destruct (IH c' ltac:(discriminate)) as (mid & post & -> & Hmid).
      exists mid, post. split; [reflexivity | assumption].
Qed.

(** The chart starter, its block and the blank line, met outside any
    fence. *)
Lemma pie_block_lines (pie : string) (block : list string) (blank : string)
      (after : list string) :
  strip pie = "pie showData" -> Forall indented_line block -> strip blank = "" ->
  exists mid post,
    Pipe.fence_loop false false (pie :: app block (blank :: after))
    = "```mermaid" :: app (pie :: block) (app mid ("```" :: post))
    /\ (next_not_indented after = true -> mid = []).
Proof.
  intros Hpie Hblock Hblank. rewrite fence_loop_cons, (step_opens _ _ Hpie).
  cbn [fst snd]. destruct block as [|b block].
  - cbn [app]. rewrite (closes_before_blank _ _ Hblank).
    destruct (next_not_indented after); cbn [negb].
    + exists []. eexists. split; reflexivity.
    + destruct (open_block_is_closed (blank :: after) true) as (mid & post & ->).
      exists mid, post. split; [reflexivity | discriminate].
  - inversion Hblock as [|? ? [_ Hb] _]; subst.
    change (app (b :: block) (blank :: after)) with (b :: app block (blank :: after)).
    rewrite (closes_before_nonblank _ _ Hb). cbn [negb].
    destruct (block_lines (b :: block) blank after Hblock Hblank true
                ltac:(discriminate)) as (mid & post & Hloop & Hmid).
    change (app (b :: block) (blank :: after))
      with (b :: app block (blank :: after)) in Hloop.
    rewrite Hloop. exists mid, post. split; [reflexivity | assumption].
Qed.

Lemma suffix_ends_with_nl (u u0 u' : string) :
  u = u0 ++ u' -> u = "" \/ ends_with_nl u = true ->
  u' = "" \/ ends_with_nl u' = true.
Proof.
  intros -> H. destruct u' as [|c u']; [now left | right].
  destruct H as [H|H].
  - destruct u0; discriminate.
  - now rewrite ends_with_nl_app in H by discriminate.
Qed.

Lemma rstrip_lines_after (l : list string) :
  rstrip (lines_after l) = "" \/ startswith (rstrip (lines_after l)) nl = true.
Proof.
  destruct (rstrip_prefix (lines_after l)) as [H | (c & r & r' & Hr & Hw)]; [now left|].
  right. rewrite Hr. destruct l as [|x l]; [discriminate|].
  change (lines_after (x :: l)) with (String LF (x ++ lines_after l)) in Hw.
  injection Hw as <- _. unfold startswith, nl. simpl.
  destruct (ascii_dec LF LF); [now destruct r | congruence].
Qed.


End Cleaner.

Example clean_response_examples :
  Pipe._clean_response
    ("Here is the chart:" ++ nl ++ "pie showData" ++ nl ++ "    title Repos" ++ nl
     ++ "    " ++ dq ++ "Rust" ++ dq ++ " : 3" ++ nl ++ nl ++ "Done.<|im_end|>")
  = "Here is the chart:" ++ nl ++ "```mermaid" ++ nl ++ "pie showData" ++ nl
    ++ "    title Repos" ++ nl ++ "    " ++ dq ++ "Rust" ++ dq ++ " : 3" ++ nl
    ++ "```" ++ nl ++ nl ++ "Done."
  /\ Pipe._clean_response
       ("pie showData" ++ nl ++ "    a : 1" ++ nl ++ nl ++ "    indented" ++ nl ++ "end")
     = "```mermaid" ++ nl ++ "pie showData" ++ nl ++ "    a : 1" ++ nl ++ nl
       ++ "    indented" ++ nl ++ "end" ++ nl ++ "```"
  /\ Pipe._clean_response ("ok<|im_start|>" ++ nl ++ "pie showData" ++ nl ++ "    a : 1" ++ nl)
     = "ok".
Proof. vm_compute. repeat split. Qed.


(** ** The two scenarios of the specification, end to end *)

Example scenario_issues_pie_chart :
  Pipe._direct_format default_valves two_issues "pie chart of issues in facebook/react"
  = Ok (Some ("Found **1.2k** issues for `repo:facebook/react`" ++ nl ++ nl
              ++ "```mermaid" ++ nl ++ "pie showData" ++ nl
              ++ "    title " ++ dq ++ "Issues by State" ++ dq ++ nl
              ++ "    " ++ dq ++ "Open" ++ dq ++ " : 1" ++ nl
              ++ "    " ++ dq ++ "Closed" ++ dq ++ " : 1" ++ nl ++ "```")).
Proof. vm_compute. reflexivity. Qed.

Example scenario_popular_python_table :
  Pipe._direct_format default_valves
    (fun _ => JsonBody {| items := Val [sample_repo]; total_count := Val 2500000%Z;
                          error := Missing |})
    "show me a table of popular python repos"
  = Ok (Some ("Found **2.5M** repositories for `language:python stars:>100`" ++ nl ++ nl
              ++ table Pipe.repos_header
                   ["| 1 | [rust-lang/rust](https://github.com/rust-lang/rust) | 98.8k | Rust | "
                    ++ "Empowering everyone to build reliable and efficient software... |"])).
Proof. vm_compute. reflexivity. Qed.

Example bar_chart_rendered :
  Pipe._repos_chart [sample_repo; sample_repo] "bar"
  = Ok ("```mermaid" ++ nl ++ "xychart-beta" ++ nl
        ++ "    title " ++ dq ++ "Top Repositories by Stars" ++ dq ++ nl
        ++ "    x-axis [" ++ dq ++ "rust" ++ dq ++ ", " ++ dq ++ "rust" ++ dq ++ "]" ++ nl
        ++ "    y-axis " ++ dq ++ "Stars" ++ dq ++ " 0 --> 118518" ++ nl
        ++ "    bar [98765, 98765]" ++ nl ++ "```").
Proof. vm_compute. reflexivity. Qed.

(* ================================================================== *)
(** * Part IV.  Further properties of the code *)
(* ================================================================== *)

(** ** Format and domain detection *)

Section MoreDetection.

Lemma occurs_inner (x w y s : string) : occurs (x ++ w ++ y) s -> occurs w s.
Proof.
  intros [a [b ->]]. exists (a ++ x), (y ++ b). now rewrite !append_assoc.
Qed.

(** The format is [chart] exactly when the lowercased message contains
    "chart" or "graph" (the three longer chart keywords add nothing),
    [table] exactly when it contains "table" or "tabular" and is no
    chart, and [default] otherwise. *)
Theorem detect_format_spec (user_msg : string) :
  (Pipe._detect_format user_msg = "chart"
   <-> occurs "chart" (lower user_msg) \/ occurs "graph" (lower user_msg))
  /\ (Pipe._detect_format user_msg = "table"
      <-> (occurs "table" (lower user_msg) \/ occurs "tabular" (lower user_msg))
          /\ ~ (occurs "chart" (lower user_msg) \/ occurs "graph" (lower user_msg)))
  /\ (Pipe._detect_format user_msg = "default"
      <-> ~ (occurs "chart" (lower user_msg) \/ occurs "graph" (lower user_msg))
          /\ ~ (occurs "table" (lower user_msg) \/ occurs "tabular" (lower user_msg))).
Proof.
  unfold Pipe._detect_format. set (msg := lower user_msg).
  assert (any_in ["pie chart"; "bar chart"; "chart"; "line chart"; "graph"] msg = true
          <-> occurs "chart" msg \/ occurs "graph" msg) as Hchart.
  { rewrite any_in_iff. split.
    - intros [w [Hin Hw]]. simpl in Hin.
      destruct Hin as [<-|[<-|[<-|[<-|[<-|[]]]]]];
        [left; now apply (occurs_inner "pie " "chart" "")
        |left; now apply (occurs_inner "bar " "chart" "")
        |now left
        |left; now apply (occurs_inner "line " "chart" "")
        |now right].
    - intros [H|H]; [exists "chart" | exists "graph"];
        (split; [simpl; tauto | assumption]). }
  assert (any_in ["table"; "tabular"] msg = true
          <-> occurs "table" msg \/ occurs "tabular" msg) as Htable.
  { rewrite any_in_iff. split.
    - intros [w [Hin Hw]]. simpl in Hin. destruct Hin as [<-|[<-|[]]]; auto.
    - intros [H|H]; [exists "table" | exists "tabular"];
        (split; [simpl; tauto | assumption]). }
  destruct (any_in ["pie chart"; "bar chart"; "chart"; "line chart"; "graph"] msg);
    [|destruct (any_in ["table"; "tabular"] msg)].
  - assert (occurs "chart" msg \/ occurs "graph" msg) as Hyes
      by (apply Hchart; reflexivity).
    repeat split; try discriminate; try tauto.
  - assert (~ (occurs "chart" msg \/ occurs "graph" msg)) as Hno
      by (intros H; apply Hchart in H; discriminate).
    assert (occurs "table" msg \/ occurs "tabular" msg) as Hyes
      by (apply Htable; reflexivity).
    repeat split; try discriminate; try tauto.
  - assert (~ (occurs "chart" msg \/ occurs "graph" msg)) as Hno
      by (intros H; apply Hchart in H; discriminate).
    assert (~ (occurs "table" msg \/ occurs "tabular" msg)) as Hno'
      by (intros H; apply Htable in H; discriminate).
    repeat split; try discriminate; try tauto.
Qed.

End MoreDetection.

Section MoreExtractor.

Lemma any_in_issue (msg : string) :
  any_in ["issue"; "bug"; "issues"] msg = true
  <-> occurs "issue" msg \/ occurs "bug" msg.
Proof.
  rewrite any_in_iff. split.
  - intros [w [Hin Hw]]. simpl in Hin.
    destruct Hin as [<-|[<-|[<-|[]]]];
      [now left | now right | left; now apply (occurs_inner "" "issue" "s")].
  - intros [H|H]; [exists "issue" | exists "bug"]; (split; [simpl; tauto | assumption]).
Qed.

Lemma any_in_pr (msg : string) :
  any_in ["pull request"; "pr "; "prs"; "pull requests"] msg = true
  <-> occurs "pull request" msg \/ occurs "pr " msg \/ occurs "prs" msg.
Proof.
  rewrite any_in_iff. split.
  - intros [w [Hin Hw]]. simpl in Hin.
    destruct Hin as [<-|[<-|[<-|[<-|[]]]]]; auto.
    left. now apply (occurs_inner "" "pull request" "s").
  - intros [H|[H|H]]; [exists "pull request" | exists "pr " | exists "prs"];
      (split; [simpl; tauto | assumption]).
Qed.

(** The domain is [issues] exactly when the lowercased message contains
    "issue" or "bug", [prs] exactly when it does not and contains "pull
    request", "pr " or "prs", and [repos] in every other case: one of
    the three, always. *)
Theorem search_type_spec (user_msg : string) :
  (search_type_part (Pipe._extract_search_params user_msg) = "issues"
   <-> occurs "issue" (lower user_msg) \/ occurs "bug" (lower user_msg))
  /\ (search_type_part (Pipe._extract_search_params user_msg) = "prs"
      <-> ~ (occurs "issue" (lower user_msg) \/ occurs "bug" (lower user_msg))
          /\ (occurs "pull request" (lower user_msg) \/ occurs "pr " (lower user_msg)
              \/ occurs "prs" (lower user_msg)))
  /\ (search_type_part (Pipe._extract_search_params user_msg) = "repos"
      <-> ~ (occurs "issue" (lower user_msg) \/ occurs "bug" (lower user_msg))
          /\ ~ (occurs "pull request" (lower user_msg) \/ occurs "pr " (lower user_msg)
                \/ occurs "prs" (lower user_msg))).
Proof.
  rewrite extract_search_type. unfold Pipe.search_type_of.
  set (msg := lower user_msg).
  pose proof (any_in_issue msg) as Hi. pose proof (any_in_pr msg) as Hp.
  destruct (any_in ["issue"; "bug"; "issues"] msg);
    [|destruct (any_in ["pull request"; "pr "; "prs"; "pull requests"] msg)].
  - assert (occurs "issue" msg \/ occurs "bug" msg) as A by (apply Hi; reflexivity).
    repeat split; try discriminate; try tauto.
  - assert (~ (occurs "issue" msg \/ occurs "bug" msg)) as A
      by (intros H; apply Hi in H; discriminate).
    assert (occurs "pull request" msg \/ occurs "pr " msg \/ occurs "prs" msg) as B
      by (apply Hp; reflexivity).
    repeat split; try discriminate; try tauto.
  - assert (~ (occurs "issue" msg \/ occurs "bug" msg)) as A
      by (intros H; apply Hi in H; discriminate).
    assert (~ (occurs "pull request" msg \/ occurs "pr " msg \/ occurs "prs" msg)) as B
      by (intros H; apply Hp in H; discriminate).
    repeat split; try discriminate; try tauto.
Qed.

Example domains :
  search_type_part (Pipe._extract_search_params "Debugging tools") = "issues"
  /\ search_type_part (Pipe._extract_search_params "wordpr ess themes") = "prs"
  /\ search_type_part (Pipe._extract_search_params "open pr") = "repos".
Proof. repeat split. Qed.

(** The sort key is [created] exactly when the message holds an
    owner/name token and its domain is issues or pull requests, and
    [stars] in every other case. *)
Theorem sort_key_spec (user_msg : string) :
  (sort_part (Pipe._extract_search_params user_msg) = "created"
   <-> has_repo_token user_msg
       /\ (search_type_part (Pipe._extract_search_params user_msg) = "issues"
           \/ search_type_part (Pipe._extract_search_params user_msg) = "prs"))
  /\ (sort_part (Pipe._extract_search_params user_msg) = "stars"
      <-> ~ (has_repo_token user_msg
             /\ (search_type_part (Pipe._extract_search_params user_msg) = "issues"
                 \/ search_type_part (Pipe._extract_search_params user_msg) = "prs"))).
Proof.
  rewrite extract_search_type.
  destruct (Pipe.repo_search user_msg) as [tok|] eqn:Hs.
  - assert (has_repo_token user_msg) as Htok
      by (exists tok; now apply repo_search_sound).
    destruct (mem (Pipe.search_type_of (lower user_msg)) ["issues"; "prs"]) eqn:Hm.
    + rewrite (extract_repo_branch _ _ Hs Hm). apply mem_issues_prs in Hm.
      unfold sort_part; simpl. repeat split; try discriminate; tauto.
    + rewrite extract_keyword_branches by auto. unfold sort_part; simpl.
      assert (~ (Pipe.search_type_of (lower user_msg) = "issues"
                 \/ Pipe.search_type_of (lower user_msg) = "prs")) as Hno
        by (intros H; apply mem_issues_prs in H; congruence).
      repeat split; try discriminate; tauto.
  - assert (~ has_repo_token user_msg) as Hno by now apply repo_search_none.
    rewrite extract_keyword_branches by auto. unfold sort_part; simpl.
    repeat split; try discriminate; tauto.
Qed.

(** The language names a qualifier is built for. *)
Lemma language_qualifiers_aux (k : string) :
  mem k Pipe.languages = true -> 2 < len k -> In k qualifier_languages.
Proof.
  unfold mem. rewrite existsb_exists. intros [l [Hin Hl]] Hlen.
  apply String.eqb_eq in Hl. subst l. unfold Pipe.languages in Hin.
  simpl in Hin.
  repeat (destruct Hin as [<-|Hin]; [try (simpl; tauto); simpl in Hlen; lia|]).
  contradiction.
Qed.

Lemma mem_qualifier_languages (k : string) :
  2 < len k -> mem k Pipe.languages = mem k qualifier_languages.
Proof.
  intros Hlen. destruct (mem k qualifier_languages) eqn:Hq.
  - unfold mem in Hq. apply existsb_exists in Hq as [l [Hin Hl]].
    apply String.eqb_eq in Hl. subst l. unfold qualifier_languages in Hin.
    simpl in Hin.
    repeat (destruct Hin as [<-|Hin]; [reflexivity|]). contradiction.
  - destruct (mem k Pipe.languages) eqn:Hm; trivial.
    apply language_qualifiers_aux in Hm; trivial.
    assert (mem k qualifier_languages = true) as E; [|congruence].
    unfold mem. apply existsb_exists. exists k. split; trivial.
    apply String.eqb_refl.
Qed.

Lemma keyword_parts_qualifiers (keywords : list string) :
  (forall k, In k keywords -> 2 < len k) ->
  keyword_parts keywords
  = app (filter (fun k => negb (mem k qualifier_languages)) keywords)
        (map (fun k => "language:" ++ k)
             (filter (fun k => mem k qualifier_languages) keywords)).
Proof.
  intros Hlen. unfold keyword_parts. f_equal; [|f_equal];
    apply filter_ext_in; intros k Hk;
    now rewrite (mem_qualifier_languages k (Hlen k Hk)).
Qed.

(** The query when the repo branch is not taken and a keyword is left:
    the keywords that are no language names in their order, then a
    [language:] qualifier for each keyword that is a language name,
    then [stars:>100] when the message holds popularity language.  A
    keyword has more than two characters, so of the fifteen language
    names "go" and "c" never give a qualifier (nor a topic). *)
Theorem keyword_query_spec (user_msg : string) :
  ~ has_repo_token user_msg
  \/ search_type_part (Pipe._extract_search_params user_msg) = "repos" ->
  Pipe.keywords_of (lower user_msg) <> [] ->
  let keywords := Pipe.keywords_of (lower user_msg) in
  let topics := filter (fun k => negb (mem k qualifier_languages)) keywords in
  let langs := filter (fun k => mem k qualifier_languages) keywords in
  let parts := app topics (map (fun k => "language:" ++ k) langs) in
  parts <> []
  /\ (has_popularity (lower user_msg) ->
      query_part (Pipe._extract_search_params user_msg)
      = join " " (app parts ["stars:>100"]))
  /\ (~ has_popularity (lower user_msg) ->
      query_part (Pipe._extract_search_params user_msg) = join " " parts).
Proof.
  intros Hbranch Hne. rewrite extract_search_type in Hbranch.
  rewrite extract_keyword_branches.
  2: { destruct Hbranch as [H|H]; [left; now apply repo_search_none | right; now rewrite H]. }
  unfold query_part; cbn [fst snd].
  pose proof (keywords_long (lower user_msg)) as Hlen.
  destruct (Pipe.keywords_of (lower user_msg)) as [|k ks] eqn:Hk; [congruence|].
  destruct (keyword_parts_nonempty (k :: ks) Hne Hlen) as (p & ps & Hp & _).
  rewrite (keyword_parts_qualifiers (k :: ks) Hlen) in Hp.
  cbv zeta. split; [rewrite Hp; discriminate|]. split; intros Hpop.
  - apply popularity_iff in Hpop. rewrite (keyword_query_popular _ _ Hpop).
    now rewrite (keyword_parts_qualifiers (k :: ks) Hlen).
  - assert (py_in "popular" (lower user_msg) || py_in "top" (lower user_msg)
            || py_in "trending" (lower user_msg) = false) as Hno.
    { apply not_true_is_false. intros H. now apply popularity_iff in H. }
    rewrite (keyword_query_plain _ _ Hno).
    rewrite (keyword_parts_qualifiers (k :: ks) Hlen), Hp. reflexivity.
Qed.

Lemma keyword_query_spec_witness :
  let user_msg := "popular go and rust web frameworks" in
  let keywords := Pipe.keywords_of (lower user_msg) in
  let topics := filter (fun k => negb (mem k qualifier_languages)) keywords in
  let langs := filter (fun k => mem k qualifier_languages) keywords in
  let parts := app topics (map (fun k => "language:" ++ k) langs) in
  parts <> []
  /\ (has_popularity (lower user_msg) ->
      query_part (Pipe._extract_search_params user_msg)
      = join " " (app parts ["stars:>100"]))
  /\ (~ has_popularity (lower user_msg) ->
      query_part (Pipe._extract_search_params user_msg) = join " " parts).
Proof.
  apply (keyword_query_spec "popular go and rust web frameworks").
  - right. reflexivity.
  - discriminate.
Defined.

Example go_and_c_are_no_languages :
  Pipe._extract_search_params "popular go repos" = ("repos", "stars:>1000", "stars")
  /\ Pipe._extract_search_params "c compilers in rust"
     = ("repos", "compilers language:rust", "stars").
Proof. repeat split. Qed.

End MoreExtractor.

(** ** The text formatter *)

Section Trunc.

Lemma str_of_Z_nonempty (z : Z) : str_of_Z z <> "".
Proof.
  destruct z as [|p|p].
  - discriminate.
  - apply (str_of_Z_digits (Z.pos p)). lia.
  - unfold str_of_Z. simpl. discriminate.
Qed.

Lemma truthy_nonempty (s : pyv) : truthy s = true -> py_str s <> "".
Proof.
  destruct s as [|z|t]; simpl; [discriminate | intros _; apply str_of_Z_nonempty|].
  intros H Ht. subst t. discriminate.
Qed.

Lemma take_length_le (n : nat) (s : string) : len (take n s) <= n.
Proof.
  revert s; induction n as [|n IH]; intros [|c s]; simpl; try lia.
  unfold len in *. simpl. specialize (IH s). lia.
Qed.

(** [_trunc] never returns the empty string and never more than three
    characters over the budget: a value that is falsy gives a dash, a
    text that fits is returned as it is, and a longer one keeps its
    first [length] characters, followed by three dots. *)
Theorem trunc_bounds (s : pyv) (n : nat) :
  Pipe._trunc s n <> ""
  /\ len (Pipe._trunc s n) <= n + 3
  /\ (truthy s = false -> Pipe._trunc s n = "-")
  /\ (truthy s = true -> len (py_str s) <= n -> Pipe._trunc s n = py_str s)
  /\ (truthy s = true -> n < len (py_str s) ->
      Pipe._trunc s n = take n (py_str s) ++ "..."
      /\ len (take n (py_str s)) = n
      /\ exists rest, py_str s = take n (py_str s) ++ rest).
Proof.
  unfold Pipe._trunc. destruct (truthy s) eqn:Ht; cbn [negb].
  - pose proof (truthy_nonempty s Ht) as Hne.
    destruct (n <? len (py_str s))%nat eqn:Hl.
    + apply Nat.ltb_lt in Hl. repeat split; try discriminate; try lia.
      * destruct (take n (py_str s)); discriminate.
      * rewrite length_append. pose proof (take_length_le n (py_str s)).
        change (len "...") with 3. lia.
      * apply take_length. lia.
      * exists (drop n (py_str s)). symmetry. apply take_drop.
    + apply Nat.ltb_ge in Hl. repeat split; try discriminate; trivial; try lia.
  - repeat split; try discriminate; trivial. simpl. lia.
Qed.

Example trunc_examples :
  Pipe._trunc PNone 60 = "-" /\ Pipe._trunc (PStr "") 60 = "-"
  /\ Pipe._trunc (PInt 0) 60 = "-" /\ Pipe._trunc (PInt 12) 1 = "1..."
  /\ Pipe._trunc (PStr "react") 5 = "react" /\ Pipe._trunc (PStr "react") 0 = "...".
Proof. repeat split. Qed.

End Trunc.

(** ** The direct search orchestrator, when the search brings items *)

Section DirectFormatReturns.

Variable valves : Valves.
Variable http_get : request -> get_outcome.

Lemma bind_ok {A B : Type} (r : result A) (k : A -> result B) (b : B) :
  bind r k = Ok b -> exists a, r = Ok a /\ k a = Ok b.
Proof. destruct r as [a|e]; simpl; [eauto | discriminate]. Qed.

(** When [_direct_format] returns a text, the search brought a non-empty
    list of items and the text starts with [Found **], so it is not
    empty; when it returns [None], the search brought no items; and a
    body that is no JSON object makes it raise. *)
Theorem direct_format_returns (user_msg : string) :
  (forall out, Pipe._direct_format valves http_get user_msg = Ok (Some out) ->
     (exists rest, out = "Found **" ++ rest)
     /\ ~ no_items (http_get (Pipe.api_request valves (fst (search_call user_msg))
                                               (snd (search_call user_msg)))))
  /\ (Pipe._direct_format valves http_get user_msg = Ok None ->
      no_items (http_get (Pipe.api_request valves (fst (search_call user_msg))
                                           (snd (search_call user_msg)))))
  /\ (http_get (Pipe.api_request valves (fst (search_call user_msg))
                                 (snd (search_call user_msg))) = JsonNotObject ->
      Pipe._direct_format valves http_get user_msg = Raise AttributeError).
Proof.
  unfold search_call, Pipe._direct_format.
  pose proof (search_type_values user_msg) as Hst.
  destruct (Pipe._extract_search_params user_msg) as [[st query] sort].
  unfold search_type_part in Hst; cbn [fst snd] in Hst.
  destruct Hst as [-> | [-> | ->]]; cbn [String.eqb Ascii.eqb Bool.eqb fst snd];
    unfold Pipe._github_api;
    destruct (http_get _) as [e|e|b|] eqn:Ho;
    cbn [Pipe.as_dict bind Pipe.error_payload items get_obj no_items];
    try (repeat split; intros; try discriminate; exact I).
  all: destruct (items b) as [| |[|it its]] eqn:Hi; cbn [get_obj];
    try (repeat split; intros; try discriminate; now auto).
  all: split; [|split; [|intros; discriminate]].
  all: try (intros out H; apply bind_ok in H as (n & _ & H);
            destruct (_ =? "table"); try (apply bind_ok in H as (t & _ & H));
            injection H as <-;
            (split; [rewrite !append_assoc; eexists; reflexivity
                    |intros [E|[E|E]]; discriminate])).
  all: intros H; apply bind_ok in H as (n & _ & H);
    destruct (_ =? "table"); try (apply bind_ok in H as (t & _ & H));
    discriminate.
Qed.

End DirectFormatReturns.

(** ** The response cleaner, on any text *)

Section MoreCleaner.

Lemma fence_step_cases (m c : bool) (line : string) (rest : list string) :
  exists c',
    (Pipe.fence_step m c line rest = ([line], (m, c'))
     /\ (m = true -> closes_before rest = false))
    \/ (m = false /\ mem (strip line) Pipe.chart_starters = true
        /\ closes_before rest = false
        /\ Pipe.fence_step m c line rest = (["```mermaid"; line], (true, true)))
    \/ (m = false /\ mem (strip line) Pipe.chart_starters = true
        /\ closes_before rest = true
        /\ Pipe.fence_step m c line rest
           = (["```mermaid"; line; "```"], (false, false)))
    \/ (m = true /\ closes_before rest = true
        /\ Pipe.fence_step m c line rest = ([line; "```"], (false, false))).
Proof.
  destruct m.
  - destruct (step_in_block c line rest) as [c' ->].
    destruct (closes_before rest); [exists false | exists c']; cbn [negb]; auto 6.
  - unfold Pipe.fence_step.
    set (c1 := if startswith (strip line) "```" then negb c else c).
    cbn [negb]. rewrite andb_true_r.
    destruct (negb c1 && mem (strip line) Pipe.chart_starters) eqn:Ho.
    + apply andb_true_iff in Ho as [_ Hs].
      fold (next_not_indented (tl (tl rest))).
      assert (Hc : (true && match rest with
                            | next :: after =>
                                (strip next =? "") &&
                                match after with
                                | [] => true
                                | after1 :: _ => negb (startswith after1 "    ")
                                end
                            | [] => false
                            end) = closes_before rest)
        by (destruct rest as [|? [|? ?]]; reflexivity).
      cbn [andb] in Hc. cbn [andb]. rewrite Hc.
      exists true. destruct (closes_before rest); cbn [app]; auto 8.
    + exists c1. left. split; [reflexivity | discriminate].
Qed.

(** The scan copies the lines and adds only fences, an opening one before
    a chart starter and a closing one for every opening one. *)
Lemma fence_loop_fenced (lines : list string) :
  forall m c, fenced m lines (Pipe.fence_loop m c lines).
Proof.
  induction lines as [|line rest IH]; intros m c.
  - destruct m; constructor.
  - rewrite fence_loop_cons.
    destruct (fence_step_cases m c line rest)
      as [c' [[-> _]|[(-> & Hs & Hc & ->)|[(-> & Hs & Hc & ->)|(-> & Hc & ->)]]]];
      cbn [fst snd app].
    + constructor. apply IH.
    + apply fenced_open; [exact Hs|]. constructor. apply IH.
    + apply fenced_open; [exact Hs|].
      destruct rest as [|next rest]; [discriminate|].
      unfold closes_before in Hc. apply andb_true_iff in Hc as [Hb _].
      apply String.eqb_eq in Hb. apply fenced_close; [exact Hb | apply IH].
    + destruct rest as [|next rest]; [discriminate|].
      unfold closes_before in Hc. apply andb_true_iff in Hc as [Hb _].
      apply String.eqb_eq in Hb. apply fenced_close; [exact Hb | apply IH].
Qed.

Lemma fenced_length (m : bool) (lines out : list string) :
  fenced m lines out ->
  exists k, List.length out = List.length lines + 2 * k + (if m then 1 else 0).
Proof.
  induction 1 as [| |m line rest out _ [k IH]|line rest out _ _ [k IH]
                  |line next rest out _ _ [k IH]]; cbn [List.length] in *.
  - now exists 0.
  - now exists 0.
  - exists k. lia.
  - exists (S k). lia.
  - exists k. lia.
Qed.

(** Every line of the input is a line of the output, in the same order,
    the lines added are fences, [```mermaid] before a chart starter and
    [```] after, in pairs: the output has an even number of lines more
    than the input. *)
Theorem cleaner_adds_fences_in_pairs (lines : list string) (in_code : bool) :
  fenced false lines (Pipe.fence_loop false in_code lines)
  /\ exists k, List.length (Pipe.fence_loop false in_code lines)
               = List.length lines + 2 * k.
Proof.
  split; [apply fence_loop_fenced|].
  destruct (fenced_length _ _ _ (fence_loop_fenced lines false in_code)) as [k Hk].
  exists k. lia.
Qed.

(** *** A text without chart starters *)

Lemma split_char_nonempty (sep : ascii) (s : string) : split_char sep s <> [].
Proof.
  induction s as [|c s IH]; simpl; [discriminate|].
  destruct (Ascii.eqb c sep); [discriminate|].
  destruct (split_char sep s); [congruence | discriminate].
Qed.

(** [nl.join(s.split(nl))] is [s]. *)
Lemma join_split (s : string) : join nl (split_char LF s) = s.
Proof.
  induction s as [|c s IH]; [reflexivity|].
  pose proof (split_char_nonempty LF s) as Hne.
  cbn [split_char]. destruct (Ascii.eqb c LF) eqn:Hc.
  - apply Ascii.eqb_eq in Hc. subst c.
    destruct (split_char LF s) as [|h t]; [congruence|].
    change (join nl ("" :: h :: t)) with ("" ++ nl ++ join nl (h :: t)).
    rewrite IH. reflexivity.
  - destruct (split_char LF s) as [|h t]; [congruence|].
    rewrite join_cons in *. simpl. now rewrite IH.
Qed.

Lemma fence_loop_no_starter (lines : list string) :
  no_starter lines -> forall c, Pipe.fence_loop false c lines = lines.
Proof.
  induction 1 as [|line rest Hl _ IH]; intros c; [reflexivity|].
  rewrite fence_loop_cons. unfold Pipe.fence_step. rewrite Hl.
  rewrite andb_false_r. cbn [andb fst snd app negb]. now rewrite IH.
Qed.



End MoreCleaner.

(** ** Sorting *)

Section Sorting.

Context {A : Type} (key : A -> Z).

Lemma insert_by_perm (x : A) (l : list A) :
  Permutation (insert_by key x l) (x :: l).
Proof.
  induction l as [|y l IH]; simpl; [reflexivity|].
  destruct (key x <=? key y)%Z; [reflexivity|].
  rewrite IH. apply perm_swap.
Qed.

Lemma sorted_by_perm (l : list A) : Permutation (sorted_by key l) l.
Proof.
  induction l as [|x l IH]; simpl; [reflexivity|].
  rewrite insert_by_perm. now constructor.
Qed.

Lemma insert_by_sorted (x : A) (l : list A) :
  StronglySorted (fun a b => (key a <= key b)%Z) l ->
  StronglySorted (fun a b => (key a <= key b)%Z) (insert_by key x l).
Proof.
  induction 1 as [|y l Hs IH Hy]; simpl.
  - repeat constructor.
  - destruct (key x <=? key y)%Z eqn:E.
    + apply Z.leb_le in E. constructor; [now constructor|].
      constructor; trivial.
      eapply Forall_impl; [|exact Hy]. simpl. intros; lia.
    + apply Z.leb_gt in E. constructor; trivial.
      eapply Permutation_Forall; [symmetry; apply insert_by_perm|].
      constructor; [lia | exact Hy].
Qed.

Lemma sorted_by_sorted (l : list A) :
  StronglySorted (fun a b => (key a <= key b)%Z) (sorted_by key l).
Proof.
  induction l as [|x l IH]; simpl; [constructor | now apply insert_by_sorted].
Qed.

End Sorting.

Section Prefixes.

Context {A : Type}.

Lemma firstn_incl (n : nat) (l : list A) (x : A) :
  In x (firstn n l) -> In x l.
Proof.
  revert n; induction l as [|y l IH]; intros [|n]; simpl; try tauto.
  intros [E|H]; [now left | right; eauto].
Qed.

Lemma sorted_weaken (R R' : A -> A -> Prop) (l : list A) :
  (forall a b, R a b -> R' a b) -> StronglySorted R l -> StronglySorted R' l.
Proof.
  intros HR; induction 1 as [|x l Hs IH Hx]; constructor; trivial.
  eapply Forall_impl; [|exact Hx]. apply HR.
Qed.

Lemma firstn_sorted (R : A -> A -> Prop) (n : nat) (l : list A) :
  StronglySorted R l -> StronglySorted R (firstn n l).
Proof.
  intros H; revert n; induction H as [|x l Hs IH Hx]; intros [|n]; simpl;
    try constructor; auto.
  apply Forall_forall. intros y Hy. apply firstn_incl in Hy.
  revert y Hy. now apply Forall_forall.
Qed.

Lemma sorted_app (R : A -> A -> Prop) (l1 l2 : list A) :
  StronglySorted R (app l1 l2) ->
  forall a b, In a l1 -> In b l2 -> R a b.
Proof.
  induction l1 as [|x l1 IH]; simpl; intros H a b Ha Hb; [contradiction|].
  inversion H as [|? ? Hs Hx]; subst. destruct Ha as [->|Ha].
  - rewrite Forall_forall in Hx. apply Hx, in_or_app. now right.
  - now apply IH.
Qed.

End Prefixes.

(** ** The pie chart of repositories *)

Section PieChart.

Open Scope Z_scope.

Lemma bump_keys (k : string) (d : list (string * Z)) :
  forall k', In k' (map fst (Pipe.bump k d)) <-> k' = k \/ In k' (map fst d).
Proof.
  induction d as [|[k0 c] d IH]; intros k'; simpl.
  - intuition.
  - destruct (k =? k0)%string eqn:E; simpl.
    + apply String.eqb_eq in E. subst. intuition.
    + rewrite IH. intuition.
Qed.

Lemma bump_nodup (k : string) (d : list (string * Z)) :
  NoDup (map fst d) -> NoDup (map fst (Pipe.bump k d)).
Proof.
  induction d as [|[k0 c] d IH]; simpl; intros H.
  - repeat constructor. intros [].
  - inversion H as [|? ? Hn Hd]; subst.
    destruct (k =? k0)%string eqn:E; simpl.
    + now constructor.
    + constructor; [|now apply IH].
      rewrite bump_keys. intros [->|Hin]; [|contradiction].
      now rewrite String.eqb_refl in E.
Qed.

Lemma bump_count_at (k k' : string) (d : list (string * Z)) :
  count_at k' (Pipe.bump k d) = count_at k' d + (if (k' =? k)%string then 1 else 0).
Proof.
  induction d as [|[k0 c] d IH]; simpl.
  - destruct (k' =? k)%string; lia.
  - destruct (k =? k0)%string eqn:E; simpl.
    + apply String.eqb_eq in E. subst k0.
      destruct (k' =? k)%string; lia.
    + destruct (k' =? k0)%string eqn:E'; [|exact IH].
      apply String.eqb_eq in E'. subst k0.
      rewrite String.eqb_sym, E. lia.
Qed.

Lemma bump_total (k : string) (d : list (string * Z)) :
  total (Pipe.bump k d) = total d + 1.
Proof.
  unfold total. induction d as [|[k0 c] d IH]; simpl; [lia|].
  destruct (k =? k0)%string; simpl; lia.
Qed.

Lemma bump_positive (k : string) (d : list (string * Z)) :
  Forall (fun lc => 1 <= snd lc /\ fst lc <> ""%string) d -> k <> ""%string ->
  Forall (fun lc => 1 <= snd lc /\ fst lc <> ""%string) (Pipe.bump k d).
Proof.
  induction 1 as [|[k0 c] d [Hc Hk] Hd IH]; intros Hne; simpl.
  - repeat constructor; simpl; trivial. lia.
  - destruct (k =? k0)%string; constructor; simpl in *; auto. split; [lia | trivial].
Qed.

Lemma lang_of_nonempty (r : item) : lang_of r <> ""%string.
Proof.
  unfold lang_of, py_or. destruct (truthy _) eqn:E; [|discriminate].
  now apply truthy_nonempty.
Qed.

(** The counts while the items are read. *)
Lemma counting (items : list item) :
  forall d,
    NoDup (map fst d) ->
    Forall (fun lc => 1 <= snd lc /\ fst lc <> ""%string) d ->
    let d' := fold_left (fun d r => Pipe.bump (lang_of r) d) items d in
    NoDup (map fst d')
    /\ Forall (fun lc => 1 <= snd lc /\ fst lc <> ""%string) d'
    /\ (forall k, count_at k d' = count_at k d + count_lang k items)
    /\ total d' = total d + Z.of_nat (List.length items).
Proof.
  induction items as [|r items IH]; intros d Hn Hp; cbn [fold_left].
  - repeat split; trivial; intros; unfold count_lang; simpl; lia.
  - destruct (IH (Pipe.bump (lang_of r) d)) as (Hn' & Hp' & Hc' & Ht').
    + now apply bump_nodup.
    + apply bump_positive; trivial. apply lang_of_nonempty.
    + repeat split; trivial.
      * intros k. rewrite Hc', bump_count_at. unfold count_lang. cbn [filter].
        rewrite (String.eqb_sym k). destruct (lang_of r =? k)%string; simpl List.length; lia.
      * rewrite Ht', bump_total. cbn [List.length]. lia.
Qed.

Lemma count_at_in (k : string) (c : Z) (d : list (string * Z)) :
  NoDup (map fst d) -> In (k, c) d -> count_at k d = c.
Proof.
  induction d as [|[k0 c0] d IH]; simpl; intros Hn Hin; [contradiction|].
  destruct Hin as [E|Hin].
  - injection E as -> ->. now rewrite String.eqb_refl.
  - inversion Hn as [|? ? Hnot Hd]; subst.
    destruct (k =? k0)%string eqn:E; [|now apply IH].
    apply String.eqb_eq in E. subst k0. exfalso. apply Hnot.
    apply in_map_iff. now exists (k, c).
Qed.

Lemma total_perm (d d' : list (string * Z)) :
  Permutation d d' -> total d = total d'.
Proof.
  unfold total. induction 1; simpl; lia.
Qed.

(** The pie chart never raises.  It shows at most ten labels, the ones
    with the highest counts first, no label twice; the count of a label
    is the number of items that have it, and when there are at most ten
    labels the counts add up to the number of items. *)
Theorem pie_chart_rows (items : list item) :
  Pipe._repos_chart items "pie"
  = Ok (join nl (app ["```mermaid"; "pie showData";
                      "    title " ++ dq ++ "Repositories by Language" ++ dq]%string
                     (app (map pie_row (pie_rows items)) ["```"%string])))
  /\ (List.length (pie_rows items) <= 10)%nat
  /\ StronglySorted (fun a b => snd b <= snd a) (pie_rows items)
  /\ NoDup (map fst (pie_rows items))
  /\ (forall lang count, In (lang, count) (pie_rows items) ->
        count = count_lang lang items /\ 1 <= count /\ lang <> ""%string)
  /\ ((List.length (lang_counts items) <= 10)%nat ->
      total (pie_rows items) = Z.of_nat (List.length items)).
Proof.
  destruct (counting items [] ltac:(constructor) ltac:(constructor))
    as (Hn & Hp & Hc & Ht). fold (lang_counts items) in *.
  pose proof (sorted_by_perm (fun lc : string * Z => - snd lc) (lang_counts items))
    as Hperm.
  split; [reflexivity|]. split; [apply firstn_le_length|]. split; [|split; [|split]].
  - unfold pie_rows. apply firstn_sorted.
    apply (sorted_weaken (fun a b : string * Z => - snd a <= - snd b));
      [intros; lia | apply (sorted_by_sorted (fun lc : string * Z => - snd lc))].
  - unfold pie_rows.
    assert (NoDup (map fst (sorted_by (fun lc : string * Z => - snd lc)
                                      (lang_counts items)))) as Hs.
    { eapply Permutation_NoDup; [|exact Hn]. apply Permutation_map.
      now symmetry. }
    revert Hs. generalize (sorted_by (fun lc : string * Z => - snd lc)
                                     (lang_counts items)).
    intros l Hl. rewrite <- (firstn_skipn 10 l), map_app in Hl.
    now apply NoDup_app_remove_r in Hl.
  - intros lang count Hin. unfold pie_rows in Hin. apply firstn_incl in Hin.
    apply (Permutation_in _ Hperm) in Hin.
    rewrite <- (count_at_in _ _ _ Hn Hin), Hc. simpl.
    rewrite Forall_forall in Hp. destruct (Hp _ Hin) as [H1 H2]. simpl in H1, H2.
    repeat split; trivial. pose proof (count_at_in _ _ _ Hn Hin) as E.
    rewrite Hc in E. simpl in E. lia.
  - intros Hlen. unfold pie_rows. rewrite firstn_all2.
    + rewrite (total_perm _ _ Hperm), Ht. reflexivity.
    + now rewrite (Permutation_length Hperm).
Qed.

End PieChart.

(** ** The bar chart of repositories *)

Section BarChart.

Open Scope Z_scope.

Lemma round_half_even_1 (p : Z) : round_half_even p 1 = p.
Proof.
  unfold round_half_even. rewrite Z.div_1_r, Z.mod_1_r. reflexivity.
Qed.

(** An [int] below [2^53] is a float. *)
Lemma float_of_int_exact (z : Z) :
  0 < z < 2 ^ 53 ->
  exists e, float_of_int z = Ok (Finite (z * 2 ^ (- e)) e) /\ -52 <= e <= 0.
Proof.
  intros Hz. unfold float_of_int, true_div, round_q.
  assert ((z =? 0) = false) as -> by (apply Z.eqb_neq; lia).
  assert ((z <? 0) = false) as -> by (apply Z.ltb_ge; lia).
  unfold round_pos.
  destruct (ulp_exp_quotient_ge_1 z 1 ltac:(lia)) as [He _].
  pose proof (ulp_exp_le z 1 53 ltac:(lia) ltac:(lia) ltac:(lia) ltac:(lia)) as He'.
  set (e := ulp_exp z 1) in *. clearbody e.
  assert ((971 <? e) = false) as -> by (apply Z.ltb_ge; lia).
  assert ((e =? 971) = false) as -> by (apply Z.eqb_neq; lia).
  cbn [orb andb]. exists e. split; [|lia].
  destruct (0 <=? e) eqn:H0.
  - apply Z.leb_le in H0. assert (e = 0) as -> by lia.
    change (1 * 2 ^ 0) with 1. change (2 ^ (- 0)) with 1.
    now rewrite round_half_even_1, Z.mul_1_r.
  - now rewrite round_half_even_1.
Qed.

(** A quotient of one or more is rounded with a relative error of at
    most one part in [2^53]. *)
Lemma round_pos_accuracy (p q m e : Z) :
  0 < q <= p -> round_pos p q = Finite m e ->
  0 <= m
  /\ if 0 <=? e
     then (2 ^ 53 - 1) * p <= 2 ^ 53 * q * (m * 2 ^ e) <= (2 ^ 53 + 1) * p
     else (2 ^ 53 - 1) * p * 2 ^ (- e) <= 2 ^ 53 * q * m
          <= (2 ^ 53 + 1) * p * 2 ^ (- e).
Proof.
  intros Hpq. unfold round_pos.
  destruct (ulp_exp_quotient_ge_1 p q Hpq) as [He Hle].
  set (e0 := ulp_exp p q) in *.
  destruct ((971 <? e0) || (e0 =? 971) && (2 ^ 53 <=? _)); [discriminate|].
  intros H; injection H as <- <-.
  destruct (0 <=? e0) eqn:H0.
  - apply Z.leb_le in H0.
    pose proof (Z.pow_pos_nonneg 2 e0 ltac:(lia) H0) as HP.
    rewrite Z.pow_add_r in Hle by lia.
    set (P := 2 ^ e0) in *.
    pose proof (round_half_even_error p (q * P) ltac:(nia)) as Herr.
    pose proof (round_half_even_nonneg p (q * P) ltac:(lia) ltac:(nia)) as Hm.
    set (m := round_half_even p (q * P)) in *.
    split; [exact Hm|].
    change (2 ^ 52) with 4503599627370496 in *.
    change (2 ^ 53) with 9007199254740992. nia.
  - apply Z.leb_gt in H0.
    pose proof (Z.pow_pos_nonneg 2 (- e0) ltac:(lia) ltac:(lia)) as HE.
    assert (2 ^ (e0 + 52) * 2 ^ (- e0) = 2 ^ 52) as Hpow.
    { rewrite <- Z.pow_add_r by lia. f_equal. lia. }
    pose proof (Z.pow_pos_nonneg 2 (e0 + 52) ltac:(lia) ltac:(lia)) as HF.
    set (E := 2 ^ (- e0)) in *. set (F := 2 ^ (e0 + 52)) in *.
    pose proof (round_half_even_error (p * E) q ltac:(lia)) as Herr.
    pose proof (round_half_even_nonneg (p * E) q ltac:(nia) ltac:(lia)) as Hm.
    set (m := round_half_even (p * E) q) in *.
    split; [exact Hm|].
    change (2 ^ 52) with 4503599627370496 in *.
    change (2 ^ 53) with 9007199254740992.
    assert (q * 4503599627370496 <= p * E) as Hn by nia.
    lia.
Qed.

Lemma float_1_2_value : float_1_2 = Finite 5404319552844595 (-52).
Proof. vm_compute. reflexivity. Qed.

(** [int(max_val * 1.2)] for a count that is exact as a float: the count
    fits under it, and it is at most one above 120% of the count. *)
Lemma y_axis_top_bounds (z : Z) :
  0 <= z < 2 ^ 53 ->
  exists top, Pipe.y_axis_top (PInt z) = Ok top /\ z <= top /\ 5 * top <= 6 * z + 5.
Proof.
  intros Hz. destruct (Z.eq_dec z 0) as [->|Hz0].
  { exists 0. split; [vm_compute; reflexivity | lia]. }
  destruct (float_of_int_exact z ltac:(lia)) as (e & Hf & He).
  unfold Pipe.y_axis_top. rewrite Hf. cbn [bind]. rewrite float_1_2_value.
  unfold fmul.
  assert ((0 <=? e + -52) = false) as -> by (apply Z.leb_gt; lia).
  pose proof (Z.pow_pos_nonneg 2 (- e) ltac:(lia) ltac:(lia)) as Ht.
  assert (2 ^ (- (e + -52)) = 2 ^ 52 * 2 ^ (- e)) as ->.
  { rewrite <- Z.pow_add_r by lia. f_equal. lia. }
  assert (2 ^ (- e) <= 2 ^ 52) as Ht' by (apply Z.pow_le_mono_r; lia).
  set (t := 2 ^ (- e)) in *. clearbody t.
  change (2 ^ 52) with 4503599627370496 in *.
  change (2 ^ 53) with 9007199254740992 in *.
  set (M := 5404319552844595).
  set (p := z * t * M). set (q := 4503599627370496 * t).
  assert (0 < q <= p) as Hpq by (unfold p, q, M; nia).
  assert (p < 2 ^ 1023) as Hp.
  { apply Z.lt_le_trans with (2 ^ 53 * 2 ^ 52 * 2 ^ 53); [|vm_compute; discriminate].
    change (2 ^ 52) with 4503599627370496.
    change (2 ^ 53) with 9007199254740992. unfold p, M. nia. }
  unfold round_q.
  assert ((p =? 0) = false) as -> by (apply Z.eqb_neq; lia).
  assert ((p <? 0) = false) as -> by (apply Z.ltb_ge; lia).
  destruct (round_pos_finite p q ltac:(lia) ltac:(lia) Hp) as (m & e' & Hr & _).
  rewrite Hr. destruct (round_pos_accuracy p q m e' Hpq Hr) as [Hm Hacc].
  change (2 ^ 53) with 9007199254740992 in Hacc.
  unfold int_of_float. eexists. split; [reflexivity|].
  destruct (0 <=? e') eqn:H0.
  - set (w := m * 2 ^ e') in *. clearbody w. unfold p, q, M in Hacc.
    assert (9007199254740991 * (z * 5404319552844595)
            <= 9007199254740992 * 4503599627370496 * w
            <= 9007199254740993 * (z * 5404319552844595)) by nia.
    lia.
  - apply Z.leb_gt in H0.
    pose proof (Z.pow_pos_nonneg 2 (- e') ltac:(lia) ltac:(lia)) as Hs.
    set (d := 2 ^ (- e')) in *. clearbody d.
    rewrite Z.quot_div_nonneg by lia.
    unfold p, q, M in Hacc.
    assert (9007199254740991 * (z * 5404319552844595) * d
            <= 9007199254740992 * 4503599627370496 * m
            <= 9007199254740993 * (z * 5404319552844595) * d) as Hb by nia.
    pose proof (Z.mul_div_le m d Hs) as Hlo.
    split.
    + apply Z.div_le_lower_bound; [lia|]. nia.
    + assert (9007199254740992 * 4503599627370496 * (m / d)
              <= 9007199254740993 * (z * 5404319552844595)) by nia.
      lia.
Qed.

Lemma stars_counted_int (r : item) :
  stars_counted r -> Pipe.stars_of r = PInt (star_count r).
Proof.
  unfold stars_counted, star_count, Pipe.stars_of, get, dyn, dyn_Z.
  destruct (stargazers_count r); intros [H _]; [reflexivity | congruence | reflexivity].
Qed.

Lemma sorted_by_stars_ok (items : list item) :
  Forall stars_counted items ->
  Pipe.sorted_by_stars items = Ok (sorted_by (fun r => - star_count r) items).
Proof.
  intros H. unfold Pipe.sorted_by_stars.
  destruct items as [|a [|b items]]; try reflexivity.
  assert (forallb (fun r => Pipe.is_int (Pipe.stars_of r)) (a :: b :: items) = true)
    as ->; [|reflexivity].
  apply forallb_forall. intros r Hr. rewrite Forall_forall in H.
  now rewrite (stars_counted_int r (H r Hr)).
Qed.

Lemma fold_max_head (l : list Z) (a : Z) :
  Forall (fun x => x <= a) l -> fold_left Z.max l a = a.
Proof.
  induction 1 as [|x l Hx Hl IH]; simpl; [reflexivity|].
  now rewrite Z.max_l.
Qed.

(** The bar chart, for any chart type but [pie] and repositories with
    counted stars: its bars are ten of the repositories (all of them
    when there are fewer), the most starred first, and no repository
    left out has more stars than one shown; every bar fits under the
    top of the axis, which is at most one above 120% of the tallest
    bar, and 120 when there is no bar. *)
Theorem bar_chart_top_ten (items : list item) (chart_type : string) :
  chart_type <> "pie"%string -> Forall stars_counted items ->
  exists top rest,
    Pipe._repos_chart items chart_type = Ok (bar_chart (bar_items items) top)
    /\ List.length (bar_items items) = Nat.min 10 (List.length items)
    /\ StronglySorted (fun a b => star_count b <= star_count a) (bar_items items)
    /\ Permutation (app (bar_items items) rest) items
    /\ (forall b r, In b (bar_items items) -> In r rest ->
          star_count r <= star_count b)
    /\ (forall b, In b (bar_items items) -> star_count b <= top)
    /\ (items = [] -> top = 120)
    /\ (forall b, hd_error (bar_items items) = Some b ->
          5 * top <= 6 * star_count b + 5).
Proof.
  intros Hc Hs.
  pose proof (sorted_by_perm (fun r => - star_count r) items) as Hperm.
  pose proof (sorted_by_sorted (fun r => - star_count r) items) as Hsorted.
  apply (sorted_weaken _ (fun a b => star_count b <= star_count a)) in Hsorted;
    [|intros; lia].
  assert (Forall stars_counted (bar_items items)) as Hbars.
  { apply Forall_forall. intros r Hr. unfold bar_items in Hr.
    apply firstn_incl in Hr. apply (Permutation_in _ Hperm) in Hr.
    rewrite Forall_forall in Hs. now apply Hs. }
  assert (StronglySorted (fun a b => star_count b <= star_count a) (bar_items items))
    as Hbs by now apply firstn_sorted.
  assert (exists top,
             Pipe.y_axis_top
               match map Pipe.stars_of (bar_items items) with
               | [] => PInt 100
               | [v] => v
               | v :: vs => PInt (fold_left Z.max (map Pipe.int_or_0 vs) (Pipe.int_or_0 v))
               end = Ok top
             /\ (forall b, In b (bar_items items) -> star_count b <= top)
             /\ (bar_items items = [] -> top = 120)
             /\ (forall b, hd_error (bar_items items) = Some b ->
                   5 * top <= 6 * star_count b + 5)) as (top & Htop & Hfit & Hnil & Hhd).
  { destruct (bar_items items) as [|b bars] eqn:E.
    - exists 120. split; [vm_compute; reflexivity|].
      split; [intros b []|]. split; [reflexivity | discriminate].
    - inversion Hbars as [|? ? Hb Hrest]; subst.
      inversion Hbs as [|? ? Hs' Hle]; subst.
      destruct (y_axis_top_bounds (star_count b) ltac:(apply Hb)) as (top & Ht & H1 & H2).
      exists top. split.
      + cbn [map]. destruct bars as [|b' bars]; cbn [map].
        * now rewrite stars_counted_int.
        * fold (star_count b). rewrite fold_max_head; [exact Ht|].
          change (Pipe.int_or_0 (Pipe.stars_of b') :: map Pipe.int_or_0 (map Pipe.stars_of bars))
            with (map Pipe.int_or_0 (map Pipe.stars_of (b' :: bars))).
          rewrite map_map. apply Forall_map. exact Hle.
      + split; [|split; [discriminate|]].
        * intros x [<-|Hx]; [lia|]. rewrite Forall_forall in Hle.
          specialize (Hle x Hx). simpl in Hle. lia.
        * intros x [= <-]. exact H2. }
  exists top, (skipn 10 (sorted_by (fun r => - star_count r) items)).
  split; [|split; [|split; [|split; [|split; [|split; [|split]]]]]]; trivial.
  - unfold Pipe._repos_chart.
    assert ((chart_type =? "pie")%string = false) as ->
      by now apply String.eqb_neq.
    rewrite (sorted_by_stars_ok items Hs). cbn [bind]. cbv zeta.
    fold (bar_items items). rewrite Htop. cbn [bind].
    unfold bar_chart. rewrite !map_map.
    assert (map (fun x => py_str (Pipe.stars_of x)) (bar_items items)
            = map (fun r => str_of_Z (star_count r)) (bar_items items)) as ->;
      [|reflexivity].
    apply map_ext_in. intros r Hr. rewrite Forall_forall in Hbars.
    now rewrite (stars_counted_int r (Hbars r Hr)).
  - unfold bar_items. rewrite length_firstn, (Permutation_length Hperm). reflexivity.
  - unfold bar_items. now rewrite firstn_skipn.
  - intros b r Hb Hr. unfold bar_items in Hb.
    rewrite <- (firstn_skipn 10 (sorted_by _ items)) in Hsorted.
    exact (sorted_app _ _ _ Hsorted b r Hb Hr).
  - intros ->. now apply Hnil.
Qed.

(** A repository whose star count is [null] makes the bar chart raise:
    [None] is compared when there are two repositories or more, and
    multiplied by [1.2] when it is the only one. *)
Theorem bar_chart_null_stars (items : list item) (chart_type : string) (r : item) :
  chart_type <> "pie"%string -> In r items -> stargazers_count r = Null ->
  Pipe._repos_chart items chart_type = Raise TypeError.
Proof.
  intros Hc Hr Hn. unfold Pipe._repos_chart.
  assert ((chart_type =? "pie")%string = false) as -> by now apply String.eqb_neq.
  assert (Pipe.stars_of r = PNone) as Hnone
    by (unfold Pipe.stars_of; now rewrite Hn).
  destruct items as [|a [|b items]]; [contradiction| |].
  - destruct Hr as [->|[]]. unfold Pipe.sorted_by_stars. cbn [bind]. cbv zeta.
    cbn [firstn map]. rewrite Hnone. reflexivity.
  - unfold Pipe.sorted_by_stars.
    assert (forallb (fun r => Pipe.is_int (Pipe.stars_of r)) (a :: b :: items) = false)
      as ->; [|reflexivity].
    apply not_true_is_false. intros H. rewrite forallb_forall in H.
    specialize (H r Hr). now rewrite Hnone in H.
Qed.

Lemma bar_chart_top_ten_witness :
  exists top rest,
    Pipe._repos_chart [sample_issue; sample_repo] "line"
    = Ok (bar_chart (bar_items [sample_issue; sample_repo]) top)
    /\ List.length (bar_items [sample_issue; sample_repo])
       = Nat.min 10 (List.length [sample_issue; sample_repo])
    /\ StronglySorted (fun a b => star_count b <= star_count a)
                      (bar_items [sample_issue; sample_repo])
    /\ Permutation (app (bar_items [sample_issue; sample_repo]) rest)
                   [sample_issue; sample_repo]
    /\ (forall b r, In b (bar_items [sample_issue; sample_repo]) -> In r rest ->
          star_count r <= star_count b)
    /\ (forall b, In b (bar_items [sample_issue; sample_repo]) -> star_count b <= top)
    /\ ([sample_issue; sample_repo] = [] -> top = 120)
    /\ (forall b, hd_error (bar_items [sample_issue; sample_repo]) = Some b ->
          5 * top <= 6 * star_count b + 5).
Proof.
  apply bar_chart_top_ten; [discriminate|].
  repeat apply Forall_cons; try apply Forall_nil;
    (split; [discriminate | split; [apply Z.leb_le | apply Z.ltb_lt]; reflexivity]).
Defined.

Lemma bar_chart_null_stars_witness :
  Pipe._repos_chart [sample_repo; sample_unstarred] "bar" = Raise TypeError.
Proof.
  apply (bar_chart_null_stars _ _ sample_unstarred);
    [discriminate | simpl; tauto | reflexivity].
Defined.

End BarChart.

(** ** The reply of the tool proxy when the call fails *)

Section ToolError.

Variable valves : Valves.
Variable http_post : request -> post_outcome.

Lemma str_forall_app (p : ascii -> bool) (a b : string) :
  str_forall p (a ++ b) = str_forall p a && str_forall p b.
Proof.
  induction a as [|c a IH]; simpl; [reflexivity|].
  now rewrite IH, andb_assoc.
Qed.

Lemma json_escape_char_printable (c : ascii) :
  str_forall printable_char (json_escape_char c) = true.
Proof.
  destruct c as [[] [] [] [] [] [] [] []]; vm_compute; reflexivity.
Qed.

Lemma json_escape_printable (s : string) :
  str_forall printable_char (json_escape s) = true.
Proof.
  induction s as [|c s IH]; simpl; [reflexivity|].
  now rewrite str_forall_app, json_escape_char_printable, IH.
Qed.

Lemma json_unescape_escape (s : string) :
  json_unescape (json_escape s) = Some s.
Proof.
  induction s as [|c s IH]; [reflexivity|].
  cbn [json_escape].
  destruct c as [[] [] [] [] [] [] [] []];
    (match goal with
     | |- json_unescape (json_escape_char ?c ++ _) = _ =>
         let v := eval vm_compute in (json_escape_char c) in
         change (json_escape_char c) with v
     end);
    cbn [append]; cbn -[json_escape]; rewrite IH; reflexivity.
Qed.

(** When the call of the proxy raises, the reply is a JSON object with
    the one member [error]: a single line of printable ASCII, from which
    a JSON parser reads the text of the exception back. *)
Theorem execute_tool_error_reply (tool_name : string) (arguments : dict) (e : string) :
  http_post (Pipe.tool_request valves tool_name arguments) = PostRaises e ->
  Pipe._execute_tool valves http_post tool_name arguments
  = "{" ++ dq ++ "error" ++ dq ++ ": " ++ dq ++ json_escape e ++ dq ++ "}"
  /\ str_forall printable_char
       (Pipe._execute_tool valves http_post tool_name arguments) = true
  /\ json_unescape (json_escape e) = Some e.
Proof.
  intros Hpost. unfold Pipe._execute_tool. rewrite Hpost.
  split; [|split].
  - unfold json_string. cbn [json_escape json_escape_char]. 
    rewrite !append_assoc. reflexivity.
  - unfold json_string.
    rewrite !str_forall_app, !json_escape_printable. reflexivity.
  - apply json_unescape_escape.
Qed.

End ToolError.

Lemma execute_tool_error_reply_witness :
  let post := fun _ : request => PostRaises ("Connection refused: " ++ dq ++ "mcpo" ++ dq) in
  let e := "Connection refused: " ++ dq ++ "mcpo" ++ dq in
  Pipe._execute_tool default_valves post "search_code" []
  = "{" ++ dq ++ "error" ++ dq ++ ": " ++ dq ++ json_escape e ++ dq ++ "}"
  /\ str_forall printable_char
       (Pipe._execute_tool default_valves post "search_code" []) = true
  /\ json_unescape (json_escape e) = Some e.
Proof.
  apply (execute_tool_error_reply default_valves
           (fun _ => PostRaises ("Connection refused: " ++ dq ++ "mcpo" ++ dq))
           "search_code" []).
  reflexivity.
Defined.

(** ** The tools of the proxy *)

Section FetchTools.

Variable valves : Valves.
Variable agent_valves : AgentValves.

Lemma for_each_ok {A B : Type} (f : A -> result B) (l : list A) (ys : list B) :
  for_each f l = Ok ys -> Forall2 (fun x y => f x = Ok y) l ys.
Proof.
  revert ys; induction l as [|x l IH]; intros ys H; cbn [for_each] in H.
  - injection H as <-. constructor.
  - apply bind_ok in H as (y & Hy & H). apply bind_ok in H as (ys' & Hys & H).
    injection H as <-. constructor; auto.
Qed.

Lemma jget_ok (v : json) (key : string) (default x : json) :
  jget v key default = Ok x -> exists d, v = JDict d.
Proof. destruct v; try discriminate. eauto. Qed.

Lemma dict_set_forall (P : string * json -> Prop) (key : string) (v : json) (d : jdict) :
  P (key, v) -> Forall P d -> Forall P (dict_set key v d).
Proof.
  intros Hv. induction 1 as [|[k x] d Hx Hd IH]; cbn [dict_set].
  - repeat constructor. exact Hv.
  - destruct (key =? k) eqn:E.
    + apply String.eqb_eq in E. subst. now constructor.
    + now constructor.
Qed.

Lemma clean_prop_entry (pn : string) (pd : json) (cp : jdict) :
  Pipe.clean_prop pn pd = Ok cp -> property_entry (pn, JDict cp).
Proof.
  unfold Pipe.clean_prop. intros H.
  apply bind_ok in H as (ty & _ & H). apply bind_ok in H as (desc & _ & H).
  injection H as <-. exists ty, desc. cbn [snd].
  destruct pd; try (now left).
  destruct (lookup "items" d); [right; eexists; reflexivity | now left].
Qed.

Lemma clean_loop_entries (props acc out : jdict) :
  Forall property_entry acc -> Pipe.clean_loop props acc = Ok out ->
  Forall property_entry out.
Proof.
  revert acc; induction props as [|[pn pd] props IH]; intros acc Hacc H;
    cbn [Pipe.clean_loop] in H.
  - now injection H as <-.
  - apply bind_ok in H as (cp & Hcp & H). apply (IH _ (dict_set_forall _ _ _ _
      (clean_prop_entry _ _ _ Hcp) Hacc) H).
Qed.

Lemma parameters_shape (resolved : json) (parameters : jdict) :
  Pipe.parameters_of resolved = Ok parameters ->
  exists props required,
    parameters = [("type", JStr "object"); ("properties", JDict props);
                  ("required", required)]
    /\ Forall property_entry props.
Proof.
  unfold Pipe.parameters_of. destruct (jtruthy resolved).
  - intros H. apply bind_ok in H as (properties & _ & H).
    apply bind_ok in H as (props & _ & H).
    apply bind_ok in H as (clean & Hclean & H).
    apply bind_ok in H as (required & _ & H). injection H as <-.
    exists clean, required. split; [reflexivity|].
    now apply (clean_loop_entries props [] clean).
  - intros H. injection H as <-. exists [], (JList []). now split.
Qed.

Lemma tool_of_cases (schemas : json) (path method : string) (details : json)
    (o : option jdict) :
  Pipe.tool_of agent_valves schemas path method details = Ok o ->
  match o with
  | Some t =>
      (lower method =? "post") = true
      /\ allowed (USE_ALL_TOOLS agent_valves) (strip_char "/"%char path) = true
      /\ tool_shape (strip_char "/"%char path) t
  | None =>
      (lower method =? "post")
      && allowed (USE_ALL_TOOLS agent_valves) (strip_char "/"%char path) = false
  end.
Proof.
  unfold Pipe.tool_of, allowed.
  destruct (lower method =? "post"); cbn [negb andb].
  2: { intros H. now injection H as <-. }
  destruct (USE_ALL_TOOLS agent_valves); cbn [negb andb orb].
  2: destruct (mem (strip_char "/"%char path) PRIORITY_TOOLS); cbn [negb].
  3: { intros H. now injection H as <-. }
  all: intros H; apply bind_ok in H as (summary & _ & H);
    apply bind_ok in H as (description & _ & H);
    apply bind_ok in H as (request_body & _ & H);
    apply bind_ok in H as (content & _ & H);
    apply bind_ok in H as (media & _ & H);
    apply bind_ok in H as (schema_ref & _ & H);
    apply bind_ok in H as (resolved & _ & H);
    apply bind_ok in H as (parameters & Hp & H);
    injection H as <-;
    apply parameters_shape in Hp as (props & required & -> & Hprops);
    repeat split; exists description, props, required; now split.
Qed.

Lemma tools_of_operations (schemas : json) (path : string) (operations : jdict)
    (found : list (option jdict)) :
  Forall2 (fun md o => Pipe.tool_of agent_valves schemas path (fst md) (snd md) = Ok o)
          operations found ->
  Forall2 tool_shape
          (offered_at (USE_ALL_TOOLS agent_valves) (path, JDict operations))
          (Pipe.somes found).
Proof.
  unfold offered_at, post_methods, Pipe.somes. cbn [fst snd].
  induction 1 as [|[m d] o operations found Ho Hrest IH]; cbn [filter flat_map fst].
  - destruct (allowed _ _); constructor.
  - apply tool_of_cases in Ho. cbn [fst] in Ho. destruct o as [t|].
    + destruct Ho as (Hm & Ha & Ht). rewrite Hm, Ha in *. cbn [map app].
      now constructor.
    + apply andb_false_iff in Ho as [Hm|Ha].
      * rewrite Hm. exact IH.
      * rewrite Ha in *. cbn [app]. exact IH.
Qed.

Lemma tools_of_path_shape (schemas : json) (pm : string * json) (ts : list jdict) :
  Pipe.tools_of_path agent_valves schemas pm = Ok ts ->
  (exists operations, snd pm = JDict operations)
  /\ Forall2 tool_shape (offered_at (USE_ALL_TOOLS agent_valves) pm) ts.
Proof.
  destruct pm as [path methods]. unfold Pipe.tools_of_path. intros H.
  apply bind_ok in H as (operations & Hops & H).
  apply bind_ok in H as (found & Hfound & H). injection H as <-.
  destruct methods; try discriminate. injection Hops as ->.
  split; [eexists; reflexivity|].
  apply (tools_of_operations schemas). now apply for_each_ok.
Qed.

Lemma build_tools_shape (spec : json) (tools : list jdict) :
  Pipe.build_tools agent_valves spec = Ok tools ->
  exists paths,
    jget spec "paths" (JDict []) = Ok (JDict paths)
    /\ Forall (fun pm => exists operations, snd pm = JDict operations) paths
    /\ Forall2 tool_shape (offered (USE_ALL_TOOLS agent_valves) paths) tools.
Proof.
  unfold Pipe.build_tools. intros H.
  apply bind_ok in H as (components & _ & H).
  apply bind_ok in H as (schemas & _ & H).
  apply bind_ok in H as (paths & Hpaths & H).
  apply bind_ok in H as (entries & Hentries & H).
  apply bind_ok in H as (found & Hfound & H). injection H as <-.
  destruct paths; try discriminate. injection Hentries as ->.
  exists entries. split; [exact Hpaths|].
  apply for_each_ok in Hfound. unfold offered. clear Hpaths.
  induction Hfound as [|pm ts entries found Hpm Hrest IH]; cbn [flat_map concat].
  - split; constructor.
  - apply tools_of_path_shape in Hpm as [Hops Hts]. destruct IH as [IH1 IH2].
    split; [now constructor | now apply Forall2_app].
Qed.

Variable http_get_json : request -> fetch_outcome.

(** When the first call of [_fetch_tools] returns for a document that
    was fetched, the document is an object whose paths are objects of
    objects, and the tools are the POST operations of the document in
    its order: a path gives one tool for each method key that reads
    [post] in lower case, named by the path without its slashes, and
    only if the name is a priority tool or all tools are used.  Every
    tool is a [function] with [object] parameters whose properties hold
    a type, a description and at most the items.  The list is cached. *)
Theorem fetch_tools_offers (spec : json) (tools : list jdict)
    (cache : option (list jdict)) :
  http_get_json (Pipe.openapi_request valves) = FetchJson spec ->
  Pipe._fetch_tools valves agent_valves http_get_json None = (Ok tools, cache) ->
  exists paths,
    jget spec "paths" (JDict []) = Ok (JDict paths)
    /\ Forall (fun pm => exists operations, snd pm = JDict operations) paths
    /\ Forall2 tool_shape (offered (USE_ALL_TOOLS agent_valves) paths) tools
    /\ cache = Some tools.
Proof.
  intros Hget. unfold Pipe._fetch_tools. rewrite Hget.
  destruct (Pipe.build_tools agent_valves spec) as [ts|e] eqn:Hb; [|discriminate].
  intros H. injection H as <- <-.
  destruct (build_tools_shape _ _ Hb) as (paths & Hp & Hops & Hts).
  exists paths. repeat split; trivial.
Qed.

(** The cache over two calls, the network being any at each: a fetch
    that raises gives the empty list and one that delivers a document
    the script cannot read raises, and both leave the cache empty, so
    that the next call fetches again; once a document was read the list
    of its tools, empty or not, is returned by every later call,
    whatever the network would deliver. *)
Theorem fetch_tools_cache (net1 net2 : request -> fetch_outcome) :
  let first := Pipe._fetch_tools valves agent_valves net1 None in
  let second := Pipe._fetch_tools valves agent_valves net2 (snd first) in
  (forall e, net1 (Pipe.openapi_request valves) = FetchRaises e ->
     first = (Ok [], None)
     /\ second = Pipe._fetch_tools valves agent_valves net2 None)
  /\ (forall e, fst first = Raise e ->
        snd first = None
        /\ second = Pipe._fetch_tools valves agent_valves net2 None)
  /\ (forall spec tools,
        net1 (Pipe.openapi_request valves) = FetchJson spec ->
        fst first = Ok tools ->
        snd first = Some tools /\ second = (Ok tools, Some tools)).
Proof.
  cbv zeta.
  remember (Pipe._fetch_tools valves agent_valves net1 None) as first eqn:Hf.
  unfold Pipe._fetch_tools in Hf.
  destruct (net1 (Pipe.openapi_request valves)) as [e1|spec1] eqn:H1.
  - subst first. cbn [fst snd]. repeat split; discriminate.
  - destruct (Pipe.build_tools agent_valves spec1) as [ts|e] eqn:Hb;
      subst first; cbn [fst snd].
    + split; [intros; discriminate|]. split; [intros; discriminate|].
      intros spec tools _ H. injection H as <-. now split.
    + split; [intros; discriminate|]. split; [now split|].
      intros; discriminate.
Qed.

Lemma jget_raises (v : json) (key : string) (default : json) (e : exn) :
  jget v key default = Raise e -> e = AttributeError.
Proof. destruct v; intros H; try discriminate; now injection H. Qed.

(** A document that is JSON but no object, or whose [components] or
    [paths] member is present and no object, is not treated as a failed
    fetch: [_fetch_tools] raises [AttributeError] and caches nothing. *)
Theorem fetch_tools_raises (spec : json) :
  http_get_json (Pipe.openapi_request valves) = FetchJson spec ->
  not_object spec
  \/ (exists d v, spec = JDict d /\ not_object v
                  /\ (lookup "components" d = Some v \/ lookup "paths" d = Some v)) ->
  Pipe._fetch_tools valves agent_valves http_get_json None = (Raise AttributeError, None).
Proof.
  intros Hget Hbad. unfold Pipe._fetch_tools. rewrite Hget.
  assert (Pipe.build_tools agent_valves spec = Raise AttributeError) as ->;
    [|reflexivity].
  unfold Pipe.build_tools.
  destruct Hbad as [Hspec | (d & v & -> & Hv & [Hc|Hp])].
  - destruct spec; try reflexivity. contradiction.
  - cbn [jget bind]. rewrite Hc. destruct v; try reflexivity. contradiction.
  - cbn [jget bind]. rewrite Hp.
    destruct (jget _ "schemas" _) as [schemas|e] eqn:Hs; cbn [bind].
    + destruct v; try reflexivity. contradiction.
    + now apply jget_raises in Hs as ->.
Qed.

Lemma for_each_total {A B : Type} (f : A -> result B) (l : list A) :
  Forall (fun x => exists y, f x = Ok y) l -> exists ys, for_each f l = Ok ys.
Proof.
  induction 1 as [|x l [y Hy] Hl [ys IH]]; cbn [for_each].
  - now exists [].
  - rewrite Hy, IH. cbn [bind]. eauto.
Qed.

Lemma clean_loop_total (props acc : jdict) :
  Forall (fun e => exists pd, snd e = JDict pd) props ->
  exists out, Pipe.clean_loop props acc = Ok out.
Proof.
  intros H; revert acc; induction H as [|[pn pd] props [d Hd] Hp IH]; intros acc;
    cbn [Pipe.clean_loop].
  - eauto.
  - cbn [snd] in Hd. subst pd. unfold Pipe.clean_prop. cbn [jget bind]. apply IH.
Qed.

Lemma parameters_total (v : json) :
  schema_ok v -> exists parameters, Pipe.parameters_of v = Ok parameters.
Proof.
  unfold schema_ok, Pipe.parameters_of. destruct v; try contradiction.
  destruct (jtruthy (JDict d)); [|eauto]. cbn [jget bind].
  destruct (lookup "properties" d) as [[| | | | | |props]|]; try contradiction.
  - intros H. cbn [jitems bind].
    destruct (clean_loop_total props [] H) as [out ->]. cbn [bind]. eauto.
  - intros _. cbn [jitems bind Pipe.clean_loop]. eauto.
Qed.

Lemma resolve_total (schemas schema_ref : jdict) :
  reference_ok schemas schema_ref ->
  exists resolved,
    Pipe.resolve (JDict schemas) (JDict schema_ref) = Ok resolved
    /\ schema_ok resolved.
Proof.
  unfold reference_ok, Pipe.resolve.
  destruct (lookup "$ref" schema_ref) as [[| | | |r| |]|]; try contradiction.
  - destruct (lookup (last_segment r) schemas) as [v|]; intros H.
    + eauto.
    + exists (JDict []). now split.
  - eauto.
Qed.

Lemma tool_of_total (schemas : jdict) (path method : string) (details : json) :
  operation_ok schemas details ->
  exists o, Pipe.tool_of agent_valves (JDict schemas) path method details = Ok o.
Proof.
  intros Hok. unfold Pipe.tool_of.
  destruct (negb (lower method =? "post")); [eauto|].
  destruct (negb (USE_ALL_TOOLS agent_valves) && _); [eauto|].
  unfold operation_ok in Hok. destruct details as [| | | | | |d]; try contradiction.
  cbn [jget bind].
  assert (exists schema_ref,
             (request_body <- Ok match lookup "requestBody" d with
                                 | Some x => x
                                 | None => JDict []
                                 end ;;
              content <- jget request_body "content" (JDict []) ;;
              media <- jget content "application/json" (JDict []) ;;
              jget media "schema" (JDict []))
             = Ok (JDict schema_ref)
             /\ reference_ok schemas schema_ref) as (schema_ref & Hchain & Href).
  { assert (reference_ok schemas []) as Hnil by exact I.
    destruct (lookup "requestBody" d) as [[| | | | | |rb]|]; try contradiction;
      cbn [jget bind]; [|exists []; split; [reflexivity | exact Hnil]].
    destruct (lookup "content" rb) as [[| | | | | |c]|]; try contradiction;
      cbn [jget bind]; [|exists []; split; [reflexivity | exact Hnil]].
    destruct (lookup "application/json" c) as [[| | | | | |m]|]; try contradiction;
      cbn [jget bind]; [|exists []; split; [reflexivity | exact Hnil]].
    destruct (lookup "schema" m) as [[| | | | | |sr]|]; try contradiction;
      [exists sr; split; [reflexivity | exact Hok]
      |exists []; split; [reflexivity | exact Hnil]]. }
  cbn [bind] in Hchain.
  destruct (jget _ "content" _) as [content|] eqn:H1; [|discriminate].
  cbn [bind] in Hchain |- *.
  destruct (jget content _ _) as [media|] eqn:H2; [|discriminate].
  cbn [bind] in Hchain |- *. rewrite Hchain. cbn [bind].
  destruct (resolve_total _ _ Href) as (resolved & -> & Hres). cbn [bind].
  destruct (parameters_total _ Hres) as (parameters & ->). cbn [bind]. eauto.
Qed.

(** For a document shaped as OpenAPI prescribes the first call returns:
    it delivers the tools of the document and caches them. *)
Theorem fetch_tools_returns (spec : json) :
  http_get_json (Pipe.openapi_request valves) = FetchJson spec ->
  document_ok spec ->
  exists tools paths,
    Pipe._fetch_tools valves agent_valves http_get_json None = (Ok tools, Some tools)
    /\ jget spec "paths" (JDict []) = Ok (JDict paths)
    /\ Forall2 tool_shape (offered (USE_ALL_TOOLS agent_valves) paths) tools.
Proof.
  intros Hget (d & schemas & paths & -> & Hs & Hp & Hops).
  assert (exists tools, Pipe.build_tools agent_valves (JDict d) = Ok tools)
    as [tools Hb].
  { unfold Pipe.build_tools. cbn [jget bind].
    assert (jget match lookup "components" d with
                 | Some x => x
                 | None => JDict []
                 end "schemas" (JDict []) = Ok (JDict schemas)) as ->.
    { unfold schemas_of in Hs.
      destruct (lookup "components" d) as [[| | | | | |c]|]; try discriminate;
        cbn [jget lookup].
      - destruct (lookup "schemas" c) as [[| | | | | |x]|]; try discriminate;
          now injection Hs as <-.
      - now injection Hs as <-. }
    cbn [bind].
    assert (match lookup "paths" d with Some x => x | None => JDict [] end
            = JDict paths) as ->.
    { unfold paths_of in Hp.
      destruct (lookup "paths" d) as [[| | | | | |x]|]; try discriminate;
        now injection Hp as <-. }
    cbn [jitems bind].
    destruct (for_each_total (Pipe.tools_of_path agent_valves (JDict schemas)) paths)
      as [found ->]; [|cbn [bind]; eauto].
    eapply Forall_impl; [|exact Hops]. intros [path methods] (ops & Hm & Hall).
    cbn [snd] in Hm. subst methods. unfold Pipe.tools_of_path. cbn [jitems bind].
    destruct (for_each_total
                (fun md => Pipe.tool_of agent_valves (JDict schemas) path (fst md) (snd md))
                ops) as [fs ->]; [|cbn [bind]; eauto].
    eapply Forall_impl; [|exact Hall]. intros md Hmd. now apply tool_of_total. }
  destruct (build_tools_shape _ _ Hb) as (paths' & Hp' & _ & Hts).
  exists tools, paths'. unfold Pipe._fetch_tools. rewrite Hget, Hb.
  repeat split; trivial.
Qed.

End FetchTools.

Lemma fetch_tools_offers_witness :
  let net := fun _ : request => FetchJson sample_openapi in
  let run := Pipe._fetch_tools default_valves default_agent_valves net None in
  let tools := match fst run with Ok ts => ts | Raise _ => [] end in
  exists paths,
    jget sample_openapi "paths" (JDict []) = Ok (JDict paths)
    /\ Forall (fun pm => exists operations, snd pm = JDict operations) paths
    /\ Forall2 tool_shape (offered (USE_ALL_TOOLS default_agent_valves) paths) tools
    /\ snd run = Some tools.
Proof.
  apply (fetch_tools_offers default_valves default_agent_valves
           (fun _ => FetchJson sample_openapi) sample_openapi);
    reflexivity.
Defined.

Lemma fetch_tools_raises_witness :
  Pipe._fetch_tools default_valves default_agent_valves
    (fun _ => FetchJson (JList [])) None
  = (Raise AttributeError, None).
Proof.
  apply (fetch_tools_raises default_valves default_agent_valves
           (fun _ => FetchJson (JList [])) (JList [])).
  - reflexivity.
  - left. exact I.
Defined.

Lemma fetch_tools_returns_witness :
  let net := fun _ : request => FetchJson sample_openapi in
  exists tools paths,
    Pipe._fetch_tools default_valves default_agent_valves net None
    = (Ok tools, Some tools)
    /\ jget sample_openapi "paths" (JDict []) = Ok (JDict paths)
    /\ Forall2 tool_shape (offered (USE_ALL_TOOLS default_agent_valves) paths) tools.
Proof.
  apply (fetch_tools_returns default_valves default_agent_valves
           (fun _ => FetchJson sample_openapi) sample_openapi); [reflexivity|].
  eexists _, _, _. split; [reflexivity|]. split; [reflexivity|].
  split; [reflexivity|].
  repeat (apply Forall_cons || apply Forall_nil);
    cbn [snd]; eexists; (split; [reflexivity|]);
    repeat (apply Forall_cons || apply Forall_nil); cbn; repeat constructor;
    eexists; reflexivity.
Defined.

Example sample_tools :
  let net := fun _ : request => FetchJson sample_openapi in
  Pipe._fetch_tools default_valves default_agent_valves net None
  = (Ok [[("type", JStr "function");
          ("function",
           JDict [("name", JStr "search_repositories");
                  ("description", JStr "Search Repositories");
                  ("parameters",
                   JDict [("type", JStr "object");
                          ("properties",
                           JDict [("query", JDict [("type", JStr "string");
                                                   ("description", JStr "query")]);
                                  ("topics", JDict [("type", JStr "array");
                                                    ("description", JStr "topics");
                                                    ("items", JDict [("type", JStr "string")])])]);
                          ("required", JList [JStr "query"])])])];
         [("type", JStr "function");
          ("function",
           JDict [("name", JStr "get_issue");
                  ("description", JStr "Get an issue");
                  ("parameters",
                   JDict [("type", JStr "object"); ("properties", JDict []);
                          ("required", JList [])])])]],
     Some [[("type", JStr "function");
          ("function",
           JDict [("name", JStr "search_repositories");
                  ("description", JStr "Search Repositories");
                  ("parameters",
                   JDict [("type", JStr "object");
                          ("properties",
                           JDict [("query", JDict [("type", JStr "string");
                                                   ("description", JStr "query")]);
                                  ("topics", JDict [("type", JStr "array");
                                                    ("description", JStr "topics");
                                                    ("items", JDict [("type", JStr "string")])])]);
                          ("required", JList [JStr "query"])])])];
         [("type", JStr "function");
          ("function",
           JDict [("name", JStr "get_issue");
                  ("description", JStr "Get an issue");
                  ("parameters",
                   JDict [("type", JStr "object"); ("properties", JDict []);
                          ("required", JList [])])])]]).
Proof. vm_compute. reflexivity. Qed.

(** ** The main pipe *)

Section MainPipe.

Variable valves : Valves.
Variable http_get : request -> get_outcome.
Variable agent_valves : AgentValves.
Variable http_get_json : request -> fetch_outcome.
Variable chat_post : list action -> chat_request -> chat_outcome.
Variable execute_tool : list action -> string -> json -> string.
Variable json_loads : string -> option json.
Variable str_of_json : json -> string.
Variable error_text : exn -> json -> string.

Local Abbreviation pipe :=
  (Pipe.pipe valves http_get agent_valves http_get_json chat_post execute_tool
             json_loads str_of_json error_text).

Lemma chats_app (a b : list action) : chats (app a b) = app (chats a) (chats b).
Proof.
  induction a as [|[d f|r|n x] a IH]; cbn [app chats]; trivial. now rewrite IH.
Qed.

(** *** How the log grows *)

Lemma bounded_ret {A : Type} (a : A) : chat_bounded 0 (ret a).
Proof. intros log. exists []. now rewrite app_nil_r. Qed.

Lemma bounded_lift {A : Type} (r : result A) : chat_bounded 0 (lift r).
Proof. intros log. exists []. now rewrite app_nil_r. Qed.

Lemma bounded_history : chat_bounded 0 history.
Proof. intros log. exists []. now rewrite app_nil_r. Qed.

Lemma bounded_emit (emitter : bool) (description : string) (done : bool) :
  chat_bounded 0 (emit emitter description done).
Proof.
  intros log. unfold emit. destruct emitter.
  - exists [Status description done]. now split.
  - exists []. now rewrite app_nil_r.
Qed.

Lemma bounded_tool (name : string) (arguments : json) :
  chat_bounded 0 (act (Tool name arguments)).
Proof. intros log. exists [Tool name arguments]. now split. Qed.

Lemma bounded_chat (r : chat_request) : chat_bounded 1 (act (Chat r)).
Proof. intros log. exists [Chat r]. now split. Qed.

Lemma bounded_weaken {A : Type} (n n' : nat) (m : run A) :
  n <= n' -> chat_bounded n m -> chat_bounded n' m.
Proof.
  intros Hn Hm log. destruct (Hm log) as (added & H1 & H2).
  exists added. split; [exact H1 | lia].
Qed.

Lemma bounded_bind {A B : Type} (n n' : nat) (m : run A) (k : A -> run B) :
  chat_bounded n m -> (forall a, chat_bounded n' (k a)) ->
  chat_bounded (n + n') (bind_run m k).
Proof.
  intros Hm Hk log. unfold bind_run.
  destruct (Hm log) as (added & H1 & H2).
  destruct (m log) as [[a|e] log']; cbn [snd] in H1; subst log'.
  - destruct (Hk a (app log added)) as (added' & H3 & H4).
    exists (app added added'). rewrite H3, app_assoc, chats_app, length_app.
    split; [reflexivity | lia].
  - exists added. cbn [snd]. split; [reflexivity | lia].
Qed.

Lemma bounded_call_ollama (messages tools : list jdict) :
  chat_bounded 1 (Pipe._call_ollama agent_valves chat_post messages tools).
Proof.
  unfold Pipe._call_ollama.
  destruct (Pipe.all_some Pipe.ollama_message messages);
    [|apply (bounded_weaken 0); [lia | apply bounded_ret]].
  destruct (Pipe.all_some Pipe.ollama_tool tools);
    [|apply (bounded_weaken 0); [lia | apply bounded_ret]].
  apply (bounded_bind 0 1); [apply bounded_history|]. intros log.
  apply (bounded_bind 1 0); [apply bounded_chat|]. intros _. apply bounded_ret.
Qed.

Lemma bounded_call_tool (emitter : bool) (messages : list jdict) (tc : json) :
  chat_bounded 0
    (Pipe.call_tool execute_tool json_loads str_of_json emitter messages tc).
Proof.
  unfold Pipe.call_tool.
  apply (bounded_bind 0 0); [apply bounded_lift|]. intros func.
  apply (bounded_bind 0 0); [apply bounded_lift|]. intros tool_name.
  apply (bounded_bind 0 0); [apply bounded_lift|]. intros arguments.
  apply (bounded_bind 0 0); [apply bounded_emit|]. intros _.
  apply (bounded_bind 0 0); [apply bounded_history|]. intros log.
  apply (bounded_bind 0 0); [apply bounded_tool|]. intros _. apply bounded_ret.
Qed.

Lemma bounded_call_tools (emitter : bool) (calls : list json) :
  forall messages,
    chat_bounded 0
      (Pipe.call_tools execute_tool json_loads str_of_json emitter messages calls).
Proof.
  induction calls as [|tc calls IH]; intros messages; cbn [Pipe.call_tools].
  - apply bounded_ret.
  - apply (bounded_bind 0 0); [apply bounded_call_tool | exact IH].
Qed.

Lemma bounded_respond (emitter : bool) (messages : list jdict) (response : json) :
  chat_bounded 0
    (Pipe.respond execute_tool json_loads str_of_json emitter messages response).
Proof.
  unfold Pipe.respond.
  apply (bounded_bind 0 0); [apply bounded_lift|]. intros message.
  apply (bounded_bind 0 0); [apply bounded_lift|]. intros tool_calls.
  destruct (negb (jtruthy tool_calls)).
  - apply (bounded_bind 0 0); [apply bounded_emit|]. intros _.
    apply (bounded_bind 0 0); [apply bounded_lift|]. intros content.
    apply (bounded_bind 0 0); [apply bounded_lift|]. intros text.
    apply bounded_ret.
  - apply (bounded_bind 0 0); [apply bounded_lift|]. intros entries.
    apply (bounded_bind 0 0); [apply bounded_lift|]. intros calls.
    apply (bounded_bind 0 0); [apply bounded_call_tools|]. intros messages'.
    apply bounded_ret.
Qed.

Lemma bounded_one_round (emitter : bool) (tools : list jdict) (round_num : nat)
    (messages : list jdict) :
  chat_bounded 1
    (Pipe.one_round agent_valves chat_post execute_tool json_loads str_of_json
                    emitter tools round_num messages).
Proof.
  unfold Pipe.one_round.
  apply (bounded_bind 0 1); [apply bounded_emit|]. intros _.
  apply (bounded_bind 1 0); [apply bounded_call_ollama|]. intros [e|response].
  - apply bounded_ret.
  - apply bounded_respond.
Qed.

Lemma bounded_tool_rounds (emitter : bool) (tools : list jdict) (rounds : nat) :
  forall round_num messages,
    chat_bounded rounds
      (Pipe.tool_rounds agent_valves chat_post execute_tool json_loads str_of_json
                        emitter tools rounds round_num messages).
Proof.
  induction rounds as [|rounds IH]; intros round_num messages; cbn [Pipe.tool_rounds].
  - apply bounded_ret.
  - apply (bounded_bind 1 rounds); [apply bounded_one_round|]. intros [text|messages'].
    + apply (bounded_weaken 0); [lia | apply bounded_ret].
    + apply IH.
Qed.

Lemma bounded_final_answer (emitter : bool) (messages : list jdict) :
  chat_bounded 1
    (Pipe.final_answer agent_valves chat_post error_text emitter messages).
Proof.
  unfold Pipe.final_answer.
  apply (bounded_bind 0 1); [apply bounded_emit|]. intros _.
  apply (bounded_bind 1 0); [apply bounded_call_ollama|]. intros [e|response].
  - apply bounded_ret.
  - apply (bounded_bind 0 0); [apply bounded_emit|]. intros _. apply bounded_ret.
Qed.

Lemma bounded_model_path (emitter : bool) (tools : list jdict) (body_messages : list json) :
  chat_bounded (Z.to_nat (MAX_TOOL_ROUNDS agent_valves) + 1)
    (Pipe.model_path agent_valves chat_post execute_tool json_loads str_of_json
                     error_text emitter tools body_messages).
Proof.
  unfold Pipe.model_path.
  apply (bounded_bind 0 (Z.to_nat (MAX_TOOL_ROUNDS agent_valves) + 1));
    [apply bounded_lift|]. intros converted.
  apply bounded_bind; [apply bounded_tool_rounds|]. intros [text|messages].
  - apply (bounded_weaken 0); [lia | apply bounded_ret].
  - apply bounded_final_answer.
Qed.

Lemma bounded_fast_path (emitter : bool) (user_msg : string) :
  chat_bounded 0 (Pipe.fast_path valves http_get emitter user_msg).
Proof.
  unfold Pipe.fast_path. destruct (mem _ _); [|apply bounded_ret].
  apply (bounded_bind 0 0); [apply bounded_emit|]. intros _.
  apply (bounded_bind 0 0); [apply bounded_lift|]. intros result.
  apply (bounded_bind 0 0); [apply bounded_emit|]. intros _. apply bounded_ret.
Qed.

(** Whatever the messages, the model and the tools do, one call of
    [pipe] calls the chat endpoint at most [MAX_TOOL_ROUNDS + 1] times:
    once a round, and once more for the final answer. *)
Theorem pipe_chat_bound (body_messages : list json) (emitter : bool)
    (cache : option (list jdict)) :
  List.length (chats (snd (fst (pipe body_messages emitter cache))))
  <= Z.to_nat (MAX_TOOL_ROUNDS agent_valves) + 1.
Proof.
  unfold pipe, Pipe.pipe.
  destruct (Pipe.latest_user str_of_json (rev body_messages)) as [user_msg|e];
    [|cbn; lia].
  destruct (bounded_fast_path emitter user_msg []) as (added & Hadd & Hfast).
  destruct (Pipe.fast_path valves http_get emitter user_msg [])
    as [[[text|]|e] log]; cbn [snd] in Hadd; subst log; cbn [fst snd app];
    try lia.
  destruct (Pipe._fetch_tools valves agent_valves http_get_json cache)
    as [[tools|e] cache']; cbn [fst snd]; [|lia].
  destruct (bounded_model_path emitter tools body_messages added)
    as (added' & -> & Hmodel).
  rewrite chats_app, length_app. lia.
Qed.

(** *** The fast path *)

Lemma direct_format_text (user_msg text : string) :
  Pipe._direct_format valves http_get user_msg = Ok (Some text) -> text <> "".
Proof.
  unfold Pipe._direct_format.
  pose proof (search_type_values user_msg) as Hst.
  destruct (Pipe._extract_search_params user_msg) as [[st query] sort].
  unfold search_type_part in Hst; cbn [fst snd] in Hst.
  destruct Hst as [-> | [-> | ->]]; cbn [String.eqb Ascii.eqb Bool.eqb];
    intros H; apply bind_ok in H as (b & _ & H);
    destruct (get_obj (items b) []) as [[|it its]|]; try discriminate;
    apply bind_ok in H as (n & _ & H);
    destruct (_ =? "table"); try (apply bind_ok in H as (t & _ & H));
    injection H as <-; rewrite !append_assoc; discriminate.
Qed.

(** A request for a table or a chart that the direct search answers is
    returned at once: the model is not called, no tool is run and the
    cache of the tools is not touched; the two status events frame the
    search.  An exception of the direct search is not caught: [pipe]
    raises it, without the closing status event and without a try of
    the model path. *)
Theorem pipe_fast_path (body_messages : list json) (emitter : bool)
    (cache : option (list jdict)) (user_msg : string) :
  Pipe.latest_user str_of_json (rev body_messages) = Ok user_msg ->
  Pipe._detect_format user_msg = "table" \/ Pipe._detect_format user_msg = "chart" ->
  (forall text,
     Pipe._direct_format valves http_get user_msg = Ok (Some text) ->
     pipe body_messages emitter cache = (Ok text, search_events emitter, cache))
  /\ (forall e,
        Pipe._direct_format valves http_get user_msg = Raise e ->
        pipe body_messages emitter cache
        = (Raise e,
           if emitter then [Status "Searching GitHub..." false] else [],
           cache)).
Proof.
  intros Huser Hfmt. unfold Pipe.pipe. rewrite Huser. unfold Pipe.fast_path.
  assert (mem (Pipe._detect_format user_msg) ["table"; "chart"] = true) as ->
    by (destruct Hfmt as [-> | ->]; reflexivity).
  split.
  - intros text Hd. pose proof (direct_format_text _ _ Hd) as Hne.
    apply String.eqb_neq in Hne.
    unfold bind_run, lift, emit, act, ret, search_events. rewrite Hd.
    destruct emitter; cbn [app]; now rewrite Hne.
  - intros e Hd. unfold bind_run, lift, emit, act, ret. rewrite Hd.
    destruct emitter; reflexivity.
Qed.

(** *** The calls of the chat endpoint *)

Lemma all_some_total {A B : Type} (f : A -> option B) (l : list A) :
  Forall (fun x => f x <> None) l ->
  exists ys, Pipe.all_some f l = Some ys /\ List.length ys = List.length l.
Proof.
  induction 1 as [|x l Hx Hl (ys & IH & Hlen)]; cbn [Pipe.all_some].
  - now exists [].
  - destruct (f x) as [y|]; [|congruence]. rewrite IH.
    exists (y :: ys). cbn [List.length]. now rewrite Hlen.
Qed.

Lemma all_some_none {A B : Type} (f : A -> option B) (l : list A) :
  Exists (fun x => f x = None) l -> Pipe.all_some f l = None.
Proof.
  induction 1 as [x l Hx|x l Hl IH]; cbn [Pipe.all_some].
  - now rewrite Hx.
  - destruct (f x); [now rewrite IH | reflexivity].
Qed.

Lemma ollama_message_some (msg : jdict) :
  has_role msg <-> Pipe.ollama_message msg <> None.
Proof.
  unfold has_role, Pipe.ollama_message.
  destruct (lookup "role" msg); split; congruence.
Qed.

Lemma ollama_tool_some (t : jdict) : has_function t -> Pipe.ollama_tool t <> None.
Proof.
  unfold has_function, Pipe.ollama_tool. destruct (lookup "function" t); congruence.
Qed.

(** With a role in every message and a function in every tool, the
    request is sent; it offers tools when there are any. *)
Lemma call_ollama_sends (messages tools' : list jdict) (log : list action) :
  Forall has_role messages -> Forall has_function tools' ->
  exists r,
    Pipe._call_ollama agent_valves chat_post messages tools' log
    = (Ok (chat_post log r), app log [Chat r])
    /\ offers_tools r = match tools' with [] => false | _ :: _ => true end.
Proof.
  intros Hm Ht. unfold Pipe._call_ollama.
  destruct (all_some_total Pipe.ollama_message messages) as (ms & -> & _).
  { eapply Forall_impl; [|exact Hm]. intros msg. apply ollama_message_some. }
  destruct (all_some_total Pipe.ollama_tool tools') as (ts & -> & Hlen).
  { eapply Forall_impl; [|exact Ht]. intros t. apply ollama_tool_some. }
  eexists. split; [reflexivity|].
  unfold offers_tools, Pipe.chat_payload. cbn [chat_json].
  destruct tools' as [|t tools'], ts as [|t' ts]; try discriminate; reflexivity.
Qed.

Lemma call_ollama_key_error (messages tools' : list jdict) (log : list action) :
  Exists (fun msg => lookup "role" msg = None) messages ->
  Pipe._call_ollama agent_valves chat_post messages tools' log
  = (Ok (ChatRaises "'role'"), log).
Proof.
  intros H. unfold Pipe._call_ollama. rewrite all_some_none; [reflexivity|].
  eapply Exists_impl; [|exact H]. intros msg Hmsg.
  unfold Pipe.ollama_message. now rewrite Hmsg.
Qed.

Lemma transcript_has_role (messages : list json) (converted : list jdict) :
  for_each (Pipe.transcript_message str_of_json) messages = Ok converted ->
  Forall has_role converted.
Proof.
  intros H. apply for_each_ok in H.
  induction H as [|msg m messages converted Hm Hrest IH]; constructor; trivial.
  unfold Pipe.transcript_message in Hm.
  apply bind_ok in Hm as (role & _ & Hm). apply bind_ok in Hm as (c & _ & Hm).
  apply bind_ok in Hm as (c' & _ & Hm). injection Hm as <-. discriminate.
Qed.

(** *** The tool calls of a round *)

Lemma call_tool_ok (emitter : bool) (messages : list jdict) (tc : json)
    (log : list action) :
  call_ok tc ->
  exists result,
    Pipe.call_tool execute_tool json_loads str_of_json emitter messages tc log
    = (Ok (app messages [tool_message result]),
       app log (call_events json_loads str_of_json emitter tc)).
Proof.
  unfold call_ok, Pipe.call_tool, call_events, call_name, call_arguments,
    call_function.
  destruct tc as [| | | | | |d]; try contradiction.
  unfold bind_run, lift, emit, act, ret, history. cbn [jget].
  destruct (lookup "function" d) as [[| | | | | |f]|]; try contradiction; intros _;
    cbn [jget lookup];
    [destruct (lookup "arguments" f) as [[| | | |a| |]|]|];
    destruct emitter; cbn [app]; rewrite <- ?app_assoc; cbn [app];
    eexists; reflexivity.
Qed.

Lemma call_tool_bad (emitter : bool) (messages : list jdict) (tc : json)
    (log : list action) :
  ~ call_ok tc ->
  Pipe.call_tool execute_tool json_loads str_of_json emitter messages tc log
  = (Raise AttributeError, log).
Proof.
  unfold call_ok, Pipe.call_tool, bind_run, lift. intros H.
  destruct tc as [| | | | | |d]; try reflexivity. cbn [jget].
  destruct (lookup "function" d) as [[| | | | | |f]|]; try reflexivity;
    exfalso; now apply H.
Qed.

Lemma call_tools_ok (emitter : bool) (calls : list json) :
  forall messages log,
    Forall call_ok calls ->
    exists results,
      Pipe.call_tools execute_tool json_loads str_of_json emitter messages calls log
      = (Ok (app messages (map tool_message results)),
         app log (flat_map (call_events json_loads str_of_json emitter) calls))
      /\ List.length results = List.length calls.
Proof.
  induction calls as [|tc calls IH]; intros messages log H; cbn [Pipe.call_tools].
  - exists []. cbn [map flat_map]. now rewrite !app_nil_r.
  - inversion H as [|? ? Htc Hcalls]; subst. unfold bind_run.
    destruct (call_tool_ok emitter messages tc log Htc) as (result & ->).
    destruct (IH (app messages [tool_message result])
                 (app log (call_events json_loads str_of_json emitter tc)) Hcalls)
      as (results & -> & Hlen).
    exists (result :: results). cbn [map flat_map List.length].
    rewrite <- !app_assoc. cbn [app]. now rewrite Hlen.
Qed.

Lemma tools_run_app (a b : list action) :
  tools_run (app a b) = app (tools_run a) (tools_run b).
Proof.
  induction a as [|[d f|r|n x] a IH]; cbn [app tools_run]; trivial. now rewrite IH.
Qed.

Lemma tools_run_calls (emitter : bool) (calls : list json) :
  tools_run (flat_map (call_events json_loads str_of_json emitter) calls)
  = map (fun tc => (Pipe.jstr str_of_json (call_name tc),
                    call_arguments json_loads tc)) calls.
Proof.
  induction calls as [|tc calls IH]; [reflexivity|].
  cbn [flat_map map]. rewrite tools_run_app, IH. unfold call_events.
  destruct emitter; reflexivity.
Qed.

Lemma chats_calls (emitter : bool) (calls : list json) :
  chats (flat_map (call_events json_loads str_of_json emitter) calls) = [].
Proof.
  induction calls as [|tc calls IH]; [reflexivity|].
  cbn [flat_map]. rewrite chats_app, IH. unfold call_events.
  destruct emitter; reflexivity.
Qed.


(** *** One round *)

Lemma emit_runs (emitter : bool) (description : string) (done : bool)
    (log : list action) :
  emit emitter description done log
  = (Ok tt, app log (status_log emitter (Status description done))).
Proof.
  unfold emit, status_log, act, ret. destruct emitter; [reflexivity|].
  now rewrite app_nil_r.
Qed.

Lemma respond_answers (emitter : bool) (messages : list jdict) (response : json)
    (m : jdict) (log : list action) :
  jget response "message" (JDict []) = Ok (JDict m) ->
  jtruthy (match lookup "tool_calls" m with Some v => v | None => JNull end) = false ->
  Pipe.respond execute_tool json_loads str_of_json emitter messages response log
  = (match lookup "content" m with
     | Some (JStr s) =>
         Ok (Return (if Pipe._clean_response s =? "" then "No response generated."
                     else Pipe._clean_response s))
     | None => Ok (Return "No response generated.")
     | Some _ => Raise TypeError
     end,
     app log (status_log emitter (Status "" true))).
Proof.
  intros Hm Hcalls. unfold Pipe.respond. unfold bind_run at 1. unfold lift at 1.
  rewrite Hm. unfold bind_run at 1. unfold lift at 1. cbn [jget]. rewrite Hcalls.
  cbn [negb]. unfold bind_run at 1. rewrite emit_runs.
  unfold bind_run, lift, ret.
  destruct (lookup "content" m) as [[| | | |s| |]|]; reflexivity.
Qed.

Lemma respond_runs_tools (emitter : bool) (messages : list jdict) (response : json)
    (m : jdict) (calls : list json) (log : list action) :
  jget response "message" (JDict []) = Ok (JDict m) ->
  lookup "tool_calls" m = Some (JList calls) -> calls <> [] ->
  Forall call_ok calls ->
  exists results,
    Pipe.respond execute_tool json_loads str_of_json emitter messages response log
    = (Ok (Continue (app (app messages [m]) (map tool_message results))),
       app log (flat_map (call_events json_loads str_of_json emitter) calls))
    /\ List.length results = List.length calls.
Proof.
  intros Hm Hcalls Hne Hok. unfold Pipe.respond. unfold bind_run at 1. unfold lift at 1.
  rewrite Hm. unfold bind_run at 1. unfold lift at 1. cbn [jget]. rewrite Hcalls.
  destruct calls as [|tc calls]; [congruence|]. cbn [jtruthy negb].
  unfold bind_run at 1. unfold lift at 1. cbn [jitems].
  unfold bind_run at 1. unfold lift at 1. cbn [Pipe.iterate].
  unfold bind_run at 1.
  destruct (call_tools_ok emitter (tc :: calls) (app messages [m]) log Hok)
    as (results & -> & Hlen).
  exists results. now split.
Qed.

Lemma one_round_sends (emitter : bool) (tools' : list jdict) (round_num : nat)
    (messages : list jdict) (log : list action) :
  Forall has_role messages -> Forall has_function tools' ->
  exists r,
    offers_tools r = match tools' with [] => false | _ :: _ => true end
    /\ Pipe.one_round agent_valves chat_post execute_tool json_loads str_of_json
                      emitter tools' round_num messages log
       = match chat_post (app log (status_log emitter (thinking (round_num + 1)))) r with
         | ChatRaises e =>
             (Ok (Return ("Error calling Ollama: " ++ e)),
              app (app log (status_log emitter (thinking (round_num + 1)))) [Chat r])
         | ChatJson response =>
             Pipe.respond execute_tool json_loads str_of_json emitter messages response
               (app (app log (status_log emitter (thinking (round_num + 1)))) [Chat r])
         end.
Proof.
  intros Hroles Htools. unfold Pipe.one_round. unfold bind_run at 1.
  rewrite emit_runs. fold (thinking (round_num + 1)).
  destruct (call_ollama_sends messages tools'
              (app log (status_log emitter (thinking (round_num + 1)))) Hroles Htools)
    as (r & Hsend & Hoffers).
  exists r. split; [exact Hoffers|]. unfold bind_run. rewrite Hsend.
  destruct (chat_post _ r); reflexivity.
Qed.

Lemma one_round_key_error (emitter : bool) (tools' : list jdict) (round_num : nat)
    (messages : list jdict) (log : list action) :
  Exists (fun msg => lookup "role" msg = None) messages ->
  Pipe.one_round agent_valves chat_post execute_tool json_loads str_of_json
                 emitter tools' round_num messages log
  = (Ok (Return "Error calling Ollama: 'role'"),
     app log (status_log emitter (thinking (round_num + 1)))).
Proof.
  intros H. unfold Pipe.one_round. unfold bind_run at 1.
  rewrite emit_runs. fold (thinking (round_num + 1)). unfold bind_run.
  now rewrite (call_ollama_key_error _ _ _ H).
Qed.

Lemma final_answer_sends (emitter : bool) (messages : list jdict) (log : list action) :
  Forall has_role messages ->
  exists r,
    offers_tools r = false
    /\ Pipe.final_answer agent_valves chat_post error_text emitter messages log
       = match chat_post
                 (app log (status_log emitter (Status "Generating response..." false))) r
         with
         | ChatRaises e =>
             (Ok ("Error: " ++ e),
              app (app log (status_log emitter (Status "Generating response..." false)))
                  [Chat r])
         | ChatJson response =>
             (Ok match (message <- jget response "message" (JDict []) ;;
                        content <- jget message "content" (JStr "") ;;
                        Pipe.clean content) with
                 | Ok text => text
                 | Raise e => "Error: " ++ error_text e response
                 end,
              app (app (app log (status_log emitter
                                   (Status "Generating response..." false)))
                       [Chat r])
                  (status_log emitter (Status "" true)))
         end.
Proof.
  intros Hroles. unfold Pipe.final_answer. unfold bind_run at 1. rewrite emit_runs.
  destruct (call_ollama_sends messages []
              (app log (status_log emitter (Status "Generating response..." false)))
              Hroles ltac:(constructor)) as (r & Hsend & Hoffers).
  exists r. split; [exact Hoffers|]. unfold bind_run at 1. rewrite Hsend.
  destruct (chat_post _ r); [reflexivity|].
  unfold bind_run. rewrite emit_runs. reflexivity.
Qed.

Lemma final_answer_key_error (emitter : bool) (messages : list jdict)
    (log : list action) :
  Exists (fun msg => lookup "role" msg = None) messages ->
  Pipe.final_answer agent_valves chat_post error_text emitter messages log
  = (Ok "Error: 'role'",
     app log (status_log emitter (Status "Generating response..." false))).
Proof.
  intros H. unfold Pipe.final_answer. unfold bind_run at 1. rewrite emit_runs.
  unfold bind_run. now rewrite (call_ollama_key_error _ _ _ H).
Qed.

Lemma chats_status (emitter : bool) (a : action) :
  (forall r, a <> Chat r) -> chats (status_log emitter a) = [].
Proof.
  intros H. unfold status_log. destruct emitter; [|reflexivity].
  destruct a; try reflexivity. now destruct (H r).
Qed.

Lemma chats_event (emitter : bool) (description : string) (done : bool) :
  chats (status_log emitter (Status description done)) = [].
Proof. unfold status_log. now destruct emitter. Qed.

Lemma tools_run_status (emitter : bool) (description : string) (done : bool) :
  tools_run (status_log emitter (Status description done)) = [].
Proof. unfold status_log. now destruct emitter. Qed.

(** *** The model path *)

Section ModelPath.

Variable body_messages : list json.
Variable emitter : bool.
Variable cache cache' : option (list jdict).
Variable user_msg : string.
Variable tools : list jdict.
Variable converted : list jdict.

(** The model path is reached: the latest user message is read, it asks
    for no table and no chart or the direct search brings nothing, the
    tools are delivered and the messages of the body are converted. *)
Hypothesis latest : Pipe.latest_user str_of_json (rev body_messages) = Ok user_msg.
Hypothesis falls_through :
  Pipe._detect_format user_msg = "default"
  \/ Pipe._direct_format valves http_get user_msg = Ok None.
Hypothesis fetched :
  Pipe._fetch_tools valves agent_valves http_get_json cache = (Ok tools, cache').
Hypothesis transcript :
  for_each (Pipe.transcript_message str_of_json) body_messages = Ok converted.

Lemma fast_path_falls_through :
  Pipe.fast_path valves http_get emitter user_msg []
  = (Ok None, fast_log emitter user_msg).
Proof.
  unfold Pipe.fast_path, fast_log.
  destruct (mem (Pipe._detect_format user_msg) ["table"; "chart"]) eqn:Hm;
    [|reflexivity].
  destruct falls_through as [Hd|Hd]; [rewrite Hd in Hm; discriminate|].
  unfold bind_run, lift. rewrite emit_runs, Hd, emit_runs. unfold ret, search_events.
  now destruct emitter.
Qed.

Lemma fast_log_quiet :
  chats (fast_log emitter user_msg) = []
  /\ tools_run (fast_log emitter user_msg) = [].
Proof.
  unfold fast_log, search_events.
  destruct (mem _ _), emitter; split; reflexivity.
Qed.

Lemma pipe_model_path :
  pipe body_messages emitter cache
  = (Pipe.model_path agent_valves chat_post execute_tool json_loads str_of_json
                     error_text emitter tools body_messages
                     (fast_log emitter user_msg),
     cache').
Proof.
  unfold Pipe.pipe. rewrite latest, fast_path_falls_through. now rewrite fetched.
Qed.

Lemma system_has_role :
  Forall has_role
    ([("role", JStr "system"); ("content", JStr (SYSTEM_PROMPT agent_valves))]
     :: converted).
Proof.
  constructor; [discriminate|]. exact (transcript_has_role _ _ transcript).
Qed.

Lemma model_path_runs (log : list action) :
  Pipe.model_path agent_valves chat_post execute_tool json_loads str_of_json
                  error_text emitter tools body_messages log
  = match Pipe.tool_rounds agent_valves chat_post execute_tool json_loads str_of_json
            emitter tools (Z.to_nat (MAX_TOOL_ROUNDS agent_valves)) 0
            ([("role", JStr "system"); ("content", JStr (SYSTEM_PROMPT agent_valves))]
             :: converted) log with
    | (Ok (Return text), log') => (Ok text, log')
    | (Ok (Continue messages), log') =>
        Pipe.final_answer agent_valves chat_post error_text emitter messages log'
    | (Raise e, log') => (Raise e, log')
    end.
Proof.
  unfold Pipe.model_path. unfold bind_run at 1. unfold lift at 1. rewrite transcript.
  unfold bind_run. destruct (Pipe.tool_rounds _ _ _ _ _ _ _ _ _ _ _) as [[[text|ms]|e] log'];
    reflexivity.
Qed.

(** The log up to and with the first call of the endpoint. *)
Lemma first_call_log (description : string) (done : bool) (r : chat_request)
    (rest : list action) :
  chats rest = [] ->
  chats (app (app (app (fast_log emitter user_msg)
                       (status_log emitter (Status description done)))
                  [Chat r]) rest) = [r]
  /\ tools_run (app (app (app (fast_log emitter user_msg)
                              (status_log emitter (Status description done)))
                         [Chat r]) rest) = tools_run rest.
Proof.
  intros Hrest. destruct fast_log_quiet as [Hc Ht].
  rewrite !chats_app, !tools_run_app, Hc, Ht, chats_event, tools_run_status, Hrest.
  split; reflexivity.
Qed.

(** When the model path is reached and the chat endpoint is down,
    [pipe] returns an error text and does not try again: the endpoint
    is called once, and no tool is run.  The text starts with [Error
    calling Ollama: ] when a round is allowed, and with [Error: ] when
    [MAX_TOOL_ROUNDS] is zero or less, the one call being then the
    final one. *)
Theorem pipe_chat_failure (e : string) :
  Forall has_function tools ->
  (forall log r, chat_post log r = ChatRaises e) ->
  exists r log,
    pipe body_messages emitter cache
    = (Ok (if (0 <? MAX_TOOL_ROUNDS agent_valves)%Z
           then "Error calling Ollama: " ++ e
           else "Error: " ++ e),
       log, cache')
    /\ chats log = [r]
    /\ tools_run log = [].
Proof.
  intros Htools Hdown. rewrite pipe_model_path, model_path_runs.
  destruct (0 <? MAX_TOOL_ROUNDS agent_valves)%Z eqn:Hmax.
  - apply Z.ltb_lt in Hmax.
    destruct (Z.to_nat (MAX_TOOL_ROUNDS agent_valves)) as [|rounds] eqn:Hr; [lia|].
    cbn [Pipe.tool_rounds]. unfold bind_run at 1.
    destruct (one_round_sends emitter tools 0 _ (fast_log emitter user_msg)
                system_has_role Htools) as (r & _ & ->).
    rewrite Hdown. unfold ret. exists r. eexists. split; [reflexivity|].
    unfold thinking.
    destruct (first_call_log ("Thinking... (round " ++ Pipe.str_of_nat (0 + 1) ++ ")")
                false r [] eq_refl) as [Hc Ht].
    rewrite app_nil_r in Hc, Ht. now split.
  - apply Z.ltb_ge in Hmax.
    assert (Z.to_nat (MAX_TOOL_ROUNDS agent_valves) = 0%nat) as -> by lia.
    cbn [Pipe.tool_rounds]. unfold ret at 1.
    destruct (final_answer_sends emitter _ (fast_log emitter user_msg) system_has_role)
      as (r & _ & ->).
    rewrite Hdown. exists r. eexists. split; [reflexivity|].
    destruct (first_call_log "Generating response..." false r [] eq_refl) as [Hc Ht].
    rewrite app_nil_r in Hc, Ht. now split.
Qed.

(** When the model path is reached and the response to the first call
    of the endpoint asks for no tool, [pipe] returns the cleaned
    content, or [No response generated.] when nothing is left of it or
    there is none: never the empty text.  The endpoint is called once
    and no tool is run.  A content that is no text is not caught:
    [pipe] raises [TypeError]. *)
Theorem pipe_direct_answer (response : json) (m : jdict) :
  Forall has_function tools ->
  (0 < MAX_TOOL_ROUNDS agent_valves)%Z ->
  (forall r,
     chat_post (app (fast_log emitter user_msg) (status_log emitter (thinking 1))) r
     = ChatJson response) ->
  jget response "message" (JDict []) = Ok (JDict m) ->
  jtruthy (match lookup "tool_calls" m with Some v => v | None => JNull end) = false ->
  exists r log outcome,
    pipe body_messages emitter cache = (outcome, log, cache')
    /\ outcome = match lookup "content" m with
                 | Some (JStr s) =>
                     Ok (if Pipe._clean_response s =? "" then "No response generated."
                         else Pipe._clean_response s)
                 | None => Ok "No response generated."
                 | Some _ => Raise TypeError
                 end
    /\ outcome <> Ok ""
    /\ chats log = [r]
    /\ tools_run log = [].
Proof.
  intros Htools Hmax Hanswer Hmessage Hcalls.
  rewrite pipe_model_path, model_path_runs.
  destruct (Z.to_nat (MAX_TOOL_ROUNDS agent_valves)) as [|rounds] eqn:Hr; [lia|].
  cbn [Pipe.tool_rounds]. unfold bind_run at 1.
  destruct (one_round_sends emitter tools 0 _ (fast_log emitter user_msg)
              system_has_role Htools) as (r & _ & ->).
  cbn [Nat.add]. rewrite Hanswer.
  rewrite (respond_answers _ _ _ _ _ Hmessage Hcalls).
  destruct (first_call_log ("Thinking... (round " ++ Pipe.str_of_nat 1 ++ ")") false r
              (status_log emitter (Status "" true)) (chats_event _ _ _)) as [Hc Ht].
  rewrite tools_run_status in Ht. fold (thinking 1) in Hc, Ht.
  exists r. eexists.
  destruct (lookup "content" m) as [[| | | |s| |]|]; unfold ret;
    eexists; (split; [reflexivity|]); (split; [reflexivity|]);
    (split; [|split; [exact Hc | exact Ht]]); try discriminate.
  destruct (Pipe._clean_response s =? "") eqn:E; [discriminate|].
  intros H. injection H as H. apply String.eqb_neq in E. congruence.
Qed.

(** *** A model that keeps asking for tools *)

Lemma round_runs_tools (round_num : nat) (messages : list jdict) (log : list action)
    (r : chat_request) (response : json) :
  asks_for_tools response ->
  exists added messages',
    Pipe.respond execute_tool json_loads str_of_json emitter messages response log
    = (Ok (Continue messages'), app log added)
    /\ (Forall has_role messages -> Forall has_role messages')
    /\ chats added = []
    /\ 1 <= List.length (tools_run added).
Proof.
  intros (m & calls & Hm & Hrole & Hcalls & Hne & Hok).
  destruct (respond_runs_tools emitter messages response m calls log Hm Hcalls Hne Hok)
    as (results & -> & Hlen).
  eexists _, _. split; [reflexivity|]. split; [|split].
  - intros Hroles. apply Forall_app.
    split; [apply Forall_app; split; [exact Hroles | now constructor]|].
    apply Forall_forall. intros x Hx. apply in_map_iff in Hx as (res & <- & _).
    discriminate.
  - apply chats_calls.
  - rewrite tools_run_calls, length_map. destruct calls; [congruence|].
    cbn [List.length]. lia.
Qed.

Lemma final_text_spec (response : json) :
  match (message <- jget response "message" (JDict []) ;;
         content <- jget message "content" (JStr "") ;;
         Pipe.clean content) with
  | Ok text => text
  | Raise e => "Error: " ++ error_text e response
  end = final_text error_text response.
Proof.
  unfold final_text. destruct (jget response "message" (JDict [])) as [message|e] eqn:Hm.
  - cbn [bind]. destruct message as [| | | | | |m]; try reflexivity.
    cbn [jget bind]. destruct (lookup "content" m) as [[| | | |s| |]|]; reflexivity.
  - cbn [bind]. now apply jget_raises in Hm as ->.
Qed.

Section RoundLimit.

Hypothesis tools_ok : Forall has_function tools.

(** Every response of the model to one of the first [MAX_TOOL_ROUNDS]
    calls of the endpoint asks for tools; the responses may differ from
    call to call, and the response to a later call may be any. *)
Hypothesis keeps_asking :
  forall log r,
    List.length (chats log) < Z.to_nat (MAX_TOOL_ROUNDS agent_valves) ->
    exists response, chat_post log r = ChatJson response /\ asks_for_tools response.

Lemma rounds_run_tools (rounds : nat) :
  forall round_num messages log,
    Forall has_role messages ->
    List.length (chats log) + rounds <= Z.to_nat (MAX_TOOL_ROUNDS agent_valves) ->
    exists messages' added,
      Pipe.tool_rounds agent_valves chat_post execute_tool json_loads str_of_json
                       emitter tools rounds round_num messages log
      = (Ok (Continue messages'), app log added)
      /\ Forall has_role messages'
      /\ List.length (chats added) = rounds
      /\ Forall (fun r => offers_tools r
                          = match tools with [] => false | _ :: _ => true end)
                (chats added)
      /\ rounds <= List.length (tools_run added).
Proof.
  induction rounds as [|rounds IH]; intros round_num messages log Hroles Hleft;
    cbn [Pipe.tool_rounds].
  - exists messages, []. unfold ret. rewrite app_nil_r. repeat split; trivial.
  - unfold bind_run.
    destruct (one_round_sends emitter tools round_num messages log Hroles tools_ok)
      as (r & Hoffers & ->).
    destruct (keeps_asking (app log (status_log emitter (thinking (round_num + 1)))) r)
      as (response & -> & Hasks).
    { unfold thinking. rewrite chats_app, chats_event, app_nil_r. lia. }
    destruct (round_runs_tools round_num messages
                (app (app log (status_log emitter (thinking (round_num + 1)))) [Chat r])
                r response Hasks) as (added1 & messages1 & -> & Hroles1 & Hc1 & Ht1).
    destruct (IH (S round_num) messages1
                 (app (app (app log (status_log emitter (thinking (round_num + 1))))
                           [Chat r]) added1) (Hroles1 Hroles))
      as (messages' & added & -> & Hr' & Hc & Ho & Ht).
    { unfold thinking. rewrite !chats_app, chats_event, Hc1. cbn [chats app].
      rewrite !app_nil_r, length_app. cbn [List.length]. lia. }
    exists messages',
      (app (app (app (status_log emitter (thinking (round_num + 1))) [Chat r]) added1)
           added).
    split; [now rewrite !app_assoc|]. split; [exact Hr'|].
    unfold thinking. rewrite !chats_app, !tools_run_app, chats_event, tools_run_status, Hc1.
    cbn [chats tools_run app]. rewrite length_app. cbn [List.length].
    repeat split; [lia | now constructor | lia].
Qed.


End RoundLimit.

(** *** A message of the model without a role *)


End ModelPath.

End MainPipe.

Lemma pipe_fast_path_witness :
  let run := Pipe.pipe default_valves one_repo default_agent_valves no_openapi
                       chat_down echo_tool no_json some_str some_text
                       table_body true None in
  let user_msg := "show me a table of popular python repos" in
  (forall text,
     Pipe._direct_format default_valves one_repo user_msg = Ok (Some text) ->
     run = (Ok text, search_events true, None))
  /\ (forall e,
        Pipe._direct_format default_valves one_repo user_msg = Raise e ->
        run = (Raise e, [Status "Searching GitHub..." false], None)).
Proof.
  apply (pipe_fast_path default_valves one_repo default_agent_valves no_openapi
           chat_down echo_tool no_json some_str some_text table_body true None
           "show me a table of popular python repos");
    [reflexivity | left; reflexivity].
Defined.

Lemma pipe_chat_failure_witness :
  exists r log,
    Pipe.pipe default_valves no_search default_agent_valves no_openapi
              chat_down echo_tool no_json some_str some_text table_body true None
    = (Ok (if (0 <? MAX_TOOL_ROUNDS default_agent_valves)%Z
           then "Error calling Ollama: " ++ "Connection refused"
           else "Error: " ++ "Connection refused"),
       log, None)
    /\ chats log = [r]
    /\ tools_run log = [].
Proof.
  apply (pipe_chat_failure default_valves no_search default_agent_valves no_openapi
           chat_down echo_tool no_json some_str some_text table_body true None None
           "show me a table of popular python repos" []
           [[("role", JStr "user");
             ("content", JStr "show me a table of popular python repos")]]
           eq_refl (or_intror eq_refl) eq_refl eq_refl "Connection refused").
  - constructor.
  - intros log r. reflexivity.
Defined.

Lemma pipe_direct_answer_witness :
  let m := [("role", JStr "assistant"); ("content", JStr "He owns linux.<|im_end|>")] in
  exists r log outcome,
    Pipe.pipe default_valves no_search default_agent_valves no_openapi
              (fun _ _ => ChatJson answering) echo_tool no_json some_str some_text
              hello_body true None
    = (outcome, log, None)
    /\ outcome = match lookup "content" m with
                 | Some (JStr s) =>
                     Ok (if Pipe._clean_response s =? "" then "No response generated."
                         else Pipe._clean_response s)
                 | None => Ok "No response generated."
                 | Some _ => Raise TypeError
                 end
    /\ outcome <> Ok ""
    /\ chats log = [r]
    /\ tools_run log = [].
Proof.
  apply (pipe_direct_answer default_valves no_search default_agent_valves no_openapi
           (fun _ _ => ChatJson answering) echo_tool no_json some_str some_text
           hello_body true None None "Which repos does torvalds own?" []
           [[("role", JStr "user");
             ("content", JStr "Which repos does torvalds own?")]]
           eq_refl (or_introl eq_refl) eq_refl eq_refl answering
           [("role", JStr "assistant"); ("content", JStr "He owns linux.<|im_end|>")]).
  - constructor.
  - reflexivity.
  - intros r. reflexivity.
  - reflexivity.
  - reflexivity.
Defined.



Example pipe_runs :
  Pipe.pipe default_valves no_search default_agent_valves no_openapi
            (fun log _ => match chats log with
                          | [] => ChatJson (asking true)
                          | _ :: _ => ChatJson answering
                          end)
            echo_tool no_json some_str some_text hello_body true None
  = (Ok "He owns linux.",
     [Status "Thinking... (round 1)" false;
      Chat {| chat_url := "http://localhost:11434/api/chat";
              chat_json :=
                JDict [("model", JStr "qwen2.5:7b");
                       ("messages",
                        JList [JDict [("role", JStr "system");
                                      ("content",
                                       JStr (SYSTEM_PROMPT default_agent_valves))];
                               JDict [("role", JStr "user");
                                      ("content",
                                       JStr "Which repos does torvalds own?")]]);
                       ("stream", JBool false);
                       ("options", JDict [("num_ctx", JInt 16384)])];
              chat_timeout := 300 |};
      Status "Calling search_repositories..." false;
      Tool "search_repositories" (JDict [("query", JStr "user:torvalds")]);
      Status "Thinking... (round 2)" false;
      Chat {| chat_url := "http://localhost:11434/api/chat";
              chat_json :=
                JDict [("model", JStr "qwen2.5:7b");
                       ("messages",
                        JList [JDict [("role", JStr "system");
                                      ("content",
                                       JStr (SYSTEM_PROMPT default_agent_valves))];
                               JDict [("role", JStr "user");
                                      ("content",
                                       JStr "Which repos does torvalds own?")];
                               JDict [("role", JStr "assistant");
                                      ("content", JStr "");
                                      ("tool_calls", JList [sample_call])];
                               JDict [("role", JStr "tool");
                                      ("content", JStr "ran search_repositories")]]);
                       ("stream", JBool false);
                       ("options", JDict [("num_ctx", JInt 16384)])];
              chat_timeout := 300 |};
      Status "" true],
     None).
Proof. vm_compute. reflexivity. Qed.
